(** * Visual-Photo-Renamer: the matching-and-mutation engine

    A shallow embedding of [FileRenamerCore] (scan_files, find_pairs,
    generate_rename_plan, execute_rename) and of
    [FileRenamerGUI.restore_backup] from renamerV4.py.  The core class of
    renamerV2_gui.py is the same code up to blank lines, so one embedding
    covers both variants.  The handlers of the two windows of renamerV4.py
    that drive the engine, and the table of renamerV2_gui.py, follow the
    engine. *)

From Stdlib Require Import ZArith Ascii String.
From stdpp Require Import base option list strings pretty gmap fin_maps.

Local Open Scope string_scope.
Local Open Scope list_scope.

(** ** Paths

    A [pathlib.Path] is modelled as the list of its components below the
    root; [str] and [Path(...)] are inverse on such paths, so the backup
    log keeps paths where the JSON document keeps their strings. *)

Module PathLib.

Abbreviation Path := (list string).

(** [Path.name]: the final component, empty for the root. *)
Definition name (p : Path) : string := List.last p "".

(** [Path.parent]: everything but the final component. *)
Definition parent (p : Path) : Path := removelast p.

(** [p / s] for a single component [s]; joining the empty string is the
    identity, as in pathlib. *)
Definition joinpath (p : Path) (s : string) : Path :=
  if decide (s = "") then p else p ++ [s].

(** [str.rfind]: index of the last occurrence of a character. *)
Fixpoint rfind (c : ascii) (s : string) : option nat :=
  match s with
  | EmptyString => None
  | String a s' =>
      match rfind c s' with
      | Some i => Some (S i)
      | None => if Ascii.eqb a c then Some 0 else None
      end
  end.

(** [Path.suffix]: the last dot and what follows it, unless the dot is the
    first or the last character of the name. *)
Definition suffix (p : Path) : string :=
  let nm := name p in
  match rfind "." nm with
  | Some i =>
      if Nat.ltb 0 i && Nat.ltb i (String.length nm - 1)
      then String.substring i (String.length nm - i) nm
      else ""
  | None => ""
  end.

(** [Path.stem]: the name without its suffix. *)
Definition stem (p : Path) : string :=
  let nm := name p in
  match rfind "." nm with
  | Some i =>
      if Nat.ltb 0 i && Nat.ltb i (String.length nm - 1)
      then String.substring 0 i nm
      else nm
  | None => nm
  end.

(** [str.lower] on ASCII letters. *)
Definition lower_ascii (a : ascii) : ascii :=
  let n := nat_of_ascii a in
  if Nat.leb 65 n && Nat.leb n 90 then ascii_of_nat (n + 32) else a.

Fixpoint lower (s : string) : string :=
  match s with
  | EmptyString => EmptyString
  | String a s' => String (lower_ascii a) (lower s')
  end.

(** [str(path)] for an absolute path. *)
Definition str (p : Path) : string :=
  match p with
  | [] => "/"
  | _ => String.concat "" (List.map (fun c => "/" +:+ c) p)
  end.

End PathLib.

Import PathLib.


(** ** Exceptions and results

    An exception is its class and the text [str(e)] gives for it; a call
    either returns a value or raises. *)

Inductive ExnKind :=
  | FileNotFoundError
  | NotADirectoryError
  | IsADirectoryError
  | PermissionError
  | OSError
  | JSONDecodeError.

Record Exception := mkExn { exn_kind : ExnKind; exn_msg : string }.

Inductive Outcome (A : Type) :=
  | Return (a : A)
  | Raise (e : Exception).

Arguments Return {A} a.
Arguments Raise {A} e.

Definition raised {A} (o : Outcome A) : option ExnKind :=
  match o with
  | Return _ => None
  | Raise e => Some (exn_kind e)
  end.

(** ** The backup log document *)

Record Operation := mkOperation {
  old_name : string;
  new_name : string;
  old_path : Path;
  new_path : Path;
  status : string;
  error : option string
}.

Record BackupData := mkBackupData {
  timestamp : string;
  raw_folder : string;
  jpg_folder : string;
  operations : list Operation
}.

(** ** The file system

    A finite map from paths to nodes.  A regular file holds image bytes
    (opaque here) or a JSON backup document.  The entries of a directory
    are the nodes whose parent it is. *)

Inductive Content :=
  | Image (data : N)
  | Json (doc : BackupData).

Inductive Node :=
  | RegularFile (c : Content)
  | Directory.

Abbreviation FS := (gmap Path Node).

(** [Path.exists] and [Path.is_file]. *)
Definition path_exists (fs : FS) (p : Path) : bool :=
  match fs !! p with Some _ => true | None => false end.

Definition is_file (fs : FS) (p : Path) : bool :=
  match fs !! p with Some (RegularFile _) => true | _ => false end.

(** The nodes directly below [d], in the order the map enumerates them
    (the order of a real listing is unspecified). *)
Definition entries (fs : FS) (d : Path) : list Path :=
  filter (fun p => p ≠ [] /\ parent p = d) (map_to_list fs).*1.

(** [Path.iterdir]: the children of a directory. *)
Definition iterdir (fs : FS) (d : Path) : Outcome (list Path) :=
  match fs !! d with
  | None =>
      Raise (mkExn FileNotFoundError ("No such file or directory: " +:+ str d))
  | Some (RegularFile _) =>
      Raise (mkExn NotADirectoryError ("Not a directory: " +:+ str d))
  | Some Directory =>
      Return (entries fs d)
  end.

(** Re-keying of a subtree, for the rename of a directory. *)
Definition move_tree (src dst : Path) (fs : FS) : FS :=
  list_to_map
    (map (fun '(p, n) =>
            (if bool_decide (src `prefix_of` p)
             then dst ++ drop (length src) p else p, n))
         (map_to_list fs)).

Definition has_entries (fs : FS) (d : Path) : bool :=
  bool_decide (entries fs d ≠ []).

(** [Path.rename] with the behaviour of rename(2): the source must exist, a
    regular file silently replaces a regular file at the destination, and a
    file and a directory never replace one another.  A failed call leaves
    the file system as it was. *)
Definition posix_rename (fs : FS) (src dst : Path) : Outcome FS :=
  match fs !! src with
  | None =>
      Raise (mkExn FileNotFoundError ("No such file or directory: " +:+ str src))
  | Some (RegularFile c) =>
      match fs !! dst with
      | Some Directory =>
          Raise (mkExn IsADirectoryError ("Is a directory: " +:+ str dst))
      | _ => Return (<[dst := RegularFile c]> (delete src fs))
      end
  | Some Directory =>
      match fs !! dst with
      | Some (RegularFile _) =>
          Raise (mkExn NotADirectoryError ("Not a directory: " +:+ str dst))
      | _ =>
          if bool_decide (src = dst) then Return fs
          else if bool_decide (src `prefix_of` dst)
          then Raise (mkExn OSError ("Invalid argument: " +:+ str dst))
          else if has_entries fs dst
          then Raise (mkExn OSError ("Directory not empty: " +:+ str dst))
          else Return (move_tree src dst fs)
      end
  end.

(** [Path.rename] with the check of rename(2) on the directory the
    destination is entered in: an existing source is moved only where the
    parent of the destination is a directory.  Beyond that the call is
    [posix_rename]. *)
Definition path_rename (fs : FS) (src dst : Path) : Outcome FS :=
  match fs !! src with
  | None =>
      Raise (mkExn FileNotFoundError ("No such file or directory: " +:+ str src))
  | Some _ =>
      match fs !! parent dst with
      | Some Directory => posix_rename fs src dst
      | Some (RegularFile _) =>
          Raise (mkExn NotADirectoryError ("Not a directory: " +:+ str dst))
      | None =>
          Raise (mkExn FileNotFoundError
                   ("No such file or directory: " +:+ str dst))
      end
  end.

(** The file system with the document at [p]: what a write that succeeds
    leaves behind. *)
Definition written (fs : FS) (p : Path) (doc : BackupData) : FS :=
  <[p := RegularFile (Json doc)]> fs.

(** [open(p, 'w')] followed by [json.dump].  The file can be opened where a
    regular file is already at [p], or where nothing is at [p] and its
    parent is a directory; a failed call leaves the file system as it
    was.  The file system has no permissions and no size: these two are
    the ways in which the write fails here, as they are for a rename. *)
Definition write_json (fs : FS) (p : Path) (doc : BackupData) : Outcome FS :=
  match fs !! p with
  | Some (RegularFile _) => Return (written fs p doc)
  | Some Directory =>
      Raise (mkExn IsADirectoryError ("Is a directory: " +:+ str p))
  | None =>
      match fs !! parent p with
      | Some Directory => Return (written fs p doc)
      | Some (RegularFile _) =>
          Raise (mkExn NotADirectoryError ("Not a directory: " +:+ str p))
      | None =>
          Raise (mkExn FileNotFoundError
                   ("No such file or directory: " +:+ str p))
      end
  end.

(** [open(p, 'r')] followed by [json.load]. *)
Definition read_json (fs : FS) (p : Path) : Outcome BackupData :=
  match fs !! p with
  | Some (RegularFile (Json doc)) => Return doc
  | Some (RegularFile (Image _)) =>
      Raise (mkExn JSONDecodeError "Expecting value")
  | Some Directory =>
      Raise (mkExn IsADirectoryError ("Is a directory: " +:+ str p))
  | None =>
      Raise (mkExn FileNotFoundError ("No such file or directory: " +:+ str p))
  end.

(** ** Configuration *)

Definition RAW_EXTENSIONS : list string :=
  [".cr2"; ".nef"; ".arw"; ".dng"; ".raf"; ".orf"; ".rw2"; ".pef"; ".srw"].
Definition JPG_EXTENSIONS : list string := [".jpg"; ".jpeg"].
Definition DEFAULT_SIMILARITY_THRESHOLD : Z := 5.

(** ** FileRenamerCore *)

(** [best_similarity] starts as [float('inf')] and then holds distances. *)
Inductive Similarity :=
  | Infinity
  | Finite (d : Z).

Definition MatchPair : Type := Path * Path * Similarity.

Record FileRenamerCore := mkCore {
  raw_folder_path : Path;
  jpg_folder_path : Path;
  similarity_threshold : Z;
  raw_files : list Path;
  jpg_files : list Path;
  pairs : list MatchPair;
  log_file : option Path
}.

(** [FileRenamerCore.__init__] *)
Definition new_core (raw_folder_path jpg_folder_path : Path)
    (similarity_threshold : Z) : FileRenamerCore :=
  mkCore raw_folder_path jpg_folder_path similarity_threshold [] [] [] None.

Definition set_raw_files (l : list Path) (c : FileRenamerCore) :=
  mkCore (raw_folder_path c) (jpg_folder_path c) (similarity_threshold c)
         l (jpg_files c) (pairs c) (log_file c).
Definition set_jpg_files (l : list Path) (c : FileRenamerCore) :=
  mkCore (raw_folder_path c) (jpg_folder_path c) (similarity_threshold c)
         (raw_files c) l (pairs c) (log_file c).
Definition set_pairs (l : list MatchPair) (c : FileRenamerCore) :=
  mkCore (raw_folder_path c) (jpg_folder_path c) (similarity_threshold c)
         (raw_files c) (jpg_files c) l (log_file c).
Definition set_log_file (f : option Path) (c : FileRenamerCore) :=
  mkCore (raw_folder_path c) (jpg_folder_path c) (similarity_threshold c)
         (raw_files c) (jpg_files c) (pairs c) f.
Definition set_similarity_threshold (t : Z) (c : FileRenamerCore) :=
  mkCore (raw_folder_path c) (jpg_folder_path c) t
         (raw_files c) (jpg_files c) (pairs c) (log_file c).

(** *** scan_files *)

(** One pass of a scanning loop: keep the regular files whose lower-cased
    suffix is in the given extension set, in listing order. *)
Definition scan_step (fs : FS) (extensions : list string)
    (found : list Path) (file_path : Path) : list Path :=
  if is_file fs file_path then
    let ext := lower (suffix file_path) in
    if bool_decide (ext ∈ extensions) then found ++ [file_path] else found
  else found.

Definition scan_files (fs : FS) (self : FileRenamerCore)
    : FileRenamerCore * Outcome (nat * nat) :=
  let self := set_raw_files [] self in
  let self := set_jpg_files [] self in
  if negb (path_exists fs (raw_folder_path self)) then
    (self, Raise (mkExn FileNotFoundError
       ("RAW složka " +:+ str (raw_folder_path self) +:+ " neexistuje.")))
  else if negb (path_exists fs (jpg_folder_path self)) then
    (self, Raise (mkExn FileNotFoundError
       ("JPG složka " +:+ str (jpg_folder_path self) +:+ " neexistuje.")))
  else
    match iterdir fs (raw_folder_path self) with
    | Raise e => (self, Raise e)
    | Return entries =>
        let self :=
          set_raw_files
            (foldl (scan_step fs RAW_EXTENSIONS) (raw_files self) entries) self in
        match iterdir fs (jpg_folder_path self) with
        | Raise e => (self, Raise e)
        | Return entries =>
            let self :=
              set_jpg_files
                (foldl (scan_step fs JPG_EXTENSIONS) (jpg_files self) entries)
                self in
            (self, Return (length (raw_files self), length (jpg_files self)))
        end
    end.

(** [Path.is_dir] *)
Definition is_dir (fs : FS) (p : Path) : bool :=
  match fs !! p with Some Directory => true | _ => false end.

(** The files a scanning loop keeps, said at once. *)
Definition classified (fs : FS) (extensions : list string)
    (entries : list Path) : list Path :=
  filter (fun p => is_file fs p = true /\ lower (suffix p) ∈ extensions)
         entries.

(** The classifier's contract as the specification words it: failure with
    the directory-not-found condition unless both paths are directories,
    and the two counts otherwise. *)
Definition classifier_contract (fs : FS) (self : FileRenamerCore) : Prop :=
  let result := scan_files fs self in
  if is_dir fs (raw_folder_path self) && is_dir fs (jpg_folder_path self)
  then result.2
       = Return (length (raw_files result.1), length (jpg_files result.1))
  else raised result.2 = Some FileNotFoundError.

(** "Nothing is mutated" read on the engine's own state: a scan that fails
    for a missing directory leaves the engine as it was. *)
Definition scan_failure_keeps_state (fs : FS) (self : FileRenamerCore)
    : Prop :=
  raised (scan_files fs self).2 = Some FileNotFoundError ->
  (scan_files fs self).1 = self.

(** *** find_pairs

    [calculate_image_hash] opens and hashes an image with Pillow and
    imagehash and returns [None] on any exception; [raw_hash - jpg_hash] is
    imagehash's distance.  Both are taken as given.  The progress callback
    only observes the loop and is left out. *)

(** [jpg_hashes[k] = v] on an insertion-ordered dict. *)
Fixpoint dict_set {V : Type} (k : Path) (v : V) (d : list (Path * V))
    : list (Path * V) :=
  match d with
  | [] => [(k, v)]
  | (k', v') :: d' =>
      if decide (k' = k) then (k', v) :: d' else (k', v') :: dict_set k v d'
  end.

(** [similarity < best_similarity] *)
Definition lt_similarity (similarity : Z) (best : Similarity) : bool :=
  match best with
  | Infinity => true
  | Finite b => bool_decide (similarity < b)%Z
  end.

Section Pairing.

Context {Fingerprint : Type}.
Variable calculate_image_hash : Path -> option Fingerprint.
Variable distance : Fingerprint -> Fingerprint -> Z.

(** The first loop: hash every JPG once, keeping those that decode. *)
Definition hash_jpgs (jpg_files : list Path) : list (Path * Fingerprint) :=
  foldl (fun jpg_hashes jpg_file =>
           match calculate_image_hash jpg_file with
           | Some hash_value => dict_set jpg_file hash_value jpg_hashes
           | None => jpg_hashes
           end) [] jpg_files.

(** The inner loop over [jpg_hashes.items()]. *)
Definition best_step (threshold : Z) (raw_hash : Fingerprint)
    (best : option Path * Similarity) (item : Path * Fingerprint)
    : option Path * Similarity :=
  let '(jpg_file, jpg_hash) := item in
  let similarity := distance raw_hash jpg_hash in
  if lt_similarity similarity (snd best) && bool_decide (similarity ≤ threshold)%Z
  then (Some jpg_file, Finite similarity)
  else best.

Definition best_candidate (threshold : Z) (raw_hash : Fingerprint)
    (jpg_hashes : list (Path * Fingerprint)) : option Path * Similarity :=
  foldl (best_step threshold raw_hash) (None, Infinity) jpg_hashes.

(** The body of the loop over [self.raw_files]. *)
Definition pair_step (threshold : Z) (jpg_hashes : list (Path * Fingerprint))
    (pairs : list MatchPair) (raw_file : Path) : list MatchPair :=
  match calculate_image_hash raw_file with
  | None => pairs
  | Some raw_hash =>
      let '(best_match, best_similarity) :=
        best_candidate threshold raw_hash jpg_hashes in
      match best_match with
      | Some jpg_file => pairs ++ [(raw_file, jpg_file, best_similarity)]
      | None => pairs
      end
  end.

Definition find_pairs (self : FileRenamerCore)
    : FileRenamerCore * list MatchPair :=
  let self := set_pairs [] self in
  let jpg_hashes := hash_jpgs (jpg_files self) in
  let pairs :=
    foldl (pair_step (similarity_threshold self) jpg_hashes)
          (pairs self) (raw_files self) in
  (set_pairs pairs self, pairs).

(** The pairing rule in the words of the specification: among the JPGs
    with a fingerprint take the one of least distance, the earliest on a
    tie, and accept it when that distance is within the threshold. *)
Fixpoint spec_first_minimum (raw_hash : Fingerprint)
    (candidates : list (Path * Fingerprint)) : option (Path * Z) :=
  match candidates with
  | [] => None
  | (jpg, h) :: rest =>
      let d := distance raw_hash h in
      match spec_first_minimum raw_hash rest with
      | Some (jpg', d') =>
          if bool_decide (d ≤ d')%Z then Some (jpg, d) else Some (jpg', d')
      | None => Some (jpg, d)
      end
  end.

(** [jpg] at distance [d] is the least-distance candidate, and the first
    one at that distance. *)
Definition is_first_minimum (raw_hash : Fingerprint)
    (candidates : list (Path * Fingerprint)) (jpg : Path) (d : Z) : Prop :=
  exists (i : nat) (h : Fingerprint),
    candidates !! i = Some (jpg, h) /\ d = distance raw_hash h /\
    (forall k jpg' h', candidates !! k = Some (jpg', h') ->
       (d <= distance raw_hash h')%Z) /\
    (forall k jpg' h', (k < i)%nat -> candidates !! k = Some (jpg', h') ->
       (d < distance raw_hash h')%Z).

Definition spec_pair_for (threshold : Z)
    (candidates : list (Path * Fingerprint)) (raw_file : Path)
    : option MatchPair :=
  match calculate_image_hash raw_file with
  | None => None
  | Some raw_hash =>
      match spec_first_minimum raw_hash candidates with
      | Some (jpg, d) =>
          if bool_decide (d ≤ threshold)%Z
          then Some (raw_file, jpg, Finite d) else None
      | None => None
      end
  end.

(** The candidates: every listed JPG that has a fingerprint, in listing
    order. *)
Definition spec_candidates (jpg_files : list Path)
    : list (Path * Fingerprint) :=
  omap (fun jpg => pair jpg <$> calculate_image_hash jpg) jpg_files.

(** What the selection loop makes of a state [best] once the first
    minimum [m] of the remaining candidates is known. *)
Definition improve (threshold : Z) (best : option Path * Similarity)
    (m : option (Path * Z)) : option Path * Similarity :=
  match m with
  | Some (jpg, d) =>
      if lt_similarity d (snd best) && bool_decide (d <= threshold)%Z
      then (Some jpg, Finite d) else best
  | None => best
  end.

(** Every entry of the dict holds the hash of its key. *)
Definition hashed (d : list (Path * Fingerprint)) : Prop :=
  Forall (fun kv => calculate_image_hash (fst kv) = Some (snd kv)) d.

End Pairing.

(** *** generate_rename_plan *)

Definition target_path (raw_file jpg_file : Path) : Path :=
  let new_raw_name := stem jpg_file +:+ suffix raw_file in
  joinpath (parent raw_file) new_raw_name.

Definition plan_step (fs : FS) (rename_plan : list (Path * Path))
    (pair : MatchPair) : list (Path * Path) :=
  let '(raw_file, jpg_file, similarity) := pair in
  let new_raw_path := target_path raw_file jpg_file in
  if path_exists fs new_raw_path && bool_decide (new_raw_path ≠ raw_file)
  then rename_plan
  else if bool_decide (raw_file ≠ new_raw_path)
  then rename_plan ++ [(raw_file, new_raw_path)]
  else rename_plan.

(** What one pair contributes to the plan. *)
Definition plan_entry (fs : FS) (pair : MatchPair) : option (Path * Path) :=
  let new_raw_path := target_path pair.1.1 pair.1.2 in
  if path_exists fs new_raw_path && bool_decide (new_raw_path ≠ pair.1.1)
  then None
  else if bool_decide (pair.1.1 ≠ new_raw_path)
  then Some (pair.1.1, new_raw_path)
  else None.

Definition generate_rename_plan (fs : FS) (self : FileRenamerCore)
    : list (Path * Path) :=
  foldl (plan_step fs) [] (pairs self).

(** The plan the engine makes for itself: scan, pair, plan, on one file
    system. *)
Definition engine_plan {Fingerprint : Type}
    (calculate_image_hash : Path -> option Fingerprint)
    (distance : Fingerprint -> Fingerprint -> Z)
    (fs : FS) (self : FileRenamerCore) : list (Path * Path) :=
  generate_rename_plan fs
    (find_pairs calculate_image_hash distance (scan_files fs self).1).1.

(** *** execute_rename and restore_backup

    Both loops are written over the rename primitive, so that what they
    guarantee about failures holds whatever makes a rename fail. *)

Definition SUCCESS : string := "success".
Definition ERROR : string := "error".

Definition is_success (operation : Operation) : bool :=
  bool_decide (status operation = SUCCESS).

(** What [restore_backup] shows when it ends: nothing when the file dialog
    is cancelled, the count and the error lines of a completed restore, or
    the exception that aborted it. *)
Inductive RestoreResult :=
  | Cancelled
  | Restored (restored : nat) (errors : list string)
  | Failed (e : Exception).

Section Mutation.

Variable rename : FS -> Path -> Path -> Outcome FS.

(** The body of the loop over the plan: the try/except around one rename. *)
Definition execute_step (st : FS * list Operation * nat)
    (op : Path * Path) : FS * list Operation * nat :=
  let '(fs, ops, successful_renames) := st in
  let '(old_path, new_path) := op in
  match rename fs old_path new_path with
  | Return fs' =>
      let operation :=
        mkOperation (name old_path) (name new_path) old_path new_path
                    SUCCESS None in
      (fs', ops ++ [operation], S successful_renames)
  | Raise e =>
      let operation :=
        mkOperation (name old_path) (name new_path) old_path new_path
                    ERROR (Some (exn_msg e)) in
      (fs, ops ++ [operation], successful_renames)
  end.

Definition log_path (self : FileRenamerCore) (stamp : string) : Path :=
  let log_filename := "rename_backup_" +:+ stamp +:+ ".json" in
  joinpath (raw_folder_path self) log_filename.

(** [stamp] and [iso] are the two readings of [datetime.now()], formatted
    with [strftime("%Y%m%d_%H%M%S")] and with [isoformat()].  The write of
    the log is outside the try of the loop: when it raises, the exception
    leaves execute_rename after the renames have been done. *)
Definition execute_rename (self : FileRenamerCore) (fs : FS)
    (rename_plan : list (Path * Path)) (stamp iso : string)
    : FileRenamerCore * FS * Outcome (nat * string) :=
  let log_file := log_path self stamp in
  let self := set_log_file (Some log_file) self in
  let '(fs, ops, successful_renames) :=
    foldl execute_step (fs, [], 0) rename_plan in
  let backup_data :=
    mkBackupData iso (str (raw_folder_path self)) (str (jpg_folder_path self))
                 ops in
  match write_json fs log_file backup_data with
  | Return fs => (self, fs, Return (successful_renames, str log_file))
  | Raise e => (self, fs, Raise e)
  end.

(** The state of the restore loop: the file system, the operations on
    which a rename was attempted so far, [restored] and [errors]. *)
Definition restore_step (st : FS * list Operation * nat * list string)
    (operation : Operation) : FS * list Operation * nat * list string :=
  let '(fs, attempted, restored, errors) := st in
  if is_success operation then
    let old_path := old_path operation in
    let new_path := new_path operation in
    if path_exists fs new_path then
      match rename fs new_path old_path with
      | Return fs' => (fs', attempted ++ [operation], S restored, errors)
      | Raise e =>
          (fs, attempted ++ [operation], restored,
           errors ++ [name new_path +:+ ": " +:+ exn_msg e])
      end
    else st
  else st.

Definition restore_operations (fs : FS) (ops : list Operation)
    : FS * list Operation * nat * list string :=
  foldl restore_step (fs, [], 0, []) ops.

(** [backup_file] is what the file dialog returned, [None] when it was
    cancelled.  The result carries the operations a rename was attempted
    on, next to what the dialog at the end reports. *)
Definition restore_backup (fs : FS) (backup_file : option Path)
    : FS * list Operation * RestoreResult :=
  match backup_file with
  | None => (fs, [], Cancelled)
  | Some f =>
      match read_json fs f with
      | Raise e => (fs, [], Failed e)
      | Return backup_data =>
          let '(fs, attempted, restored, errors) :=
            restore_operations fs (operations backup_data) in
          (fs, attempted, Restored restored errors)
      end
  end.

(** *** The two loops, component by component

    The file system a plan leaves behind, the records it writes and the
    file system a restore leaves behind, each as a function of its own;
    the loops above are shown to compute exactly these. *)

Definition rename_or_keep (fs : FS) (op : Path * Path) : FS :=
  match rename fs op.1 op.2 with
  | Return fs' => fs'
  | Raise _ => fs
  end.

Definition record_of (fs : FS) (op : Path * Path) : Operation :=
  match rename fs op.1 op.2 with
  | Return _ =>
      mkOperation (name op.1) (name op.2) op.1 op.2 SUCCESS None
  | Raise e =>
      mkOperation (name op.1) (name op.2) op.1 op.2 ERROR (Some (exn_msg e))
  end.

Fixpoint records (fs : FS) (rename_plan : list (Path * Path))
    : list Operation :=
  match rename_plan with
  | [] => []
  | op :: rest => record_of fs op :: records (rename_or_keep fs op) rest
  end.

Definition restore_fs_step (fs : FS) (operation : Operation) : FS :=
  if is_success operation && path_exists fs (new_path operation)
  then rename_or_keep fs (new_path operation, old_path operation)
  else fs.

Definition restore_fs (fs : FS) (ops : list Operation) : FS :=
  foldl restore_fs_step fs ops.

End Mutation.

(** *** Round trip and idempotence, as the specification states them *)

(** Executing a plan and restoring from the log it wrote puts every file
    with a success record back at its source path, and no rename is
    attempted for a record that is not a success. *)
Definition round_trip (self : FileRenamerCore) (fs : FS)
    (rename_plan : list (Path * Path)) (stamp iso : string) : Prop :=
  let log := log_path self stamp in
  let fs1 := (execute_rename posix_rename self fs rename_plan stamp iso).1.2 in
  let restored := restore_backup posix_rename fs1 (Some log) in
  forall doc,
    read_json fs1 log = Return doc ->
    (forall op, op ∈ operations doc -> status op = SUCCESS ->
       is_Some (fs !! old_path op) /\
       restored.1.1 !! old_path op = fs !! old_path op) /\
    (forall op, op ∈ restored.1.2 -> status op = SUCCESS).


(** A second restore from the same log leaves the file system as the first
    one left it. *)
Definition second_restore_unchanged (fs : FS) (backup_file : Path) : Prop :=
  let first := restore_backup posix_rename fs (Some backup_file) in
  let second := restore_backup posix_rename first.1.1 (Some backup_file) in
  second.1.1 = first.1.1.

(** A record is settled in a file system when a restore has nothing left
    to do for it: its target is gone, or its target is a regular file that
    cannot go back because a directory sits at the source path. *)
Definition settled (op : Operation) (fs : FS) : Prop :=
  fs !! new_path op = None \/
  exists c, fs !! new_path op = Some (RegularFile c) /\
            fs !! old_path op = Some Directory.

(** ** Concrete data for the examples *)

Module Shoot.

(** Fingerprints as bit lists with the Hamming distance, as imagehash
    compares them. *)
Fixpoint hamming (a b : list bool) : Z :=
  match a, b with
  | x :: a', y :: b' => ((if Bool.eqb x y then 0 else 1) + hamming a' b')%Z
  | _, _ => 0%Z
  end.

Definition oracle (table : list (Path * list bool)) (p : Path)
    : option (list bool) :=
  (list_to_map table : gmap Path (list bool)) !! p.

Definition raw_dir : Path := ["photos"; "raw"].
Definition jpg_dir : Path := ["photos"; "jpg"].

Definition img1 : Path := raw_dir ++ ["IMG_0001.CR2"].
Definition img2 : Path := raw_dir ++ ["IMG_0002.CR2"].
Definition img3 : Path := raw_dir ++ ["IMG_0003.NEF"].
Definition wedding : Path := jpg_dir ++ ["Wedding_042.jpg"].
Definition party : Path := jpg_dir ++ ["Party_007.jpg"].
Definition broken : Path := jpg_dir ++ ["broken.jpg"].

(** A burst: two CR2 files and one NEF file close to the same JPG, one
    JPG far from everything and one JPG that does not decode. *)
Definition hashes : Path -> option (list bool) :=
  oracle [ (img1, [true; true; false; false; false; false; false; false]);
           (img2, [true; true; true; false; false; false; false; false]);
           (img3, [true; false; false; false; false; false; false; false]);
           (wedding, [true; true; false; false; false; false; false; true]);
           (party, [false; false; true; true; true; true; true; false]) ].

Definition disk : FS :=
  list_to_map
    [ (["photos"], Directory); (raw_dir, Directory); (jpg_dir, Directory);
      (img1, RegularFile (Image 1)); (img2, RegularFile (Image 2));
      (img3, RegularFile (Image 3));
      (raw_dir ++ ["notes.txt"], RegularFile (Image 4));
      (wedding, RegularFile (Image 5)); (party, RegularFile (Image 6));
      (broken, RegularFile (Image 7)) ].

Definition core0 : FileRenamerCore := new_core raw_dir jpg_dir 5.
Definition scanned : FileRenamerCore := (scan_files disk core0).1.
Definition paired : FileRenamerCore := (find_pairs hashes hamming scanned).1.
Definition plan : list (Path * Path) := generate_rename_plan disk paired.

Definition stamp : string := "20240101_120000".
Definition iso : string := "2024-01-01T12:00:00".
Definition backup : Path := log_path core0 stamp.

(** The plan without its last operation: no target is shared. *)
Definition safe_plan : list (Path * Path) := take 2 plan.


(** A second oracle and a second disk that differ from the first ones
    away from the listed files and from the planned targets. *)
Definition hashes' : Path -> option (list bool) :=
  fun p => if decide (p = ["elsewhere"; "x.jpg"]) then Some [true]
           else hashes p.

Definition disk' : FS :=
  <[ ["elsewhere"; "x.jpg"] := RegularFile (Image 9) ]> disk.

(** A disk where the target of the first CR2 file is already taken. *)
Definition crowded : FS :=
  <[ raw_dir ++ ["Wedding_042.CR2"] := RegularFile (Image 8) ]> disk.

(** Renames refused on locked sources, as by a permission error. *)
Definition guarded_rename (locked : list Path) (fs : FS) (src dst : Path)
    : Outcome FS :=
  if bool_decide (src ∈ locked)
  then Raise (mkExn PermissionError ("Permission denied: " +:+ str src))
  else posix_rename fs src dst.

(** The RAW folder path names a regular file. *)
Definition misplaced : FileRenamerCore := new_core img1 jpg_dir 5.

(** An engine that was scanned, and whose RAW folder then went away. *)
Definition stale : FileRenamerCore :=
  mkCore ["photos"; "gone"] jpg_dir 5 (raw_files scanned) (jpg_files scanned)
         [] None.

End Shoot.

(** The disk of the shoot after its RAW folder was taken away, as when a
    card is pulled between planning and renaming. *)
Module Unplugged.

Definition disk : FS :=
  list_to_map
    [ (["photos"], Directory); (Shoot.jpg_dir, Directory);
      (Shoot.wedding, RegularFile (Image 5));
      (Shoot.party, RegularFile (Image 6));
      (Shoot.broken, RegularFile (Image 7)) ].

End Unplugged.

(** Two JPGs at the same distance from one RAW file. *)
Module Ties.

Definition raw : Path := ["in"; "r.dng"].
Definition first : Path := ["out"; "first.jpg"].
Definition second : Path := ["out"; "second.jpg"].

Definition hashes : Path -> option (list bool) :=
  Shoot.oracle [ (raw, [true; true; false]);
                 (first, [true; false; false]);
                 (second, [true; true; true]) ].

Definition core (jpgs : list Path) : FileRenamerCore :=
  mkCore ["in"] ["out"] 5 [raw] jpgs [] None.

End Ties.

(** A plan that moves one file twice: a to b, then b to c. *)
Module Chain.

Definition dir : Path := ["album"].
Definition a : Path := dir ++ ["a.cr2"].
Definition b : Path := dir ++ ["b.cr2"].
Definition c : Path := dir ++ ["c.cr2"].

Definition disk : FS :=
  list_to_map [ (dir, Directory); (a, RegularFile (Image 1)) ].

Definition core : FileRenamerCore := new_core dir dir 5.
Definition plan : list (Path * Path) := [ (a, b); (b, c) ].
Definition stamp : string := "20240101_120000".
Definition iso : string := "2024-01-01T12:00:00".
Definition backup : Path := log_path core stamp.

(** The file system after the plan was executed: the file is at c. *)
Definition renamed : FS :=
  (execute_rename posix_rename core disk plan stamp iso).1.2.

End Chain.

(** ** Plans on free targets

    What the safety check of generate_rename_plan aims at, said of a plan
    and the disk it is run on: the sources are regular files, each named
    once; the targets are free, each named once; and every source and
    every target lies in a directory that is there. *)
Definition clean_plan (fs : FS) (rename_plan : list (Path * Path)) : Prop :=
  NoDup rename_plan.*1 /\ NoDup rename_plan.*2 /\
  (forall s, s ∈ rename_plan.*1 -> is_file fs s = true) /\
  (forall t, t ∈ rename_plan.*2 -> fs !! t = None) /\
  (forall p, p ∈ rename_plan.*1 ++ rename_plan.*2 ->
     fs !! parent p = Some Directory).

(** ** The windows of renamerV4.py

    Widgets are modelled by what the code sets on them: the text of a
    label, the state of a button, the children of a frame in packing
    order.  Layout, fonts and geometry are left out. *)

(** [tk.NORMAL] and [tk.DISABLED] *)
Inductive ButtonState :=
  | NORMAL
  | DISABLED.

(** An entry of [pairs_data]: (raw_path, jpg_path, similarity, new_name). *)
Definition PairData : Type := Path * Path * Similarity * string.

(** A similarity inside an f-string: an integer, or the float [inf]. *)
Definition str_similarity (similarity : Similarity) : string :=
  match similarity with
  | Infinity => "inf"
  | Finite d => pretty d
  end.

(** [seq[i]]: a negative index counts from the end; [None] stands for
    IndexError. *)
Definition getitem {A : Type} (seq : list A) (i : Z) : option A :=
  if (0 <=? i)%Z then seq !! Z.to_nat i
  else if (0 <=? i + Z.of_nat (length seq))%Z
       then seq !! Z.to_nat (i + Z.of_nat (length seq))
       else None.

Definition newline : string := String (ascii_of_nat 10) "".

(** *** ImageComparisonWindow *)

Module ImageComparisonWindow.

Section Tk.

Context {Photo : Type}.

(** The parts played by the disk and by PIL: [get_file_size] formats the
    size of a file, [load_photo] is the path from [Image.open] to
    [ImageTk.PhotoImage], [original_size] is [Image.open(path).size]. *)
Variable get_file_size : Path -> string.
Variable load_photo : Path -> Outcome Photo.
Variable original_size : Path -> Outcome (N * N).

Inductive Widget :=
  | Label (text : string)
  | ImageLabel (image : Photo).

Record Window := mkWindow {
  pairs_data : list PairData;
  current_index : Z;
  position_label : string;
  prev_btn : ButtonState;
  next_btn : ButtonState;
  info_frame : list Widget;
  raw_frame_text : string;
  raw_frame : list Widget;
  jpg_frame_text : string;
  jpg_frame : list Widget;
  destroyed : bool
}.

(** What create_widgets leaves before the first update_display: buttons in
    their default state, an empty position label, empty frames. *)
Definition create_widgets (pairs_data : list PairData) (initial_index : Z)
    : Window :=
  mkWindow pairs_data initial_index "" NORMAL NORMAL []
           "RAW soubor" [] "JPG soubor" [] false.

(** One of the two try blocks of update_display: the picture and its
    resolution, or the picture and an error line when the second open
    fails, or an error line alone. *)
Definition show_image (image_path : Path) : list Widget :=
  match load_photo image_path with
  | Return photo =>
      ImageLabel photo ::
      match original_size image_path with
      | Return (w, h) =>
          [Label ("Rozlišení: " +:+ pretty w +:+ " × " +:+ pretty h)]
      | Raise e => [Label ("Chyba načítání: " +:+ exn_msg e)]
      end
  | Raise e => [Label ("Chyba načítání: " +:+ exn_msg e)]
  end.

Definition info_text (entry : PairData) : string :=
  let '(raw_path, jpg_path, similarity, new_name) := entry in
  "RAW soubor: " +:+ name raw_path +:+ newline +:+
  "JPG soubor: " +:+ name jpg_path +:+ newline +:+
  "Podobnost: " +:+ str_similarity similarity +:+ newline +:+
  "Nový název: " +:+ new_name +:+ newline +:+
  "RAW velikost: " +:+ get_file_size raw_path +:+ newline +:+
  "JPG velikost: " +:+ get_file_size jpg_path.

(** [None] stands for the IndexError of [pairs_data[current_index]]. *)
Definition update_display (self : Window) : option Window :=
  let n := Z.of_nat (length (pairs_data self)) in
  if bool_decide (pairs_data self = []) || (n <=? current_index self)%Z
  then Some self
  else
    match getitem (pairs_data self) (current_index self) with
    | None => None
    | Some entry =>
        let '(raw_path, jpg_path, similarity, new_name) := entry in
        Some (mkWindow
                (pairs_data self) (current_index self)
                (pretty (current_index self + 1)%Z +:+ " / " +:+
                 pretty (length (pairs_data self)))
                (if (0 <? current_index self)%Z then NORMAL else DISABLED)
                (if (current_index self <? n - 1)%Z then NORMAL else DISABLED)
                [Label (info_text entry)]
                ("RAW: " +:+ name raw_path) (show_image raw_path)
                ("JPG: " +:+ name jpg_path) (show_image jpg_path)
                (destroyed self))
    end.

(** [ImageComparisonWindow(parent, pairs_data, initial_index)] *)
Definition init (pairs_data : list PairData) (initial_index : Z)
    : option Window :=
  update_display (create_widgets pairs_data initial_index).

Definition set_current_index (i : Z) (self : Window) : Window :=
  mkWindow (pairs_data self) i (position_label self) (prev_btn self)
           (next_btn self) (info_frame self) (raw_frame_text self)
           (raw_frame self) (jpg_frame_text self) (jpg_frame self)
           (destroyed self).

Definition prev_image (self : Window) : option Window :=
  if (0 <? current_index self)%Z
  then update_display (set_current_index (current_index self - 1) self)
  else Some self.

Definition next_image (self : Window) : option Window :=
  if (current_index self <? Z.of_nat (length (pairs_data self)) - 1)%Z
  then update_display (set_current_index (current_index self + 1) self)
  else Some self.

Definition close_window (self : Window) : Window :=
  mkWindow (pairs_data self) (current_index self) (position_label self)
           (prev_btn self) (next_btn self) (info_frame self)
           (raw_frame_text self) (raw_frame self) (jpg_frame_text self)
           (jpg_frame self) true.

(** The two ways to move: the buttons and the arrow keys call the same
    handlers. *)
Inductive Move :=
  | Previous
  | Next.

Definition move (self : Window) (m : Move) : option Window :=
  match m with
  | Previous => prev_image self
  | Next => next_image self
  end.

(** A run of moves, stopped by the first exception. *)
Definition navigate (self : Window) (moves : list Move) : option Window :=
  foldl (fun w m => w ≫= fun w => move w m) (Some self) moves.

(** Where a run of moves takes an index inside a list of [n] entries. *)
Definition walk (n : Z) (i : Z) (moves : list Move) : Z :=
  foldl (fun i m =>
           match m with
           | Previous => if (0 <? i)%Z then (i - 1)%Z else i
           | Next => if (i <? n - 1)%Z then (i + 1)%Z else i
           end) i moves.

End Tk.

End ImageComparisonWindow.

(** *** FileRenamerGUI

    The main window: the state its handlers share and the handlers that
    drive the engine.  The dialogs of [messagebox] are returned as a list,
    with the answer to [askyesno] as an argument.  A handler that runs the
    engine takes the disk as an argument, and returns it when it renames.
    find_pairs starts a worker thread and returns: the thread runs
    statement by statement, between the events of the main loop, and the
    calls it hands to [root.after] wait in a queue until the main loop
    runs them.  show_preview_thumbnails is kept as the pair it is called
    on. *)

Module FileRenamerGUI.

Local Abbreviation core_scan_files := (scan_files).
Local Abbreviation core_find_pairs := (find_pairs).
Local Abbreviation core_execute_rename := (execute_rename).

Section Tk.

Context {Fingerprint Photo : Type}.

(** The parts played by imagehash, by the operating system and by PIL:
    the two oracles of the engine, the rename primitive,
    [load_column_thumbnail] for the path from [Image.open] to
    [ImageTk.PhotoImage] in create_column_thumbnail ([None] when it
    raises), and [Path_of] for the constructor [Path(...)]. *)
Variable calculate_image_hash : Path -> option Fingerprint.
Variable distance : Fingerprint -> Fingerprint -> Z.
Variable rename : FS -> Path -> Path -> Outcome FS.
Variable load_column_thumbnail : Path -> option Photo.
Variable Path_of : string -> Path.

Inductive Dialog :=
  | showerror (title message : string)
  | showwarning (title message : string)
  | showinfo (title message : string)
  | askyesno (title message : string).

Record GUI := mkGUI {
  raw_folder_path : string;
  jpg_folder_path : string;
  similarity_threshold : Z;
  renamer_core : option FileRenamerCore;
  rename_plan : list (Path * Path);
  pairs : list MatchPair;
  column_thumbnails : gmap string Photo;
  pairs_data : list PairData;
  tree : list (list string);
  preview_frame : option (Path * Path);
  find_pairs_button : ButtonState;
  rename_button : ButtonState;
  status_label : string;
  progress : Z
}.

(** [FileRenamerGUI(root)] with the folders and the threshold that
    load_config found, or the defaults. *)
Definition init (raw_folder jpg_folder : string) (threshold : Z) : GUI :=
  mkGUI raw_folder jpg_folder threshold None [] [] ∅ [] [] None
        DISABLED DISABLED "Připraven" 0.

Definition set_raw_folder_path (folder : string) (self : GUI) : GUI :=
  mkGUI folder (jpg_folder_path self) (similarity_threshold self)
        (renamer_core self) (rename_plan self) (pairs self)
        (column_thumbnails self) (pairs_data self) (tree self)
        (preview_frame self) (find_pairs_button self) (rename_button self)
        (status_label self) (progress self).

Definition set_jpg_folder_path (folder : string) (self : GUI) : GUI :=
  mkGUI (raw_folder_path self) folder (similarity_threshold self)
        (renamer_core self) (rename_plan self) (pairs self)
        (column_thumbnails self) (pairs_data self) (tree self)
        (preview_frame self) (find_pairs_button self) (rename_button self)
        (status_label self) (progress self).

Definition set_similarity_threshold (threshold : Z) (self : GUI) : GUI :=
  mkGUI (raw_folder_path self) (jpg_folder_path self) threshold
        (renamer_core self) (rename_plan self) (pairs self)
        (column_thumbnails self) (pairs_data self) (tree self)
        (preview_frame self) (find_pairs_button self) (rename_button self)
        (status_label self) (progress self).

Definition set_renamer_core (core : option FileRenamerCore) (self : GUI)
    : GUI :=
  mkGUI (raw_folder_path self) (jpg_folder_path self)
        (similarity_threshold self) core (rename_plan self) (pairs self)
        (column_thumbnails self) (pairs_data self) (tree self)
        (preview_frame self) (find_pairs_button self) (rename_button self)
        (status_label self) (progress self).

Definition set_pairs (found : list MatchPair) (self : GUI) : GUI :=
  mkGUI (raw_folder_path self) (jpg_folder_path self)
        (similarity_threshold self) (renamer_core self) (rename_plan self)
        found (column_thumbnails self) (pairs_data self) (tree self)
        (preview_frame self) (find_pairs_button self) (rename_button self)
        (status_label self) (progress self).

Definition set_rename_plan (plan : list (Path * Path)) (self : GUI) : GUI :=
  mkGUI (raw_folder_path self) (jpg_folder_path self)
        (similarity_threshold self) (renamer_core self) plan (pairs self)
        (column_thumbnails self) (pairs_data self) (tree self)
        (preview_frame self) (find_pairs_button self) (rename_button self)
        (status_label self) (progress self).

Definition set_preview_frame (shown : option (Path * Path)) (self : GUI)
    : GUI :=
  mkGUI (raw_folder_path self) (jpg_folder_path self)
        (similarity_threshold self) (renamer_core self) (rename_plan self)
        (pairs self) (column_thumbnails self) (pairs_data self) (tree self)
        shown (find_pairs_button self) (rename_button self)
        (status_label self) (progress self).

Definition set_find_pairs_button (state : ButtonState) (self : GUI) : GUI :=
  mkGUI (raw_folder_path self) (jpg_folder_path self)
        (similarity_threshold self) (renamer_core self) (rename_plan self)
        (pairs self) (column_thumbnails self) (pairs_data self) (tree self)
        (preview_frame self) state (rename_button self)
        (status_label self) (progress self).

Definition set_status_label (text : string) (self : GUI) : GUI :=
  mkGUI (raw_folder_path self) (jpg_folder_path self)
        (similarity_threshold self) (renamer_core self) (rename_plan self)
        (pairs self) (column_thumbnails self) (pairs_data self) (tree self)
        (preview_frame self) (find_pairs_button self) (rename_button self)
        text (progress self).

Definition set_progress (value : Z) (self : GUI) : GUI :=
  mkGUI (raw_folder_path self) (jpg_folder_path self)
        (similarity_threshold self) (renamer_core self) (rename_plan self)
        (pairs self) (column_thumbnails self) (pairs_data self) (tree self)
        (preview_frame self) (find_pairs_button self) (rename_button self)
        (status_label self) value.

(** [filedialog.askdirectory] returned [folder], empty when cancelled. *)
Definition browse_raw_folder (folder : string) (self : GUI) : GUI :=
  if bool_decide (folder ≠ "") then set_raw_folder_path folder self else self.

Definition browse_jpg_folder (folder : string) (self : GUI) : GUI :=
  if bool_decide (folder ≠ "") then set_jpg_folder_path folder self else self.

Definition create_column_thumbnail (cache : gmap string Photo)
    (image_path : Path) : gmap string Photo * option Photo :=
  let cache_key := "col_" +:+ str image_path in
  match cache !! cache_key with
  | Some photo => (cache, Some photo)
  | None =>
      match load_column_thumbnail image_path with
      | Some photo => (<[cache_key := photo]> cache, Some photo)
      | None => (cache, None)
      end
  end.

Definition scan_files (fs : FS) (self : GUI) : GUI * list Dialog :=
  if bool_decide (raw_folder_path self = "") then
    (self, [showerror "Chyba" "Vyberte prosím složku s RAW soubory."])
  else if bool_decide (jpg_folder_path self = "") then
    (self, [showerror "Chyba" "Vyberte prosím složku s JPG soubory."])
  else
    let core :=
      new_core (Path_of (raw_folder_path self)) (Path_of (jpg_folder_path self))
               (similarity_threshold self) in
    match core_scan_files fs core with
    | (core, Return (raw_count, jpg_count)) =>
        let self := set_renamer_core (Some core) self in
        let self :=
          set_status_label
            ("Nalezeno " +:+ pretty raw_count +:+ " RAW souborů a " +:+
             pretty jpg_count +:+ " JPG souborů") self in
        if Nat.ltb 0 raw_count && Nat.ltb 0 jpg_count
        then (set_find_pairs_button NORMAL self, [])
        else (self,
              [showwarning "Upozornění"
                 "Ve složkách nebyly nalezeny RAW nebo JPG soubory."])
    | (core, Raise e) =>
        (set_renamer_core (Some core) self,
         [showerror "Chyba" ("Chyba při skenování souborů: " +:+ exn_msg e)])
    end.

(** The inner loop of update_pairs_display: the JPG and the similarity of
    the first pair whose RAW file is [raw_file]. *)
Definition pair_of (pairs : list MatchPair) (raw_file : Path)
    : option (Path * Similarity) :=
  (fun p : MatchPair => (p.1.2, p.2))
    <$> List.find (fun p : MatchPair => bool_decide (p.1.1 = raw_file)) pairs.

(** The body of the loop of update_pairs_display, on the cache of column
    thumbnails, [pairs_data] and the rows of the table. *)
Definition display_step (pairs : list MatchPair)
    (st : gmap string Photo * list PairData * list (list string))
    (op : Path * Path)
    : gmap string Photo * list PairData * list (list string) :=
  let '(cache, data, rows) := st in
  let '(raw_file, new_path) := op in
  match pair_of pairs raw_file with
  | Some (jpg_file, similarity) =>
      let data := data ++ [(raw_file, jpg_file, similarity, name new_path)] in
      let '(cache, raw_thumbnail) := create_column_thumbnail cache raw_file in
      let '(cache, jpg_thumbnail) := create_column_thumbnail cache jpg_file in
      let raw_preview :=
        match raw_thumbnail with Some _ => "🖼️" | None => "❌" end in
      let jpg_preview :=
        match jpg_thumbnail with Some _ => "🖼️" | None => "❌" end in
      (cache, data,
       rows ++ [[raw_preview; name raw_file; jpg_preview; name jpg_file;
                 str_similarity similarity; name new_path]])
  | None => st
  end.

Definition update_pairs_display (self : GUI) : GUI :=
  let '(cache, data, rows) :=
    foldl (display_step (pairs self)) (∅, [], []) (rename_plan self) in
  mkGUI (raw_folder_path self) (jpg_folder_path self)
        (similarity_threshold self) (renamer_core self) (rename_plan self)
        (pairs self) cache data rows None (find_pairs_button self)
        (if bool_decide (rename_plan self ≠ []) then NORMAL
         else rename_button self)
        ("Nalezeno " +:+ pretty (length (rename_plan self)) +:+
         " párů k přejmenování (klik pro náhled, dvojklik pro detail s navigací)")
        (progress self).

(** The worker thread find_pairs_thread, by the statement it runs next:
    the call of the engine's find_pairs, the assignment of its result to
    [self.pairs], the assignment of the plan to [self.rename_plan], the
    call of [root.after] on update_pairs_display, and the finally clause.
    [Failed] is the thread after its except clause. *)
Inductive Worker :=
  | Spawned
  | Paired (found : list MatchPair)
  | Assigned
  | Planned
  | Notified
  | Failed
  | Finished.

(** What [root.after(0, ...)] was called on: update_pairs_display, the
    lambda of the except clause and the lambda of the finally clause. *)
Inductive Callback :=
  | update_pairs_display_callback
  | showerror_callback
  | reset_progress_callback.

(** The messages progress_callback is called with in one run of the
    engine's find_pairs: one per JPG file, then one per RAW file, the last
    one with [current = total]. *)
Definition progress_messages (core : FileRenamerCore) : list string :=
  ((fun jpg_file : Path => "Zpracovávám JPG: " +:+ name jpg_file)
     <$> jpg_files core) ++
  ((fun raw_file : Path => "Zpracovávám RAW: " +:+ name raw_file)
     <$> raw_files core).

(** The bar and the status line as the last call of progress_callback
    leaves them. *)
Definition progress_callback (core : FileRenamerCore) (self : GUI) : GUI :=
  match last (progress_messages core) with
  | Some message => set_status_label message (set_progress 100 self)
  | None => self
  end.

(** One statement of find_pairs_thread: the window after it, the calls it
    leaves with [root.after], and the thread after it.  [self.renamer_core]
    is read when the engine is called and again when the plan is made;
    where it is None the AttributeError takes the thread to its except
    clause.  The call of the engine's find_pairs is one step: it changes
    the engine it is called on and, through progress_callback, the bar
    and the status line; the calls of Tk that progress_callback makes
    from the thread are taken to return. *)
Definition find_pairs_thread (fs : FS) (self : GUI) (worker : Worker)
    : GUI * list Callback * Worker :=
  match worker with
  | Spawned =>
      match renamer_core self with
      | None => (self, [showerror_callback], Failed)
      | Some core =>
          let '(core', found) :=
            core_find_pairs calculate_image_hash distance core in
          (progress_callback core (set_renamer_core (Some core') self), [],
           Paired found)
      end
  | Paired found => (set_pairs found self, [], Assigned)
  | Assigned =>
      match renamer_core self with
      | None => (self, [showerror_callback], Failed)
      | Some core =>
          (set_rename_plan (generate_rename_plan fs core) self, [], Planned)
      end
  | Planned => (self, [update_pairs_display_callback], Notified)
  | Notified => (self, [reset_progress_callback], Finished)
  | Failed => (self, [reset_progress_callback], Finished)
  | Finished => (self, [], Finished)
  end.

(** A call the main loop runs for [root.after].  The dialog of the except
    clause, where it comes, leaves the window as it is. *)
Definition run_callback (self : GUI) (callback : Callback) : GUI :=
  match callback with
  | update_pairs_display_callback => update_pairs_display self
  | showerror_callback => self
  | reset_progress_callback => set_progress 0 self
  end.

Definition reset_gui (self : GUI) : GUI :=
  mkGUI (raw_folder_path self) (jpg_folder_path self)
        (similarity_threshold self) None [] [] ∅ [] [] None
        DISABLED DISABLED "Připraven" 0.

(** [answer] is what [askyesno] returned; [stamp] and [iso] are the two
    readings of the clock in execute_rename. *)
Definition rename_files (fs : FS) (self : GUI) (answer : bool)
    (stamp iso : string) : GUI * FS * list Dialog :=
  if bool_decide (rename_plan self = []) then (self, fs, [])
  else
    let question :=
      askyesno "Potvrzení"
        ("Opravdu chcete přejmenovat " +:+ pretty (length (rename_plan self))
         +:+ " souborů?" +:+ newline +:+ newline +:+
         "Bude vytvořen záložní log pro možnost obnovy.") in
    if negb answer then (self, fs, [question])
    else
      match renamer_core self with
      | None =>
          (self, fs,
           [question;
            showerror "Chyba"
              ("Chyba při přejmenování: " +:+
               "'NoneType' object has no attribute 'execute_rename'")])
      | Some core =>
          match core_execute_rename rename core fs (rename_plan self) stamp iso
          with
          | (core, fs, Return (successful, log_file)) =>
              (reset_gui self, fs,
               [question;
                showinfo "Dokončeno"
                  ("Přejmenování dokončeno!" +:+ newline +:+ newline +:+
                   "Úspěšně přejmenováno: " +:+ pretty successful +:+ "/" +:+
                   pretty (length (rename_plan self)) +:+ " souborů" +:+
                   newline +:+ "Záložní log: " +:+ log_file)])
          | (core, fs, Raise e) =>
              (set_renamer_core (Some core) self, fs,
               [question;
                showerror "Chyba"
                  ("Chyba při přejmenování: " +:+ exn_msg e)])
          end
      end.

(** [selection] is the index of the row [tree.selection()] reports first,
    [None] when nothing is selected. *)
Definition on_tree_select (self : GUI) (selection : option nat) : GUI :=
  match selection with
  | None => set_preview_frame None self
  | Some item =>
      match tree self !! item with
      | None => self
      | Some values =>
          if Nat.leb 4 (length values) then
            let raw_name := nth 1 values "" in
            let jpg_name := nth 3 values "" in
            match List.find
                    (fun p : MatchPair =>
                       bool_decide (name p.1.1 = raw_name) &&
                       bool_decide (name p.1.2 = jpg_name)) (pairs self) with
            | Some p => set_preview_frame (Some (p.1.1, p.1.2)) self
            | None => self
            end
          else self
      end
  end.

(** The arguments of the comparison window that a double click opens. *)
Definition show_image_details (self : GUI) (selection : option nat)
    : option (list PairData * Z) :=
  match selection with
  | None => None
  | Some item => Some (pairs_data self, Z.of_nat item)
  end.

(** The window, the disk, the worker threads that were started, in the
    order of their start, and the queue of [root.after]. *)
Record Session := mkSession {
  window : GUI;
  disk : FS;
  threads : list Worker;
  after : list Callback
}.

Definition start (raw_folder jpg_folder : string) (threshold : Z) (fs : FS)
    : Session :=
  mkSession (init raw_folder jpg_folder threshold) fs [] [].

Definition set_window (self : GUI) (st : Session) : Session :=
  mkSession self (disk st) (threads st) (after st).

(** find_pairs returns at once where there is no engine, and starts the
    daemon thread otherwise.  It disables no button. *)
Definition find_pairs (st : Session) : Session :=
  match renamer_core (window st) with
  | None => st
  | Some _ => mkSession (window st) (disk st) (threads st ++ [Spawned]) (after st)
  end.

(** What the user, the threads, the main loop and the world can do to
    the window and the disk.  A button that is disabled does not call its
    handler; [ThreadRuns] lets a worker thread run its next statement and
    [MainLoopRuns] lets the main loop run the first call of the queue. *)
Inductive Event :=
  | BrowseRaw (folder : string)
  | BrowseJpg (folder : string)
  | SlideThreshold (threshold : Z)
  | ClickScan
  | ClickFindPairs
  | ClickRename (answer : bool) (stamp iso : string)
  | ClickRestore (backup_file : option Path)
  | Select (selection : option nat)
  | DiskChanges (fs : FS)
  | ThreadRuns (thread : nat)
  | MainLoopRuns.

Definition handle (st : Session) (event : Event) : Session :=
  let self := window st in
  let fs := disk st in
  match event with
  | BrowseRaw folder => set_window (browse_raw_folder folder self) st
  | BrowseJpg folder => set_window (browse_jpg_folder folder self) st
  | SlideThreshold threshold =>
      set_window (set_similarity_threshold threshold self) st
  | ClickScan => set_window (scan_files fs self).1 st
  | ClickFindPairs =>
      match find_pairs_button self with
      | NORMAL => find_pairs st
      | DISABLED => st
      end
  | ClickRename answer stamp iso =>
      match rename_button self with
      | NORMAL =>
          let '(self, fs, _) := rename_files fs self answer stamp iso in
          mkSession self fs (threads st) (after st)
      | DISABLED => st
      end
  | ClickRestore backup_file =>
      mkSession self (restore_backup rename fs backup_file).1.1
                (threads st) (after st)
  | Select selection => set_window (on_tree_select self selection) st
  | DiskChanges fs' => mkSession self fs' (threads st) (after st)
  | ThreadRuns thread =>
      match threads st !! thread with
      | None => st
      | Some worker =>
          let '(self, callbacks, worker) := find_pairs_thread fs self worker in
          mkSession self fs (<[thread := worker]> (threads st))
                    (after st ++ callbacks)
      end
  | MainLoopRuns =>
      match after st with
      | [] => st
      | callback :: rest =>
          mkSession (run_callback self callback) fs (threads st) rest
      end
  end.

(** No thread is at work and no call is waiting. *)
Definition is_finished (worker : Worker) : bool :=
  match worker with Finished => true | _ => false end.

Definition quiet (st : Session) : bool :=
  forallb is_finished (threads st) &&
  match after st with [] => true | _ => false end.

(** The events that come from the user. *)
Definition user_event (event : Event) : bool :=
  match event with
  | DiskChanges _ | ThreadRuns _ | MainLoopRuns => false
  | _ => true
  end.

(** A run in which the user waits: every event of the user finds the
    window with no thread at work and no call waiting. *)
Fixpoint orderly (st : Session) (events : list Event) : bool :=
  match events with
  | [] => true
  | event :: rest =>
      (negb (user_event event) || quiet st) && orderly (handle st event) rest
  end.

(** The table and the plan say the same: one row per planned operation,
    in plan order, with the names of its source and of its target. *)
Definition table_shows_plan (self : GUI) : Prop :=
  (fun values => (nth 1 values "", nth 5 values "")) <$> tree self
  = (fun op : Path * Path => (name op.1, name op.2)) <$> rename_plan self.

(** Row by row, the table, [pairs_data] and the plan are about the same
    RAW file, and the new name is the stem of the row's JPG followed by
    the suffix of its RAW file. *)
Definition rows_are_coherent (self : GUI) : Prop :=
  length (tree self) = length (rename_plan self) /\
  length (pairs_data self) = length (rename_plan self) /\
  forall i values entry op,
    tree self !! i = Some values ->
    pairs_data self !! i = Some entry ->
    rename_plan self !! i = Some op ->
    let '(raw_path, jpg_path, similarity, new_name) := entry in
    raw_path = op.1 /\
    (raw_path, jpg_path, similarity) ∈ pairs self /\
    new_name = name op.2 /\
    new_name = stem jpg_path +:+ suffix raw_path /\
    exists raw_preview jpg_preview,
      values = [raw_preview; name raw_path; jpg_preview; name jpg_path;
                str_similarity similarity; new_name].

End Tk.

End FileRenamerGUI.

(** *** The table of renamerV2_gui.py

    The older window has the same handlers for scanning, pairing, renaming
    and restoring; its table has four columns and no previews, and it
    writes N/A where the plan names a RAW file that has no pair. *)

Module FileRenamerGUI_V2.

(** The body of the loop of update_pairs_display. *)
Definition display_step (pairs : list MatchPair) (tree : list (list string))
    (op : Path * Path) : list (list string) :=
  let '(raw_file, new_path) := op in
  match FileRenamerGUI.pair_of pairs raw_file with
  | Some (jpg_file, similarity) =>
      tree ++ [[name raw_file; name jpg_file; str_similarity similarity;
                name new_path]]
  | None => tree ++ [[name raw_file; "N/A"; "N/A"; name new_path]]
  end.

(** The table, the status line and the state of the Rename button. *)
Definition update_pairs_display (pairs : list MatchPair)
    (rename_plan : list (Path * Path)) (rename_button : ButtonState)
    : list (list string) * string * ButtonState :=
  (foldl (display_step pairs) [] rename_plan,
   "Nalezeno " +:+ pretty (length rename_plan) +:+ " párů k přejmenování",
   if bool_decide (rename_plan ≠ []) then NORMAL else rename_button).

End FileRenamerGUI_V2.

(** What a scan leaves in an engine, as far as the table needs it: no RAW
    file twice, every RAW file directly in the RAW folder under a name
    with a suffix, every JPG under a name. *)
Definition scanned_core (core : FileRenamerCore) : Prop :=
  NoDup (raw_files core) /\
  (forall r, r ∈ raw_files core ->
     r ≠ [] /\ parent r = raw_folder_path core /\ suffix r ≠ "") /\
  (forall j, j ∈ jpg_files core -> name j ≠ "").

(** The same of the pairs the window holds, which may outlive the engine
    they were found by. *)
Definition pairs_of_one_folder (pairs : list MatchPair) : Prop :=
  NoDup ((fun p : MatchPair => p.1.1) <$> pairs) /\
  exists folder,
    forall p : MatchPair, p ∈ pairs ->
      p.1.1 ≠ [] /\ parent p.1.1 = folder /\ suffix p.1.1 ≠ "" /\
      name p.1.2 ≠ "".

(** What holds of the main window while no thread of find_pairs is at work
    and no call of it is waiting, in a run in which the user waits. *)
Definition gui_consistent {Photo : Type} (self : @FileRenamerGUI.GUI Photo)
    : Prop :=
  FileRenamerGUI.table_shows_plan self /\
  FileRenamerGUI.rows_are_coherent self /\
  (FileRenamerGUI.rename_plan self ≠ [] ->
   is_Some (FileRenamerGUI.renamer_core self) /\
   FileRenamerGUI.rename_button self = NORMAL) /\
  pairs_of_one_folder (FileRenamerGUI.pairs self) /\
  (forall core, FileRenamerGUI.renamer_core self = Some core ->
                scanned_core core).

(** The window holds an engine that has scanned and holds [found] as its
    pairs. *)
Definition engine_found {Photo : Type} (found : list MatchPair)
    (self : @FileRenamerGUI.GUI Photo) : Prop :=
  pairs_of_one_folder found /\
  exists core,
    FileRenamerGUI.renamer_core self = Some core /\
    scanned_core core /\ pairs core = found.

(** The window holds pairs and a plan made from them, not yet shown. *)
Definition ready_to_display {Photo : Type} (self : @FileRenamerGUI.GUI Photo)
    : Prop :=
  pairs_of_one_folder (FileRenamerGUI.pairs self) /\
  (forall op, op ∈ FileRenamerGUI.rename_plan self ->
     exists jpg sim,
       (op.1, jpg, sim) ∈ FileRenamerGUI.pairs self /\
       op.2 = target_path op.1 jpg) /\
  exists core,
    FileRenamerGUI.renamer_core self = Some core /\ scanned_core core.

(** Where the window is while the one thread that is at work goes
    through find_pairs_thread, by the thread and the queue. *)
Inductive in_phase {Photo : Type} (self : @FileRenamerGUI.GUI Photo)
    : list FileRenamerGUI.Worker -> list FileRenamerGUI.Callback -> Prop :=
  | at_rest :
      gui_consistent self -> in_phase self [] []
  | thread_spawned core :
      FileRenamerGUI.renamer_core self = Some core -> scanned_core core ->
      in_phase self [FileRenamerGUI.Spawned] []
  | thread_paired found :
      engine_found found self ->
      in_phase self [FileRenamerGUI.Paired found] []
  | thread_assigned :
      engine_found (FileRenamerGUI.pairs self) self ->
      in_phase self [FileRenamerGUI.Assigned] []
  | thread_planned :
      ready_to_display self -> in_phase self [FileRenamerGUI.Planned] []
  | thread_notified :
      ready_to_display self ->
      in_phase self [FileRenamerGUI.Notified]
               [FileRenamerGUI.update_pairs_display_callback]
  | thread_overtaken :
      gui_consistent self -> in_phase self [FileRenamerGUI.Notified] []
  | thread_finished :
      ready_to_display self ->
      in_phase self []
               [FileRenamerGUI.update_pairs_display_callback;
                FileRenamerGUI.reset_progress_callback]
  | table_displayed :
      gui_consistent self ->
      in_phase self [] [FileRenamerGUI.reset_progress_callback].

(** What holds of a session in every state of a run in which the user
    waits: every thread but the last has finished. *)
Definition session_consistent {Photo : Type}
    (st : @FileRenamerGUI.Session Photo) : Prop :=
  exists n running,
    FileRenamerGUI.threads st
    = replicate n FileRenamerGUI.Finished ++ running /\
    in_phase (FileRenamerGUI.window st) running (FileRenamerGUI.after st).

(** A window on two pairs of the shoot, with a disk that holds the images
    and a decoder that fails on the broken JPG. *)
Module Album.

Definition get_file_size (p : Path) : string :=
  if is_file Shoot.disk p then "24.0 MB" else "N/A".

Definition load_photo (p : Path) : Outcome N :=
  match Shoot.disk !! p with
  | Some (RegularFile (Image data)) =>
      if decide (p = Shoot.broken)
      then Raise (mkExn OSError ("cannot identify image file " +:+ str p))
      else Return data
  | _ => Raise (mkExn FileNotFoundError ("No such file or directory: " +:+ str p))
  end.

Definition original_size (p : Path) : Outcome (N * N) :=
  Return (6000%N, 4000%N).

Definition pairs_data : list PairData :=
  [ (Shoot.img3, Shoot.wedding, Finite 2, "Wedding_042.NEF");
    (Shoot.img2, Shoot.broken, Finite 2, "broken.CR2") ].

(** [Path(...)] on a POSIX path without dots: its components. *)
Fixpoint components (s : string) : list string :=
  match s with
  | "" => [""]
  | String c rest =>
      if Ascii.eqb c "/" then "" :: components rest
      else match components rest with
           | first :: others => String c first :: others
           | [] => [String c ""]
           end
  end.

Definition Path_of (s : string) : Path :=
  filter (fun component => component ≠ "") (components s).

Definition load_column_thumbnail (p : Path) : option N :=
  match load_photo p with
  | Return photo => Some photo
  | Raise _ => None
  end.

Abbreviation handle :=
  (FileRenamerGUI.handle Shoot.hashes Shoot.hamming path_rename
     load_column_thumbnail Path_of).

Abbreviation orderly :=
  (FileRenamerGUI.orderly Shoot.hashes Shoot.hamming path_rename
     load_column_thumbnail Path_of).

(** Scan, Find pairs, the five statements of the thread and the two calls
    it left with the main loop. *)
Definition scan_and_find_pairs : list (@FileRenamerGUI.Event) :=
  [FileRenamerGUI.ClickScan; FileRenamerGUI.ClickFindPairs] ++
  replicate 5 (FileRenamerGUI.ThreadRuns 0) ++
  replicate 2 FileRenamerGUI.MainLoopRuns.

(** The main window on the shoot, after Scan and Find pairs. *)
Abbreviation main_session :=
  (foldl handle (FileRenamerGUI.start "/photos/raw" "/photos/jpg" 5 Shoot.disk)
         scan_and_find_pairs).

Abbreviation main_window := (FileRenamerGUI.window main_session).

(** A run in which the user does not wait: a scan and a second Find pairs
    while the thread of the first is between the call of the engine and
    the assignment of its result. *)
Definition impatient : list (@FileRenamerGUI.Event) :=
  [FileRenamerGUI.ClickScan; FileRenamerGUI.ClickFindPairs;
   FileRenamerGUI.ThreadRuns 0;
   FileRenamerGUI.SlideThreshold 5; FileRenamerGUI.ClickScan;
   FileRenamerGUI.ClickFindPairs] ++
  replicate 5 (FileRenamerGUI.ThreadRuns 1) ++
  replicate 2 FileRenamerGUI.MainLoopRuns ++
  replicate 4 (FileRenamerGUI.ThreadRuns 0) ++
  replicate 2 FileRenamerGUI.MainLoopRuns.

Abbreviation impatient_session :=
  (foldl handle (FileRenamerGUI.start "/photos/raw" "/photos/jpg" 1 Shoot.disk)
         impatient).

End Album.

(** * Properties *)

(** ** Paths and the classifier's view of names *)

Example suffix_cr2 : suffix ["shoot"; "IMG_0001.CR2"] = ".CR2".
Proof. reflexivity. Qed.

Example stem_jpg : stem ["out"; "Wedding_042.jpg"] = "Wedding_042".
Proof. reflexivity. Qed.

Example suffix_hidden : suffix ["out"; ".jpg"] = "".
Proof. reflexivity. Qed.

Example lower_cr2 : lower ".CR2" = ".cr2".
Proof. reflexivity. Qed.

(** A loop that appends at most one element per item is an [omap]. *)
Lemma foldl_append_omap {A B : Type} (f : A -> option B)
    (step : list B -> A -> list B) :
  (forall acc x, step acc x = acc ++ from_option (fun y => [y]) [] (f x)) ->
  forall l acc, foldl step acc l = acc ++ omap f l.
Proof.
  intros Hstep l. induction l as [|x l IH]; intros acc; simpl.
  - by rewrite app_nil_r.
  - rewrite IH, Hstep. destruct (f x); simpl.
    + by rewrite <- app_assoc.
    + by rewrite app_nil_r.
Qed.

(** ** The first minimum of a candidate list *)

Section FirstMinimum.

Context {Fingerprint : Type}.
Variable distance : Fingerprint -> Fingerprint -> Z.

Local Abbreviation spec_first_minimum := (spec_first_minimum distance).
Local Abbreviation is_first_minimum := (is_first_minimum distance).

Lemma spec_first_minimum_sound raw_hash candidates jpg d :
  spec_first_minimum raw_hash candidates = Some (jpg, d) ->
  is_first_minimum raw_hash candidates jpg d.
Proof.
  revert jpg d. induction candidates as [|[k hk] rest IH]; intros jpg d; [done|].
  simpl. destruct (spec_first_minimum raw_hash rest) as [[j' d']|] eqn:Hrest.
  - destruct (IH _ _ eq_refl) as (i & h & Hi & Hd & Hmin & Hfirst).
    case_bool_decide as Hle; intros [= <- <-].
    + exists 0%nat, hk. repeat split; [|intros; lia].
      intros [|n] jpg' h' Hn; simpl in Hn; [naive_solver lia|].
      specialize (Hmin _ _ _ Hn). lia.
    + exists (S i), h. repeat split; [done|done| |].
      * intros [|n] jpg' h' Hn; simpl in Hn; [naive_solver lia|]. eauto.
      * intros [|n] jpg' h' Hlt Hn; simpl in Hn; [naive_solver lia|].
        apply (Hfirst n jpg' h'); [lia|done].
  - intros [= <- <-]. exists 0%nat, hk. repeat split; [|intros; lia].
    intros [|n] jpg' h' Hn; simpl in Hn; [naive_solver lia|].
    destruct rest as [|[] ?]; [done|]. simpl in Hrest.
    by destruct (spec_first_minimum _ _) as [[]|]; try case_bool_decide.
Qed.

Lemma is_first_minimum_unique raw_hash candidates jpg jpg' d d' :
  is_first_minimum raw_hash candidates jpg d ->
  is_first_minimum raw_hash candidates jpg' d' ->
  jpg = jpg' /\ d = d'.
Proof.
  intros (i & h & Hi & -> & Hmin & Hfirst) (i' & h' & Hi' & -> & Hmin' & Hfirst').
  pose proof (Hmin _ _ _ Hi'). pose proof (Hmin' _ _ _ Hi).
  destruct (Nat.lt_trichotomy i i') as [Hlt|[->|Hlt]].
  - pose proof (Hfirst' _ _ _ Hlt Hi). lia.
  - rewrite Hi in Hi'. by injection Hi' as -> ->.
  - pose proof (Hfirst _ _ _ Hlt Hi'). lia.
Qed.

Lemma spec_first_minimum_complete raw_hash candidates jpg d :
  is_first_minimum raw_hash candidates jpg d ->
  spec_first_minimum raw_hash candidates = Some (jpg, d).
Proof.
  intros Hmin.
  destruct (spec_first_minimum raw_hash candidates) as [[j' d']|] eqn:Hsel.
  - apply spec_first_minimum_sound in Hsel.
    by destruct (is_first_minimum_unique _ _ _ _ _ _ Hmin Hsel) as [-> ->].
  - destruct Hmin as (i & h & Hi & _). destruct candidates as [|[] ?]; [done|].
    simpl in Hsel.
    by destruct (spec_first_minimum _ _) as [[]|]; try case_bool_decide.
Qed.

End FirstMinimum.

(** ** The pairing engine *)

Section PairingFacts.

Context {Fingerprint : Type}.
Variable calculate_image_hash : Path -> option Fingerprint.
Variable distance : Fingerprint -> Fingerprint -> Z.

Local Abbreviation best_step := (best_step distance).
Local Abbreviation best_candidate := (best_candidate distance).
Local Abbreviation spec_first_minimum := (spec_first_minimum distance).
Local Abbreviation is_first_minimum := (is_first_minimum distance).
Local Abbreviation hash_jpgs := (hash_jpgs calculate_image_hash).
Local Abbreviation spec_candidates := (spec_candidates calculate_image_hash).
Local Abbreviation spec_pair_for := (spec_pair_for calculate_image_hash distance).
Local Abbreviation find_pairs := (find_pairs calculate_image_hash distance).
Local Abbreviation hashed := (hashed calculate_image_hash).

(** *** The dict of JPG hashes *)

Lemma dict_set_fresh {V} (k : Path) (v : V) (d : list (Path * V)) :
  k ∉ d.*1 -> dict_set k v d = d ++ [(k, v)].
Proof.
  induction d as [|[k' v'] d IH]; simpl; intros Hk; [done|].
  apply not_elem_of_cons in Hk as [Hne Hk].
  destruct (decide (k' = k)); [congruence|]. by rewrite IH.
Qed.

Lemma dict_set_same {V} (k : Path) (v : V) (d : list (Path * V)) :
  k ∈ d.*1 -> (forall v', (k, v') ∈ d -> v' = v) -> dict_set k v d = d.
Proof.
  induction d as [|[k' v'] d IH]; simpl; intros Hk Hv.
  - by apply elem_of_nil in Hk.
  - destruct (decide (k' = k)) as [->|Hne].
    + f_equal. f_equal. symmetry. apply Hv. by left.
    + f_equal. apply IH.
      * apply elem_of_cons in Hk as [?|?]; [congruence|done].
      * intros v'' Hin. apply Hv. by right.
Qed.

(** *** One pass of the selection loop *)

Lemma foldl_best_step threshold raw_hash candidates best :
  foldl (best_step threshold raw_hash) best candidates
  = improve threshold best (spec_first_minimum raw_hash candidates).
Proof.
  revert best. induction candidates as [|[k hk] rest IH]; intros best; [done|].
  simpl. rewrite IH. clear IH.
  destruct (spec_first_minimum raw_hash rest) as [[j' d']|]; simpl; [|done].
  destruct best as [bm [|b]]; simpl;
    repeat (case_bool_decide; simpl); try done; try lia.
Qed.

Lemma best_candidate_spec threshold raw_hash candidates :
  best_candidate threshold raw_hash candidates
  = match spec_first_minimum raw_hash candidates with
    | Some (jpg, d) =>
        if bool_decide (d <= threshold)%Z
        then (Some jpg, Finite d) else (None, Infinity)
    | None => (None, Infinity)
    end.
Proof.
  unfold best_candidate. rewrite foldl_best_step.
  by destruct (spec_first_minimum raw_hash candidates) as [[j d]|].
Qed.

(** A candidate met before changes nothing when it is met again. *)
Lemma best_step_again threshold raw_hash best x :
  best_step threshold raw_hash (best_step threshold raw_hash best x) x
  = best_step threshold raw_hash best x.
Proof.
  destruct x as [k hk], best as [bm [|b]]; simpl;
    repeat (case_bool_decide; simpl); try done; try lia.
Qed.

Lemma best_step_absorbed threshold raw_hash best x y :
  best_step threshold raw_hash best x = best ->
  best_step threshold raw_hash (best_step threshold raw_hash best y) x
  = best_step threshold raw_hash best y.
Proof.
  destruct x as [k hk], y as [k' hk'], best as [bm [|b]]; simpl;
    repeat (case_bool_decide; simpl); try done; try lia;
    intros [=]; lia.
Qed.

Lemma foldl_best_step_seen threshold raw_hash best seen x :
  x ∈ seen ->
  best_step threshold raw_hash (foldl (best_step threshold raw_hash) best seen) x
  = foldl (best_step threshold raw_hash) best seen.
Proof.
  induction seen as [|y seen IH] using rev_ind; intros Hx.
  - by apply elem_of_nil in Hx.
  - rewrite foldl_snoc. apply elem_of_app in Hx as [Hx|Hx].
    + by apply best_step_absorbed, IH.
    + apply list_elem_of_singleton in Hx as ->. apply best_step_again.
Qed.

(** *** The dict iteration against the listing *)

Lemma hashed_dict_set d k v :
  hashed d -> calculate_image_hash k = Some v -> hashed (dict_set k v d).
Proof.
  intros Hd Hk. induction Hd as [|[k' v'] d Hkv Hd IH]; simpl.
  - by repeat constructor.
  - destruct (decide (k' = k)) as [->|]; constructor; simpl in *; done.
Qed.

Lemma dict_set_hashed d k v :
  hashed d -> calculate_image_hash k = Some v ->
  dict_set k v d = if bool_decide (k ∈ d.*1) then d else d ++ [(k, v)].
Proof.
  intros Hd Hk. case_bool_decide as Hin.
  - apply dict_set_same; [done|]. intros v' Hv'.
    unfold hashed in Hd. rewrite Forall_forall in Hd.
    specialize (Hd _ Hv'). simpl in Hd. congruence.
  - by apply dict_set_fresh.
Qed.

(** Hashing into the dict and iterating it selects the same candidate as
    walking the listing itself: a path listed twice is absorbed. *)
Lemma spec_candidates_cons k jpgs :
  spec_candidates (k :: jpgs)
  = match calculate_image_hash k with
    | Some v => (k, v) :: spec_candidates jpgs
    | None => spec_candidates jpgs
    end.
Proof. unfold spec_candidates. simpl. by destruct (calculate_image_hash k). Qed.

Lemma foldl_best_step_dict threshold raw_hash jpgs :
  forall d best,
    hashed d ->
    foldl (best_step threshold raw_hash) best
      (foldl (fun jpg_hashes jpg_file =>
                match calculate_image_hash jpg_file with
                | Some hash_value => dict_set jpg_file hash_value jpg_hashes
                | None => jpg_hashes
                end) d jpgs)
    = foldl (best_step threshold raw_hash)
        (foldl (best_step threshold raw_hash) best d) (spec_candidates jpgs).
Proof.
  induction jpgs as [|k jpgs IH]; intros d best Hd; [done|].
  rewrite spec_candidates_cons. cbn [foldl].
  destruct (calculate_image_hash k) as [v|] eqn:Hk; [|by apply IH].
  rewrite IH by by apply hashed_dict_set.
  rewrite (dict_set_hashed _ _ _ Hd Hk). cbn [foldl]. case_bool_decide as Hin.
  - f_equal. symmetry. apply foldl_best_step_seen.
    apply list_elem_of_fmap in Hin as [[k' v'] [-> Hin]].
    unfold hashed in Hd. rewrite Forall_forall in Hd.
    pose proof (Hd _ Hin) as Hv. simpl in *.
    by replace v with v' by congruence.
  - by rewrite foldl_snoc.
Qed.

Lemma best_candidate_hash_jpgs threshold raw_hash jpgs :
  best_candidate threshold raw_hash (hash_jpgs jpgs)
  = best_candidate threshold raw_hash (spec_candidates jpgs).
Proof.
  unfold best_candidate, hash_jpgs.
  rewrite foldl_best_step_dict; [done | constructor].
Qed.

(** *** find_pairs as a whole *)

Lemma pair_step_spec threshold jpgs ps raw :
  pair_step calculate_image_hash distance threshold (hash_jpgs jpgs) ps raw
  = ps ++ from_option (fun p => [p]) []
            (spec_pair_for threshold (spec_candidates jpgs) raw).
Proof.
  unfold pair_step, spec_pair_for.
  destruct (calculate_image_hash raw) as [raw_hash|]; simpl;
    [|by rewrite app_nil_r].
  rewrite best_candidate_hash_jpgs, best_candidate_spec.
  destruct (spec_first_minimum raw_hash (spec_candidates jpgs)) as [[j d]|];
    [case_bool_decide|]; simpl; by rewrite ?app_nil_r.
Qed.

Lemma find_pairs_spec self :
  find_pairs self
  = let ps := omap (spec_pair_for (similarity_threshold self)
                      (spec_candidates (jpg_files self))) (raw_files self) in
    (set_pairs ps self, ps).
Proof.
  unfold find_pairs. simpl.
  by rewrite (foldl_append_omap _ _ (pair_step_spec _ _)).
Qed.

Lemma find_pairs_pairs self :
  pairs (find_pairs self).1 = (find_pairs self).2.
Proof. by rewrite find_pairs_spec. Qed.

Lemma spec_pair_for_shape threshold candidates raw p :
  spec_pair_for threshold candidates raw = Some p ->
  exists raw_hash jpg d,
    calculate_image_hash raw = Some raw_hash /\ p = (raw, jpg, Finite d) /\
    spec_first_minimum raw_hash candidates = Some (jpg, d) /\
    (d <= threshold)%Z.
Proof.
  unfold spec_pair_for.
  destruct (calculate_image_hash raw) as [raw_hash|]; [|done].
  destruct (spec_first_minimum raw_hash candidates) as [[j d]|] eqn:Hmin;
    [|done].
  case_bool_decide; [|done]. intros [= <-]. by exists raw_hash, j, d.
Qed.

Lemma spec_pair_for_mono t1 t2 candidates raw p :
  (t1 <= t2)%Z ->
  spec_pair_for t1 candidates raw = Some p ->
  spec_pair_for t2 candidates raw = Some p.
Proof.
  intros Hle Hp.
  apply spec_pair_for_shape in Hp as (h & j & d & Hh & -> & Hmin & Hd).
  unfold spec_pair_for. rewrite Hh, Hmin.
  rewrite bool_decide_eq_true_2; [done | lia].
Qed.

(** C1.  For every RAW file whose fingerprint was computed, find_pairs
    emits the pair of that RAW with the JPG of least distance among the
    JPGs that have a fingerprint, the first such JPG in iteration order,
    exactly when that distance is at most the threshold; a RAW whose
    fingerprint failed contributes nothing.  The last part says the same
    of the list returned: which triples are in it. *)
Theorem find_pairs_selects_first_minimum (self : FileRenamerCore) :
  let candidates := spec_candidates (jpg_files self) in
  let emitted := spec_pair_for (similarity_threshold self) candidates in
  (find_pairs self).2 = omap emitted (raw_files self) /\
  pairs (find_pairs self).1 = (find_pairs self).2 /\
  (forall raw, calculate_image_hash raw = None -> emitted raw = None) /\
  (forall raw raw_hash jpg d,
      calculate_image_hash raw = Some raw_hash ->
      emitted raw = Some (raw, jpg, Finite d) <->
      is_first_minimum raw_hash candidates jpg d /\
      (d <= similarity_threshold self)%Z) /\
  (forall raw jpg sim,
      (raw, jpg, sim) ∈ (find_pairs self).2 <->
      raw ∈ raw_files self /\
      exists raw_hash d,
        calculate_image_hash raw = Some raw_hash /\ sim = Finite d /\
        is_first_minimum raw_hash candidates jpg d /\
        (d <= similarity_threshold self)%Z).
Proof.
  intros candidates emitted. rewrite find_pairs_spec. simpl.
  assert (forall raw raw_hash jpg d,
            calculate_image_hash raw = Some raw_hash ->
            emitted raw = Some (raw, jpg, Finite d) <->
            is_first_minimum raw_hash candidates jpg d /\
            (d <= similarity_threshold self)%Z) as Hemit.
  { intros raw raw_hash jpg d Hraw. split.
    - intros Hp. apply spec_pair_for_shape in Hp
        as (h & j & d' & Hh & [= <- <-] & Hmin & Hd).
      rewrite Hraw in Hh. injection Hh as <-.
      split; [by apply spec_first_minimum_sound | done].
    - intros [Hmin Hd]. unfold emitted, spec_pair_for. rewrite Hraw.
      rewrite (spec_first_minimum_complete _ _ _ _ _ Hmin).
      by rewrite bool_decide_eq_true_2. }
  split; [done|]. split; [done|]. split; [|split; [exact Hemit|]].
  - intros raw Hraw. unfold emitted, spec_pair_for. by rewrite Hraw.
  - intros raw jpg sim. rewrite list_elem_of_omap. split.
    + intros (raw' & Hin & Hp). pose proof Hp as Hshape.
      apply spec_pair_for_shape in Hshape
        as (h & j & d & Hh & [= -> -> ->] & _).
      split; [done|]. exists h, d. split; [done|]. split; [done|].
      by apply (Hemit raw' h j d Hh).
    + intros (Hin & h & d & Hh & -> & Hmin). exists raw.
      split; [done|]. by apply (Hemit raw h jpg d Hh).
Qed.

(** C5.  Relaxing the threshold only adds pairs: with the same files and
    the same fingerprints, every pair found with [t1] is found with any
    larger [t2]. *)
Theorem find_pairs_threshold_monotone (self : FileRenamerCore) (t1 t2 : Z) :
  (t1 < t2)%Z ->
  forall p : MatchPair,
    p ∈ (find_pairs (set_similarity_threshold t1 self)).2 ->
    p ∈ (find_pairs (set_similarity_threshold t2 self)).2.
Proof.
  intros Hlt p. rewrite !find_pairs_spec. simpl.
  rewrite !list_elem_of_omap. intros (raw & Hraw & Hp).
  exists raw. split; [done|]. eapply spec_pair_for_mono; [|done]. lia.
Qed.

Lemma find_pairs_raws_sublist self :
  (fun p : MatchPair => p.1.1) <$> (find_pairs self).2
  `sublist_of` raw_files self.
Proof.
  rewrite find_pairs_spec. simpl.
  induction (raw_files self) as [|raw l IH]; simpl; [done|].
  destruct (spec_pair_for _ _ raw) as [p|] eqn:Hp; simpl.
  - apply spec_pair_for_shape in Hp as (h & j & d & _ & -> & _). simpl.
    by apply sublist_skip.
  - by apply sublist_cons.
Qed.

End PairingFacts.

Lemma NoDup_fmap_filter_length {A B : Type} `{EqDecision B}
    (g : A -> B) (l : list A) (b : B) :
  NoDup (g <$> l) -> length (filter (fun x => g x = b) l) <= 1.
Proof.
  induction l as [|x l IH]; simpl; [lia|].
  rewrite NoDup_cons. intros [Hx Hl]. rewrite filter_cons.
  destruct (decide (g x = b)) as [Hb|]; [|by apply IH].
  destruct (filter (fun x => g x = b) l) as [|y ys] eqn:Hf; [simpl; lia|].
  exfalso. assert (y ∈ filter (fun x => g x = b) l) as Hy by (rewrite Hf; left).
  apply list_elem_of_filter in Hy as [Hgy Hy]. apply Hx.
  apply list_elem_of_fmap. exists y. split; [congruence|done].
Qed.

(** C9.  When the RAW listing has no repeated path, find_pairs holds at
    most one pair for any RAW file; and one JPG can be the partner of
    several RAW files, as in the burst of [Shoot]. *)
Theorem find_pairs_at_most_one_pair_per_raw :
  (forall (Fingerprint : Type)
          (calculate_image_hash : Path -> option Fingerprint)
          (distance : Fingerprint -> Fingerprint -> Z)
          (self : FileRenamerCore) (raw : Path),
      NoDup (raw_files self) ->
      length (filter (fun p : MatchPair => p.1.1 = raw)
                     (find_pairs calculate_image_hash distance self).2) <= 1) /\
  (exists (raw1 raw2 jpg : Path) (s1 s2 : Similarity),
      raw1 ≠ raw2 /\
      (raw1, jpg, s1) ∈ (find_pairs Shoot.hashes Shoot.hamming Shoot.scanned).2 /\
      (raw2, jpg, s2) ∈ (find_pairs Shoot.hashes Shoot.hamming Shoot.scanned).2).
Proof.
  split.
  - intros Fingerprint calculate_image_hash distance self raw Hnodup.
    apply NoDup_fmap_filter_length.
    eapply sublist_NoDup; [done | apply find_pairs_raws_sublist].
  - exists Shoot.img1, Shoot.img2, Shoot.wedding, (Finite 1), (Finite 2).
    split; [done|]. split; vm_compute; repeat constructor.
Qed.

(** ** The rename planner *)

Lemma plan_step_entry fs plan pair :
  plan_step fs plan pair
  = plan ++ from_option (fun op => [op]) [] (plan_entry fs pair).
Proof.
  destruct pair as [[raw jpg] sim]. unfold plan_step, plan_entry. simpl.
  destruct (path_exists fs (target_path raw jpg) && _); simpl;
    [by rewrite app_nil_r|].
  case_bool_decide; simpl; by rewrite ?app_nil_r.
Qed.

Lemma generate_rename_plan_omap fs self :
  generate_rename_plan fs self = omap (plan_entry fs) (pairs self).
Proof.
  unfold generate_rename_plan.
  by rewrite (foldl_append_omap _ _ (plan_step_entry fs)).
Qed.

Lemma plan_entry_Some fs pair src tgt :
  plan_entry fs pair = Some (src, tgt) ->
  src = pair.1.1 /\ tgt = target_path pair.1.1 pair.1.2 /\
  path_exists fs tgt = false /\ src ≠ tgt.
Proof.
  unfold plan_entry.
  destruct (path_exists fs _) eqn:Hex; simpl;
    repeat (case_bool_decide; simpl); try done; intros [= <- <-]; try done.
Qed.

(** C4.  Every operation of the plan comes from a pair and has the target
    directory-of(raw) / (stem-of(jpg) + extension-of(raw)); no operation
    has a target that exists on the file system and differs from its
    source, and no operation has its source as its target. *)
Theorem generate_rename_plan_safe (fs : FS) (self : FileRenamerCore) :
  Forall (fun op : Path * Path =>
            (exists jpg sim,
                (op.1, jpg, sim) ∈ pairs self /\
                op.2 = joinpath (parent op.1) (stem jpg +:+ suffix op.1)) /\
            ~ (path_exists fs op.2 = true /\ op.2 ≠ op.1) /\
            op.1 ≠ op.2)
         (generate_rename_plan fs self).
Proof.
  rewrite generate_rename_plan_omap. apply Forall_forall.
  intros [src tgt] Hop. apply list_elem_of_omap in Hop as ([[raw jpg] sim] & Hin & Hop).
  apply plan_entry_Some in Hop as (-> & -> & Hex & Hne). simpl in *.
  split; [by exists jpg, sim|]. split; [|done].
  intros [Hex' _]. congruence.
Qed.

Lemma plan_entry_exists_ext fs1 fs2 pair :
  path_exists fs1 (target_path pair.1.1 pair.1.2)
  = path_exists fs2 (target_path pair.1.1 pair.1.2) ->
  plan_entry fs1 pair = plan_entry fs2 pair.
Proof. unfold plan_entry. by intros ->. Qed.

Lemma omap_ext_elem {A B : Type} (f g : A -> option B) (l : list A) :
  (forall x, x ∈ l -> f x = g x) -> omap f l = omap g l.
Proof.
  induction l as [|x l IH]; intros Hfg; simpl; [done|].
  rewrite (Hfg x) by left.
  assert (omap f l = omap g l) as Hl
    by (apply IH; intros y Hy; apply Hfg; by right).
  destruct (g x); [f_equal|]; exact Hl.
Qed.

Lemma omap_sublist {A B : Type} (f : A -> option B) (g : A -> B) (l : list A) :
  (forall x y, f x = Some y -> y = g x) ->
  exists kept, kept `sublist_of` l /\ omap f l = g <$> kept.
Proof.
  intros Hfg. induction l as [|x l (kept & Hsub & IH)].
  - by exists [].
  - destruct (f x) as [y|] eqn:Hx.
    + exists (x :: kept). split; [by apply sublist_skip|].
      rewrite fmap_cons, <- IH, <- (Hfg _ _ Hx). simpl. by rewrite Hx.
    + exists kept. split; [by apply sublist_cons|].
      rewrite <- IH. simpl. by rewrite Hx.
Qed.

Section Determinism.

Context {Fingerprint : Type}.
Variable distance : Fingerprint -> Fingerprint -> Z.

Lemma spec_candidates_ext (hash1 hash2 : Path -> option Fingerprint) jpgs :
  (forall f, f ∈ jpgs -> hash1 f = hash2 f) ->
  spec_candidates hash1 jpgs = spec_candidates hash2 jpgs.
Proof.
  intros Hagree. unfold spec_candidates. apply omap_ext_elem.
  intros f Hf. by rewrite Hagree.
Qed.

Lemma spec_candidates_listed (hash : Path -> option Fingerprint) jpgs jpg h :
  (jpg, h) ∈ spec_candidates hash jpgs -> jpg ∈ jpgs.
Proof.
  unfold spec_candidates. rewrite list_elem_of_omap.
  intros (f & Hf & Hjpg). destruct (hash f); simpl in Hjpg; [|done].
  by injection Hjpg as -> _.
Qed.

Lemma find_pairs_listed (hash : Path -> option Fingerprint) self raw jpg sim :
  (raw, jpg, sim) ∈ (find_pairs hash distance self).2 ->
  raw ∈ raw_files self /\ jpg ∈ jpg_files self.
Proof.
  rewrite find_pairs_spec. simpl. rewrite list_elem_of_omap.
  intros (raw' & Hraw & Hp).
  apply spec_pair_for_shape in Hp as (h & j & d & _ & [= -> -> ->] & Hmin & _).
  split; [done|].
  apply spec_first_minimum_sound in Hmin as (i & hj & Hi & _).
  apply (spec_candidates_listed hash _ _ hj).
  by apply list_elem_of_lookup_2 with i.
Qed.

(** C10.  The pairs and the plan are functions of the two listings, of the
    fingerprints of the listed files and of which targets exist: two runs
    that agree on these produce the same pairs and the same plan, and the
    plan keeps a subsequence of the pairs, in order. *)
Theorem pairing_and_planning_deterministic
    (hash1 hash2 : Path -> option Fingerprint) (fs1 fs2 : FS)
    (self : FileRenamerCore) :
  (forall f, f ∈ raw_files self ++ jpg_files self -> hash1 f = hash2 f) ->
  (forall raw jpg, raw ∈ raw_files self -> jpg ∈ jpg_files self ->
     path_exists fs1 (target_path raw jpg)
     = path_exists fs2 (target_path raw jpg)) ->
  let run1 := find_pairs hash1 distance self in
  let run2 := find_pairs hash2 distance self in
  run1 = run2 /\
  generate_rename_plan fs1 run1.1 = generate_rename_plan fs2 run2.1 /\
  exists kept,
    kept `sublist_of` run1.2 /\
    generate_rename_plan fs1 run1.1
    = (fun p : MatchPair => (p.1.1, target_path p.1.1 p.1.2)) <$> kept.
Proof.
  intros Hhash Hexists run1 run2.
  assert (run1 = run2) as Hrun.
  { unfold run1, run2. rewrite !find_pairs_spec. simpl.
    rewrite (spec_candidates_ext hash1 hash2) by
      (intros f Hf; apply Hhash, elem_of_app; by right).
    erewrite omap_ext_elem; [done|]. intros raw Hraw.
    unfold spec_pair_for. rewrite (Hhash raw); [done|].
    apply elem_of_app. by left. }
  split; [done|]. rewrite <- Hrun. split.
  - rewrite !generate_rename_plan_omap. apply omap_ext_elem.
    intros [[raw jpg] sim] Hp. apply plan_entry_exists_ext. simpl.
    assert (pairs run1.1 = run1.2) as Hpairs
      by (unfold run1; by rewrite find_pairs_spec).
    rewrite Hpairs in Hp. apply find_pairs_listed in Hp as [? ?].
    by apply Hexists.
  - rewrite generate_rename_plan_omap.
    replace (pairs run1.1) with run1.2
      by (unfold run1; by rewrite find_pairs_spec).
    apply omap_sublist. intros [[raw jpg] sim] [src tgt] Hop.
    by apply plan_entry_Some in Hop as (-> & -> & _).
Qed.

End Determinism.

(** ** The rename executor *)

Section ExecutorFacts.

Variable rename : FS -> Path -> Path -> Outcome FS.

Local Abbreviation execute_step := (execute_step rename).
Local Abbreviation execute_rename := (execute_rename rename).
Local Abbreviation rename_or_keep := (rename_or_keep rename).
Local Abbreviation record_of := (record_of rename).
Local Abbreviation records := (records rename).

Lemma execute_step_components fs ops n op :
  execute_step (fs, ops, n) op
  = (rename_or_keep fs op, ops ++ [record_of fs op],
     n + length (filter (fun o => status o = SUCCESS) [record_of fs op])).
Proof.
  destruct op as [old new]. unfold execute_step, rename_or_keep, record_of.
  simpl. destruct (rename fs old new) as [fs'|e];
    rewrite filter_cons, filter_nil; simpl.
  - destruct (decide (SUCCESS = SUCCESS)); [|done]. simpl. do 2 f_equal. lia.
  - destruct (decide (ERROR = SUCCESS)); [done|]. simpl. do 2 f_equal. lia.
Qed.

(** The loop of execute_rename, from any state of its three variables. *)
Lemma execute_loop plan :
  forall fs ops n,
    foldl execute_step (fs, ops, n) plan
    = (foldl rename_or_keep fs plan,
       ops ++ records fs plan,
       n + length (filter (fun o => status o = SUCCESS) (records fs plan))).
Proof.
  induction plan as [|op plan IH]; intros fs ops n.
  - simpl. by rewrite app_nil_r, Nat.add_0_r.
  - cbn [foldl records]. rewrite execute_step_components, IH.
    rewrite <- app_assoc. f_equal.
    change (record_of fs op :: records (rename_or_keep fs op) plan)
      with ([record_of fs op] ++ records (rename_or_keep fs op) plan).
    rewrite filter_app, length_app. lia.
Qed.

Lemma length_records plan : forall fs, length (records fs plan) = length plan.
Proof. induction plan as [|op plan IH]; intros fs; simpl; [done|]. by rewrite IH. Qed.


Lemma execute_rename_run self fs plan stamp iso :
  let log := log_path self stamp in
  let doc := mkBackupData iso (str (raw_folder_path self))
                          (str (jpg_folder_path self)) (records fs plan) in
  execute_rename self fs plan stamp iso
  = match write_json (foldl rename_or_keep fs plan) log doc with
    | Return fs' =>
        (set_log_file (Some log) self, fs',
         Return (length (filter (fun o => status o = SUCCESS)
                                (records fs plan)), str log))
    | Raise e => (set_log_file (Some log) self, foldl rename_or_keep fs plan,
                  Raise e)
    end.
Proof. simpl. unfold execute_rename. by rewrite execute_loop. Qed.

(** The two ways execute_rename ends: with the log written over the file
    system the loop left, or, where the log cannot be opened, with an
    exception and the file system the loop left, in which nothing can be
    read at the path of the log. *)
Lemma execute_rename_cases self fs plan stamp iso :
  let log := log_path self stamp in
  let doc := mkBackupData iso (str (raw_folder_path self))
                          (str (jpg_folder_path self)) (records fs plan) in
  let renamed := foldl rename_or_keep fs plan in
  execute_rename self fs plan stamp iso
  = (set_log_file (Some log) self, written renamed log doc,
     Return (length (filter (fun o => status o = SUCCESS) (records fs plan)),
             str log)) /\
  renamed !! log ≠ Some Directory /\
  (is_Some (renamed !! log) \/ renamed !! parent log = Some Directory)
  \/
  exists e e',
    execute_rename self fs plan stamp iso
    = (set_log_file (Some log) self, renamed, Raise e) /\
    read_json renamed log = Raise e' /\
    (renamed !! log = Some Directory \/
     renamed !! log = None /\ renamed !! parent log ≠ Some Directory).
Proof.
  cbv zeta. rewrite execute_rename_run. cbv zeta.
  unfold write_json, read_json.
  destruct (foldl rename_or_keep fs plan !! log_path self stamp)
    as [[c|]|] eqn:Hlog.
  - left. split; [done|]. split; [done|]. left. by eexists.
  - right. eexists _, _. split; [done|]. split; [done|]. by left.
  - destruct (foldl rename_or_keep fs plan !! parent (log_path self stamp))
      as [[c|]|] eqn:Hraw.
    + right. eexists _, _. split; [done|]. split; [done|]. by right.
    + left. split; [done|]. split; [done|]. by right.
    + right. eexists _, _. split; [done|]. split; [done|]. by right.
Qed.


End ExecutorFacts.


(** The same with a directory at the path of the log: the three files of
    the plan are renamed, and execute_rename raises with no log written. *)
Example execute_rename_directory_at_log_path :
  let fs := <[Shoot.backup := Directory]> Shoot.disk in
  let run := execute_rename posix_rename Shoot.paired fs Shoot.plan
               Shoot.stamp Shoot.iso in
  raised run.2 = Some IsADirectoryError /\
  run.1.2 !! Shoot.img3 = None /\
  run.1.2 !! (Shoot.raw_dir ++ ["Wedding_042.NEF"])
  = Some (RegularFile (Image 3)) /\
  run.1.2 !! Shoot.backup = Some Directory.
Proof. by vm_compute. Qed.

(** ** The file classifier *)

Lemma foldl_scan_step fs extensions entries :
  forall found,
    foldl (scan_step fs extensions) found entries
    = found ++ classified fs extensions entries.
Proof.
  unfold classified.
  induction entries as [|p entries IH]; intros found; simpl.
  - by rewrite app_nil_r.
  - rewrite IH, filter_cons. unfold scan_step.
    destruct (decide (is_file fs p = true /\ lower (suffix p) ∈ extensions))
      as [[Hfile Hext]|Hnot].
    + rewrite Hfile, bool_decide_eq_true_2 by done. by rewrite <- app_assoc.
    + destruct (is_file fs p); [|done].
      rewrite bool_decide_eq_false_2; [done|]. intros Hext. by apply Hnot.
Qed.

(** What scan_files returns, by what the two folder paths name. *)
Lemma scan_files_cases fs self :
  let reset := set_jpg_files [] (set_raw_files [] self) in
  scan_files fs self
  = match fs !! raw_folder_path self, fs !! jpg_folder_path self with
    | None, _ =>
        (reset, Raise (mkExn FileNotFoundError
           ("RAW složka " +:+ str (raw_folder_path self) +:+ " neexistuje.")))
    | Some _, None =>
        (reset, Raise (mkExn FileNotFoundError
           ("JPG složka " +:+ str (jpg_folder_path self) +:+ " neexistuje.")))
    | Some (RegularFile _), Some _ =>
        (reset, Raise (mkExn NotADirectoryError
           ("Not a directory: " +:+ str (raw_folder_path self))))
    | Some Directory, Some (RegularFile _) =>
        (set_raw_files
           (classified fs RAW_EXTENSIONS (entries fs (raw_folder_path self)))
           reset,
         Raise (mkExn NotADirectoryError
           ("Not a directory: " +:+ str (jpg_folder_path self))))
    | Some Directory, Some Directory =>
        let raws :=
          classified fs RAW_EXTENSIONS (entries fs (raw_folder_path self)) in
        let jpgs :=
          classified fs JPG_EXTENSIONS (entries fs (jpg_folder_path self)) in
        (set_jpg_files jpgs (set_raw_files raws reset),
         Return (length raws, length jpgs))
    end.
Proof.
  unfold scan_files, path_exists, iterdir. simpl.
  destruct (fs !! raw_folder_path self) as [[c|]|] eqn:Hraw; simpl; [| |done];
    (destruct (fs !! jpg_folder_path self) as [[c'|]|] eqn:Hjpg; simpl; try done).
  - by rewrite foldl_scan_step.
  - by rewrite !foldl_scan_step.
Qed.

(** C7, amended.  scan_files raises FileNotFoundError, the
    directory-not-found condition, when one of the two paths does not
    exist; when both exist and one of them is not a directory it raises
    the NotADirectoryError of the listing instead; when both are
    directories it returns the sizes of the two buckets, which hold the
    regular files of each directory whose lower-cased suffix is a RAW,
    respectively a JPG extension. *)
Theorem scan_files_outcome (fs : FS) (self : FileRenamerCore) :
  let result := scan_files fs self in
  match fs !! raw_folder_path self, fs !! jpg_folder_path self with
  | None, _ | Some _, None => raised result.2 = Some FileNotFoundError
  | Some Directory, Some Directory =>
      result.2
      = Return (length (raw_files result.1), length (jpg_files result.1)) /\
      (forall entries, iterdir fs (raw_folder_path self) = Return entries ->
         raw_files result.1 = classified fs RAW_EXTENSIONS entries) /\
      (forall entries, iterdir fs (jpg_folder_path self) = Return entries ->
         jpg_files result.1 = classified fs JPG_EXTENSIONS entries)
  | Some _, Some _ => raised result.2 = Some NotADirectoryError
  end.
Proof.
  simpl. rewrite scan_files_cases. unfold iterdir.
  destruct (fs !! raw_folder_path self) as [[c|]|] eqn:Hraw; simpl; [| |done];
    (destruct (fs !! jpg_folder_path self) as [[c'|]|] eqn:Hjpg; simpl;
     try done).
  split; [done|]. split; by intros entries [= <-].
Qed.

(** C8, amended.  When scan_files fails for a missing directory the
    exception is the one of the guards at its head, raised before either
    directory is listed; the engine's two file lists have been emptied by
    then, and nothing else of its state has changed. *)
Theorem scan_files_missing_directory (fs : FS) (self : FileRenamerCore) :
  raised (scan_files fs self).2 = Some FileNotFoundError ->
  (path_exists fs (raw_folder_path self) = false \/
   path_exists fs (jpg_folder_path self) = false) /\
  (scan_files fs self).1 = set_jpg_files [] (set_raw_files [] self) /\
  ((scan_files fs self).2
   = Raise (mkExn FileNotFoundError
       ("RAW složka " +:+ str (raw_folder_path self) +:+ " neexistuje.")) \/
   (scan_files fs self).2
   = Raise (mkExn FileNotFoundError
       ("JPG složka " +:+ str (jpg_folder_path self) +:+ " neexistuje."))).
Proof.
  rewrite scan_files_cases. unfold path_exists.
  destruct (fs !! raw_folder_path self) as [[c|]|] eqn:Hraw; simpl;
    [| |by auto];
    (destruct (fs !! jpg_folder_path self) as [[c'|]|] eqn:Hjpg; simpl;
     try done; by auto).
Qed.

(** No path is listed twice by a scan. *)
Lemma scan_files_no_repeats fs self :
  NoDup (raw_files (scan_files fs self).1) /\
  NoDup (jpg_files (scan_files fs self).1).
Proof.
  assert (forall extensions d, NoDup (classified fs extensions (entries fs d)))
    as Hclass.
  { intros extensions d. apply NoDup_filter, NoDup_filter.
    apply NoDup_fst_map_to_list. }
  rewrite scan_files_cases.
  destruct (fs !! raw_folder_path self) as [[c|]|]; simpl;
    [| |split; constructor];
    (destruct (fs !! jpg_folder_path self) as [[c'|]|]; simpl;
     split; (apply Hclass || constructor)).
Qed.

(** The directory-not-found reading of C7 fails where the RAW folder path
    names a regular file: the scan fails, but with NotADirectoryError. *)
Lemma classifier_contract_fails_on_file :
  ~ classifier_contract Shoot.disk Shoot.misplaced.
Proof. unfold classifier_contract. vm_compute. discriminate. Qed.

(** C8 as stated fails on an engine that holds the files of an earlier
    scan: after the failed scan its lists are empty. *)
Lemma scan_failure_resets_lists :
  ~ scan_failure_keeps_state Shoot.disk Shoot.stale.
Proof.
  unfold scan_failure_keeps_state. intros Hkeep.
  assert (raw_files (scan_files Shoot.disk Shoot.stale).1
          = raw_files Shoot.stale) as Hraw by (rewrite Hkeep; [done|]; by vm_compute).
  vm_compute in Hraw. discriminate.
Qed.

(** ** Renaming regular files *)

Lemma posix_rename_file fs s t fs' :
  fs !! s ≠ Some Directory ->
  posix_rename fs s t = Return fs' ->
  exists c,
    fs !! s = Some (RegularFile c) /\ fs !! t ≠ Some Directory /\
    fs' = <[t := RegularFile c]> (delete s fs).
Proof.
  unfold posix_rename. intros Hs.
  destruct (fs !! s) as [[c|]|]; [|done|done].
  destruct (fs !! t) as [[c'|]|] eqn:Ht; [|done|]; intros [= <-];
    exists c; by rewrite ?Ht.
Qed.

Lemma posix_rename_file_ok fs s t c :
  fs !! s = Some (RegularFile c) ->
  fs !! t ≠ Some Directory ->
  posix_rename fs s t = Return (<[t := RegularFile c]> (delete s fs)).
Proof.
  unfold posix_rename. intros -> Ht. by destruct (fs !! t) as [[c'|]|].
Qed.

Lemma posix_rename_onto_directory fs s t c :
  fs !! s = Some (RegularFile c) ->
  fs !! t = Some Directory ->
  exists e, posix_rename fs s t = Raise e.
Proof. unfold posix_rename. intros -> ->. eauto. Qed.

(** One step of either loop on a source that is not a directory: nothing
    happens, or one regular file moves. *)
Lemma rename_or_keep_file fs s t :
  fs !! s ≠ Some Directory ->
  rename_or_keep posix_rename fs (s, t) = fs \/
  exists c,
    fs !! s = Some (RegularFile c) /\ fs !! t ≠ Some Directory /\
    posix_rename fs s t = Return (<[t := RegularFile c]> (delete s fs)) /\
    rename_or_keep posix_rename fs (s, t) = <[t := RegularFile c]> (delete s fs).
Proof.
  intros Hs. unfold rename_or_keep. simpl.
  destruct (posix_rename fs s t) as [fs'|e] eqn:Hren; [|by left].
  destruct (posix_rename_file _ _ _ _ Hs Hren) as (c & Hc & Ht & ->).
  right. by exists c.
Qed.

(** Moving regular files neither makes nor removes a directory. *)
Lemma rename_or_keep_directories fs s t p :
  fs !! s ≠ Some Directory ->
  rename_or_keep posix_rename fs (s, t) !! p = Some Directory <->
  fs !! p = Some Directory.
Proof.
  intros Hs.
  destruct (rename_or_keep_file fs s t Hs) as [->|(c & Hc & Ht & _ & ->)];
    [done|].
  destruct (decide (p = t)) as [->|Hpt].
  - rewrite lookup_insert_eq. naive_solver.
  - rewrite lookup_insert_ne by done.
    destruct (decide (p = s)) as [->|Hps].
    + rewrite lookup_delete_eq, Hc. naive_solver.
    + by rewrite lookup_delete_ne.
Qed.

Lemma rename_or_keep_frame fs s t p :
  fs !! s ≠ Some Directory -> p ≠ s -> p ≠ t ->
  rename_or_keep posix_rename fs (s, t) !! p = fs !! p.
Proof.
  intros Hs Hps Hpt.
  destruct (rename_or_keep_file fs s t Hs) as [->|(c & _ & _ & _ & ->)];
    [done|].
  by rewrite lookup_insert_ne, lookup_delete_ne.
Qed.

(** A path the plan does not mention keeps its node through the run. *)
Lemma execute_frame plan :
  forall fs p,
    p ∉ plan.*1 -> p ∉ plan.*2 ->
    (forall s, s ∈ plan.*1 -> fs !! s ≠ Some Directory) ->
    foldl (rename_or_keep posix_rename) fs plan !! p = fs !! p.
Proof.
  induction plan as [|[o n] plan IH]; intros fs p Hp1 Hp2 Hfiles; [done|].
  simpl in *. apply not_elem_of_cons in Hp1 as [Hpo Hp1].
  apply not_elem_of_cons in Hp2 as [Hpn Hp2].
  assert (fs !! o ≠ Some Directory) as Ho by (apply Hfiles; left).
  rewrite IH; [by apply rename_or_keep_frame|done|done|].
  intros s Hs. rewrite rename_or_keep_directories by done.
  apply Hfiles. by right.
Qed.

(** A run over regular files neither makes nor removes a directory. *)
Lemma execute_directories plan :
  forall fs p,
    (forall s, s ∈ plan.*1 -> fs !! s ≠ Some Directory) ->
    foldl (rename_or_keep posix_rename) fs plan !! p = Some Directory <->
    fs !! p = Some Directory.
Proof.
  induction plan as [|[o n] plan IH]; intros fs p Hfiles; [done|].
  simpl in *. rewrite IH.
  - apply rename_or_keep_directories, Hfiles. left.
  - intros s Hs. rewrite rename_or_keep_directories by (apply Hfiles; left).
    apply Hfiles. by right.
Qed.

Lemma records_paths rename plan :
  forall fs op,
    op ∈ records rename fs plan ->
    old_path op ∈ plan.*1 /\ new_path op ∈ plan.*2.
Proof.
  induction plan as [|[o n] plan IH]; intros fs op Hop; simpl in *.
  - by apply elem_of_nil in Hop.
  - apply elem_of_cons in Hop as [->|Hop].
    + unfold record_of. simpl. destruct (rename fs o n); simpl; split; left.
    + destruct (IH _ _ Hop). split; by right.
Qed.

(** A path no successful record mentions keeps its node through a
    restore, as long as the restore moves regular files only. *)
Lemma restore_frame ops :
  forall fs p,
    (forall op, op ∈ ops -> status op = SUCCESS ->
       new_path op ≠ p /\ old_path op ≠ p /\
       fs !! new_path op ≠ Some Directory) ->
    restore_fs posix_rename fs ops !! p = fs !! p.
Proof.
  induction ops as [|op ops IH]; intros fs p Hops; [done|].
  unfold restore_fs in *. simpl.
  assert (forall q, restore_fs_step posix_rename fs op !! q = Some Directory ->
                    fs !! q = Some Directory) as Hdirs.
  { intros q. unfold restore_fs_step.
    destruct (is_success op && path_exists fs (new_path op)) eqn:Hgo; [|done].
    apply andb_prop in Hgo as [Hok _]. apply bool_decide_eq_true in Hok.
    apply rename_or_keep_directories. apply (Hops op); [left|done]. }
  rewrite IH.
  - unfold restore_fs_step.
    destruct (is_success op && path_exists fs (new_path op)) eqn:Hgo; [|done].
    apply andb_prop in Hgo as [Hok _]. apply bool_decide_eq_true in Hok.
    destruct (Hops op) as (Hn & Ho & Hfile); [left|done|].
    by apply rename_or_keep_frame.
  - intros op' Hin Hok'. destruct (Hops op') as (Hn & Ho & Hfile);
      [by right|done|]. split; [done|]. split; [done|].
    intros Hdir. by apply Hfile, Hdirs.
Qed.

(** ** Round trip *)

(** The induction behind the round trip: [fs] runs the plan, [fsR] is any
    file system that agrees with the outcome on the plan's targets. *)
Lemma round_trip_files plan :
  forall fs fsR,
    NoDup plan.*2 ->
    (forall s t, s ∈ plan.*1 -> t ∈ plan.*2 -> s ≠ t) ->
    (forall s, s ∈ plan.*1 -> fs !! s ≠ Some Directory) ->
    (forall s, s ∈ plan.*1 -> fsR !! s ≠ Some Directory) ->
    (forall t, t ∈ plan.*2 ->
       fsR !! t = foldl (rename_or_keep posix_rename) fs plan !! t) ->
    forall op,
      op ∈ records posix_rename fs plan -> status op = SUCCESS ->
      exists c,
        fs !! old_path op = Some (RegularFile c) /\
        foldl (rename_or_keep posix_rename) fs plan !! new_path op
        = Some (RegularFile c) /\
        restore_fs posix_rename fsR (records posix_rename fs plan)
          !! old_path op = Some (RegularFile c).
Proof.
  induction plan as [|[o n] plan IH];
    intros fs fsR Hnodup Hdisj Hfiles HfilesR Hagree op Hop Hok.
  { by apply elem_of_nil in Hop. }
  simpl in Hnodup, Hdisj, Hfiles, HfilesR, Hagree.
  apply NoDup_cons in Hnodup as [Hn Hnodup].
  assert (o ≠ n) as Hon by (apply Hdisj; left).
  assert (n ∉ plan.*1) as Hn1.
  { intros Hin. apply (Hdisj n n); [by right|left|done]. }
  assert (o ∉ plan.*2) as Ho2.
  { intros Hin. apply (Hdisj o o); [left|by right|done]. }
  assert (fs !! o ≠ Some Directory) as Ho by (apply Hfiles; left).
  assert (forall s t, s ∈ plan.*1 -> t ∈ plan.*2 -> s ≠ t) as Hdisj'.
  { intros s t Hs Ht. apply Hdisj; by right. }
  cbn [records foldl] in *.
  unfold restore_fs. cbn [foldl]. fold (restore_fs posix_rename).
  destruct (rename_or_keep_file fs o n Ho) as [Hkeep|(c & Hc & Hnd & Hren & Hmove)].
  - (* the rename raised, or moved nothing *)
    rewrite Hkeep in *.
    assert (restore_fs_step posix_rename fsR (record_of posix_rename fs (o, n))
            = fsR \/ status (record_of posix_rename fs (o, n)) = SUCCESS) as Hstep.
    { unfold restore_fs_step, is_success.
      case_bool_decide; [by right | by left]. }
    unfold record_of in Hop, Hstep |- *. unfold rename_or_keep in Hkeep.
    simpl in Hop, Hstep, Hkeep |- *.
    destruct (posix_rename fs o n) as [fs'|e] eqn:Hren.
    + (* a successful rename of a file onto itself cannot be: o ≠ n *)
      destruct (posix_rename_file _ _ _ _ Ho Hren) as (c & Hc & _ & ->).
      exfalso. assert (<[n:=RegularFile c]> (delete o fs) !! o = fs !! o)
        as Habs by by rewrite Hkeep.
      rewrite lookup_insert_ne, lookup_delete_eq, Hc in Habs by done. done.
    + destruct Hstep as [Hstep|Hbad]; [|done]. rewrite Hstep.
      apply elem_of_cons in Hop as [->|Hop]; [done|].
      apply (IH fs fsR); try done.
      * intros s Hs. apply Hfiles. by right.
      * intros s Hs. apply HfilesR. by right.
      * intros t Ht. apply Hagree. by right.
  - (* the file at [o] moved to [n] *)
    rewrite Hmove in *. set (fs' := <[n:=RegularFile c]> (delete o fs)) in *.
    assert (fs' !! o = None) as Ho'
      by (unfold fs'; by rewrite lookup_insert_ne, lookup_delete_eq).
    assert (foldl (rename_or_keep posix_rename) fs' plan !! n
            = Some (RegularFile c)) as Hn'.
    { rewrite execute_frame; [apply lookup_insert_eq|done|done|].
      intros s Hs Hdir. assert (s ≠ n) by (apply Hdisj; [by right|left]).
      unfold fs' in Hdir. rewrite lookup_insert_ne in Hdir by done.
      destruct (decide (s = o)) as [->|]; [by rewrite lookup_delete_eq in Hdir|].
      rewrite lookup_delete_ne in Hdir by done. apply (Hfiles s); [by right|done]. }
    assert (record_of posix_rename fs (o, n)
            = mkOperation (name o) (name n) o n SUCCESS None) as Hrec.
    { unfold record_of. simpl. by rewrite Hren. }
    rewrite Hrec in *.
    assert (fsR !! n = Some (RegularFile c)) as HnR
      by (rewrite Hagree by left; done).
    assert (restore_fs_step posix_rename fsR
              (mkOperation (name o) (name n) o n SUCCESS None)
            = <[o:=RegularFile c]> (delete n fsR)) as Hstep.
    { unfold restore_fs_step, is_success, path_exists, rename_or_keep. simpl.
      rewrite HnR. simpl.
      rewrite (posix_rename_file_ok _ _ _ c); [done|done|].
      apply HfilesR. left. }
    rewrite Hstep. set (fsR' := <[o:=RegularFile c]> (delete n fsR)) in *.
    assert (forall op',
              op' ∈ records posix_rename fs' plan -> status op' = SUCCESS ->
              exists c',
                fs' !! old_path op' = Some (RegularFile c') /\
                foldl (rename_or_keep posix_rename) fs' plan !! new_path op'
                = Some (RegularFile c') /\
                restore_fs posix_rename fsR' (records posix_rename fs' plan)
                  !! old_path op' = Some (RegularFile c')) as Hrest.
    { apply IH; try done.
      - intros s Hs Hdir. assert (s ≠ n) by (apply Hdisj; [by right|left]).
        unfold fs' in Hdir. rewrite lookup_insert_ne in Hdir by done.
        destruct (decide (s = o)) as [->|];
          [by rewrite lookup_delete_eq in Hdir|].
        rewrite lookup_delete_ne in Hdir by done.
        apply (Hfiles s); [by right|done].
      - intros s Hs Hdir. assert (s ≠ n) by (apply Hdisj; [by right|left]).
        unfold fsR' in Hdir.
        destruct (decide (s = o)) as [->|];
          [by rewrite lookup_insert_eq in Hdir|].
        rewrite lookup_insert_ne, lookup_delete_ne in Hdir by done.
        apply (HfilesR s); [by right|done].
      - intros t Ht. assert (t ≠ o) by (intros ->; done).
        assert (t ≠ n) by (intros ->; done).
        unfold fsR'. rewrite lookup_insert_ne, lookup_delete_ne by done.
        apply Hagree. by right. }
    apply elem_of_cons in Hop as [->|Hop]; simpl.
    + exists c. split; [done|]. split; [done|].
      change (foldl (restore_fs_step posix_rename) fsR'
                (records posix_rename fs' plan))
        with (restore_fs posix_rename fsR' (records posix_rename fs' plan)).
      rewrite restore_frame; [apply lookup_insert_eq|].
      intros op' Hop' Hok'.
      destruct (Hrest op' Hop' Hok') as (c' & Hold & Hnew & _).
      destruct (records_paths _ _ _ _ Hop') as [_ Hnew2].
      split; [intros Heq; rewrite Heq in Hnew2; done|].
      split; [intros Heq; rewrite Heq, Ho' in Hold; done|].
      assert (new_path op' ≠ o) by (intros Heq; rewrite Heq in Hnew2; done).
      assert (new_path op' ≠ n) by (intros Heq; rewrite Heq in Hnew2; done).
      unfold fsR'. rewrite lookup_insert_ne, lookup_delete_ne by done.
      rewrite Hagree by by right. by rewrite Hnew.
    + destruct (Hrest op Hop Hok) as (c' & Hold & Hnew & Hback).
      destruct (records_paths _ _ _ _ Hop) as [Hold1 _].
      exists c'. split; [|done].
      assert (old_path op ≠ n) by (apply Hdisj; [by right|left]).
      assert (old_path op ≠ o) by (intros Heq; rewrite Heq, Ho' in Hold; done).
      unfold fs' in Hold.
      by rewrite lookup_insert_ne, lookup_delete_ne in Hold.
Qed.

(** The restore loop: its file system is [restore_fs], and a rename is
    attempted on successful records only, in log order. *)
Lemma restore_step_components rename fs attempted restored errors op :
  exists more restored' errors',
    restore_step rename (fs, attempted, restored, errors) op
    = (restore_fs_step rename fs op, attempted ++ more, restored', errors') /\
    more `sublist_of` [op] /\ Forall (fun op => status op = SUCCESS) more.
Proof.
  unfold restore_step, restore_fs_step, rename_or_keep, is_success. simpl.
  case_bool_decide as Hok; simpl.
  - destruct (path_exists fs (new_path op)); simpl.
    + destruct (rename fs (new_path op) (old_path op)) as [fs'|e];
        eexists [op], _, _; (split; [done|]); split; by repeat constructor.
    + exists [], restored, errors. rewrite app_nil_r.
      split; [done|]. split; [apply sublist_nil_l | constructor].
  - exists [], restored, errors. rewrite app_nil_r.
    split; [done|]. split; [apply sublist_nil_l | constructor].
Qed.

Lemma restore_loop rename ops :
  forall fs attempted restored errors,
    let out := foldl (restore_step rename) (fs, attempted, restored, errors) ops in
    out.1.1.1 = restore_fs rename fs ops /\
    exists more,
      out.1.1.2 = attempted ++ more /\ more `sublist_of` ops /\
      Forall (fun op => status op = SUCCESS) more.
Proof.
  induction ops as [|op ops IH]; intros fs attempted restored errors.
  { simpl. split; [done|]. exists []. by rewrite app_nil_r. }
  cbn [foldl].
  destruct (restore_step_components rename fs attempted restored errors op)
    as (more1 & restored' & errors' & -> & Hsub1 & Hall1).
  destruct (IH (restore_fs_step rename fs op) (attempted ++ more1)
               restored' errors') as (Hfs & more & Hatt & Hsub & Hall).
  split; [done|]. exists (more1 ++ more).
  split; [by rewrite Hatt, <- app_assoc|].
  split; [|by apply Forall_app].
  change (op :: ops) with ([op] ++ ops). by apply sublist_app.
Qed.

Lemma restore_backup_run rename fs f doc :
  read_json fs f = Return doc ->
  (restore_backup rename fs (Some f)).1.1
  = restore_fs rename fs (operations doc) /\
  (restore_backup rename fs (Some f)).1.2 `sublist_of` operations doc /\
  Forall (fun op => status op = SUCCESS)
         (restore_backup rename fs (Some f)).1.2.
Proof.
  intros Hread. unfold restore_backup, restore_operations. rewrite Hread.
  destruct (restore_loop rename (operations doc) fs [] 0 [])
    as (Hfs & more & Hatt & Hsub & Hall). simpl in Hfs, Hatt.
  destruct (foldl _ _ _) as [[[fs' att] n] errs]. simpl in *. by subst.
Qed.

(** Restoring over the file system a run left, with its log written in:
    every file with a success record is back where it was. *)
Lemma restore_after_execute plan fs log doc :
  NoDup plan.*2 ->
  (forall s t, s ∈ plan.*1 -> t ∈ plan.*2 -> s ≠ t) ->
  log ∉ plan.*2 ->
  (forall s, s ∈ plan.*1 -> fs !! s ≠ Some Directory) ->
  forall op,
    op ∈ records posix_rename fs plan -> status op = SUCCESS ->
    is_Some (fs !! old_path op) /\
    restore_fs posix_rename
      (written (foldl (rename_or_keep posix_rename) fs plan) log doc)
      (records posix_rename fs plan) !! old_path op
    = fs !! old_path op.
Proof.
  intros Hnodup Hdisj Hlog Hfiles op Hop Hok.
  set (fs1 := written _ log doc).
  destruct (round_trip_files plan fs fs1 Hnodup Hdisj Hfiles) with (op := op)
    as (c & Hold & _ & Hback); try done.
  - intros s Hs Hdir. unfold fs1, written in Hdir.
    destruct (decide (s = log)) as [->|Hne];
      [by rewrite lookup_insert_eq in Hdir|].
    rewrite lookup_insert_ne in Hdir by done.
    apply execute_directories in Hdir; [|done]. by apply (Hfiles s).
  - intros t Ht. unfold fs1, written. rewrite lookup_insert_ne; [done|].
    intros <-. done.
  - rewrite Hold, Hback. split; [by eexists | done].
Qed.

(** The round trip follows from what the restore does to the files of the
    success records: the log read back is the log written, and a restore
    attempts nothing else. *)
Lemma round_trip_from_log self fs plan stamp iso :
  (forall doc op,
     op ∈ records posix_rename fs plan -> status op = SUCCESS ->
     is_Some (fs !! old_path op) /\
     restore_fs posix_rename
       (written (foldl (rename_or_keep posix_rename) fs plan)
          (log_path self stamp) doc)
       (records posix_rename fs plan) !! old_path op
     = fs !! old_path op) ->
  round_trip self fs plan stamp iso.
Proof.
  intros Hback. unfold round_trip.
  destruct (execute_rename_cases posix_rename self fs plan stamp iso)
    as [(-> & _)|(e & e' & -> & Hfails & _)]; simpl;
    [|intros doc Hread; by rewrite Hfails in Hread].
  set (log := log_path self stamp).
  set (logged := mkBackupData iso _ _ (records posix_rename fs plan)).
  set (fs1 := written _ log logged).
  assert (read_json fs1 log = Return logged) as Hwritten.
  { unfold read_json, fs1, written. by rewrite lookup_insert_eq. }
  intros doc Hread. rewrite Hwritten in Hread. injection Hread as <-.
  destruct (restore_backup_run posix_rename fs1 log _ Hwritten)
    as (Hfs & _ & Hall). simpl in Hfs.
  split.
  - intros op Hop Hok. rewrite Hfs. by apply Hback.
  - intros op Hop. rewrite Forall_forall in Hall. by apply Hall.
Qed.

(** C2, amended.  When the targets of the plan are pairwise distinct, no
    source is a target, the log is not written over a target and the plan
    moves regular files, restoring from the log that execute_rename wrote
    brings every file with a success record back to its source path; and
    a restore attempts a rename on success records only. *)
Theorem round_trip_when_paths_distinct
    (self : FileRenamerCore) (fs : FS) (plan : list (Path * Path))
    (stamp iso : string) :
  NoDup plan.*2 ->
  (forall s t, s ∈ plan.*1 -> t ∈ plan.*2 -> s ≠ t) ->
  log_path self stamp ∉ plan.*2 ->
  (forall s, s ∈ plan.*1 -> fs !! s ≠ Some Directory) ->
  round_trip self fs plan stamp iso.
Proof.
  intros Hnodup Hdisj Hlog Hfiles.
  apply round_trip_from_log. intros doc op Hop Hok.
  destruct (restore_after_execute plan fs (log_path self stamp) doc
              Hnodup Hdisj Hlog Hfiles op Hop Hok) as [Hwas Hback].
  split; [exact Hwas | exact Hback].
Qed.

(** C2 as stated fails on the burst of [Shoot]: two CR2 files are planned
    onto the same target, both renames succeed, the second replaces the
    first, and the restore brings one file back under the other's name. *)
Lemma round_trip_fails_on_shared_target :
  ~ round_trip Shoot.paired Shoot.disk Shoot.plan Shoot.stamp Shoot.iso.
Proof.
  unfold round_trip. intros Hclaim.
  destruct (Hclaim (mkBackupData Shoot.iso (str Shoot.raw_dir) (str Shoot.jpg_dir)
                      (records posix_rename Shoot.disk Shoot.plan)))
    as [Hback _]; [by vm_compute|].
  destruct (Hback (mkOperation "IMG_0001.CR2" "Wedding_042.CR2" Shoot.img1
                     (Shoot.raw_dir ++ ["Wedding_042.CR2"]) SUCCESS None))
    as [_ Heq]; [vm_compute; repeat constructor | done |].
  vm_compute in Heq. discriminate.
Qed.

(** The round trip also fails, whatever a rename does to an existing
    target, on a plan whose second source is its first target: the restore
    walks the log forwards, finds nothing at b, and stops at b on the way
    back from c. *)
Example round_trip_fails_on_chain :
  ~ round_trip Chain.core Chain.disk Chain.plan Chain.stamp Chain.iso.
Proof.
  unfold round_trip. intros Hclaim.
  destruct (Hclaim (mkBackupData Chain.iso (str Chain.dir) (str Chain.dir)
                      (records posix_rename Chain.disk Chain.plan)))
    as [Hback _]; [by vm_compute|].
  destruct (Hback (mkOperation "a.cr2" "b.cr2" Chain.a Chain.b SUCCESS None))
    as [_ Heq]; [vm_compute; repeat constructor | done |].
  vm_compute in Heq. discriminate.
Qed.

(** ** Restoring twice *)

Lemma restore_fs_step_inv fs op :
  restore_fs_step posix_rename fs op = fs \/
  status op = SUCCESS /\
  restore_fs_step posix_rename fs op
  = rename_or_keep posix_rename fs (new_path op, old_path op).
Proof.
  unfold restore_fs_step, is_success. case_bool_decide; simpl; [|by left].
  destruct (path_exists fs (new_path op)); [by right | by left].
Qed.

Lemma restore_fs_step_directories fs op p :
  (status op = SUCCESS -> fs !! new_path op ≠ Some Directory) ->
  restore_fs_step posix_rename fs op !! p = Some Directory <->
  fs !! p = Some Directory.
Proof.
  intros Hfile. destruct (restore_fs_step_inv fs op) as [->|[Hok ->]]; [done|].
  apply rename_or_keep_directories. by apply Hfile.
Qed.

(** The step on a record settles that record. *)
Lemma restore_fs_step_settles fs op :
  status op = SUCCESS ->
  old_path op ≠ new_path op ->
  fs !! new_path op ≠ Some Directory ->
  settled op (restore_fs_step posix_rename fs op).
Proof.
  intros Hok Hne Hfile. unfold restore_fs_step, is_success, path_exists.
  rewrite bool_decide_eq_true_2 by done. simpl.
  destruct (fs !! new_path op) as [[c|]|] eqn:Hnew; simpl; [|done|by left].
  destruct (fs !! old_path op) as [[c'|]|] eqn:Hold.
  - left. unfold rename_or_keep. simpl.
    rewrite (posix_rename_file_ok _ _ _ c) by (by rewrite ?Hold).
    by rewrite lookup_insert_ne, lookup_delete_eq.
  - right. exists c. unfold rename_or_keep. simpl.
    destruct (posix_rename_onto_directory _ _ _ _ Hnew Hold) as [e ->]. done.
  - left. unfold rename_or_keep. simpl.
    rewrite (posix_rename_file_ok _ _ _ c) by (by rewrite ?Hold).
    by rewrite lookup_insert_ne, lookup_delete_eq.
Qed.

(** A settled record stays settled through the step on another record
    whose source is not its target. *)
Lemma settled_step fs op op' :
  settled op fs ->
  (status op' = SUCCESS ->
     old_path op' ≠ new_path op /\ fs !! new_path op' ≠ Some Directory) ->
  settled op (restore_fs_step posix_rename fs op').
Proof.
  intros Hset Hop'.
  destruct (restore_fs_step_inv fs op') as [->|[Hok ->]]; [done|].
  destruct (Hop' Hok) as [Hne Hfile].
  destruct (rename_or_keep_file fs _ (old_path op') Hfile)
    as [->|(c' & Hc' & Hold' & _ & ->)]; [done|].
  destruct Hset as [Hnone|(c & Hnew & Hdir)].
  - left. rewrite lookup_insert_ne by done.
    destruct (decide (new_path op' = new_path op)) as [->|];
      [apply lookup_delete_eq | by rewrite lookup_delete_ne].
  - destruct (decide (new_path op' = new_path op)) as [Heq|Hne'].
    + left. rewrite lookup_insert_ne by done. rewrite Heq.
      apply lookup_delete_eq.
    + right. exists c. rewrite !lookup_insert_ne, !lookup_delete_ne; try done.
      * intros Heq. rewrite Heq, Hdir in Hc'. done.
      * intros Heq. rewrite Heq in Hold'. done.
Qed.

Lemma settled_restore ops :
  forall fs op,
    settled op fs ->
    (forall op', op' ∈ ops -> status op' = SUCCESS ->
       old_path op' ≠ new_path op /\ fs !! new_path op' ≠ Some Directory) ->
    settled op (restore_fs posix_rename fs ops).
Proof.
  induction ops as [|op0 ops IH]; intros fs op Hset Hops; [done|].
  unfold restore_fs. cbn [foldl]. apply IH.
  - apply settled_step; [done|]. intros Hok. apply Hops; [left|done].
  - intros op' Hin Hok. destruct (Hops op') as [Hne Hfile]; [by right|done|].
    split; [done|]. rewrite restore_fs_step_directories; [done|].
    intros Hok0. apply Hops; [left|done].
Qed.

(** After one restore every successful record is settled. *)
Lemma restore_settles ops :
  forall fs,
    (forall op op', op ∈ ops -> op' ∈ ops ->
       status op = SUCCESS -> status op' = SUCCESS ->
       old_path op ≠ new_path op') ->
    (forall op, op ∈ ops -> status op = SUCCESS ->
       fs !! new_path op ≠ Some Directory) ->
    forall op, op ∈ ops -> status op = SUCCESS ->
               settled op (restore_fs posix_rename fs ops).
Proof.
  induction ops as [|op0 ops IH]; intros fs Hdisj Hfiles op Hop Hok.
  { by apply elem_of_nil in Hop. }
  unfold restore_fs. cbn [foldl].
  assert (forall op', op' ∈ ops -> status op' = SUCCESS ->
            restore_fs_step posix_rename fs op0 !! new_path op'
            ≠ Some Directory) as Hfiles'.
  { intros op' Hin Hok'. rewrite restore_fs_step_directories.
    - apply Hfiles; [by right|done].
    - intros Hok0. apply Hfiles; [left|done]. }
  apply elem_of_cons in Hop as [->|Hop].
  - apply settled_restore.
    + apply restore_fs_step_settles; [done| |].
      * apply Hdisj; by (left || done).
      * apply Hfiles; [left|done].
    + intros op' Hin Hok'. split; [|by apply Hfiles'].
      apply Hdisj; try done; [by right|left].
  - apply IH; try done.
    intros op1 op2 H1 H2. apply Hdisj; by right.
Qed.

(** A restore over settled records moves nothing and restores nothing. *)
Lemma restore_step_settled fs attempted restored errors op :
  (status op = SUCCESS -> settled op fs) ->
  exists attempted' errors',
    restore_step posix_rename (fs, attempted, restored, errors) op
    = (fs, attempted', restored, errors').
Proof.
  intros Hset. unfold restore_step, is_success, path_exists.
  case_bool_decide as Hok; simpl; [|by eauto].
  destruct (Hset Hok) as [Hnone|(c & Hnew & Hdir)].
  - rewrite Hnone. eauto.
  - rewrite Hnew.
    destruct (posix_rename_onto_directory _ _ _ _ Hnew Hdir) as [e ->]. eauto.
Qed.

Lemma restore_operations_settled ops :
  forall fs attempted restored errors,
    (forall op, op ∈ ops -> status op = SUCCESS -> settled op fs) ->
    exists attempted' errors',
      foldl (restore_step posix_rename) (fs, attempted, restored, errors) ops
      = (fs, attempted', restored, errors').
Proof.
  induction ops as [|op ops IH]; intros fs attempted restored errors Hset.
  { simpl. eauto. }
  cbn [foldl].
  destruct (restore_step_settled fs attempted restored errors op)
    as (attempted1 & errors1 & ->); [apply Hset; left|].
  apply IH. intros op' Hin. apply Hset. by right.
Qed.

(** Once a restore has run, running its loop again moves nothing. *)
Lemma second_restore_operations ops fs :
  (forall op op', op ∈ ops -> op' ∈ ops ->
     status op = SUCCESS -> status op' = SUCCESS ->
     old_path op ≠ new_path op') ->
  (forall op, op ∈ ops -> status op = SUCCESS ->
     fs !! new_path op ≠ Some Directory) ->
  exists attempted errors,
    restore_operations posix_rename (restore_fs posix_rename fs ops) ops
    = (restore_fs posix_rename fs ops, attempted, 0, errors).
Proof.
  intros Hdisj Hfiles. unfold restore_operations.
  apply restore_operations_settled.
  intros op Hop Hok. by apply restore_settles.
Qed.

(** What a second restore reports, given that it reads the same log and
    that its loop moves nothing. *)
Lemma second_restore_from_log fs backup_file doc :
  read_json fs backup_file = Return doc ->
  read_json (restore_fs posix_rename fs (operations doc)) backup_file
  = Return doc ->
  (exists attempted errors,
     restore_operations posix_rename
       (restore_fs posix_rename fs (operations doc)) (operations doc)
     = (restore_fs posix_rename fs (operations doc), attempted, 0, errors)) ->
  second_restore_unchanged fs backup_file /\
  exists attempted errors,
    restore_backup posix_rename
      (restore_backup posix_rename fs (Some backup_file)).1.1
      (Some backup_file)
    = ((restore_backup posix_rename fs (Some backup_file)).1.1,
       attempted, Restored 0 errors).
Proof.
  intros Hread Hread1 (attempted & errors & Hloop).
  destruct (restore_backup_run posix_rename fs backup_file doc Hread)
    as (Hfs & _ & _).
  assert (restore_backup posix_rename
            (restore_backup posix_rename fs (Some backup_file)).1.1
            (Some backup_file)
          = ((restore_backup posix_rename fs (Some backup_file)).1.1,
             attempted, Restored 0 errors)) as Hsecond.
  { rewrite Hfs. unfold restore_backup at 1. by rewrite Hread1, Hloop. }
  split; [|by eauto]. unfold second_restore_unchanged. cbv zeta.
  by rewrite Hsecond.
Qed.



(** ** The scenarios of the specification on [Shoot] *)

(** Scenarios A and B: the CR2 file is planned onto the stem of its JPG,
    and a NEF file paired with the same JPG is planned as well. *)
Example shoot_plan :
  Shoot.plan
  = [ (Shoot.img3, Shoot.raw_dir ++ ["Wedding_042.NEF"]);
      (Shoot.img2, Shoot.raw_dir ++ ["Wedding_042.CR2"]);
      (Shoot.img1, Shoot.raw_dir ++ ["Wedding_042.CR2"]) ].
Proof. by vm_compute. Qed.

(** Scenario C: with threshold 1 the files at distance 2 have no pair. *)
Example shoot_strict_pairs :
  (find_pairs Shoot.hashes Shoot.hamming
     (set_similarity_threshold 1 Shoot.scanned)).2
  = [ (Shoot.img1, Shoot.wedding, Finite 1) ].
Proof. by vm_compute. Qed.

(** Ties go to the JPG met first, whichever way the listing runs. *)
Example tie_first_listed :
  (find_pairs Ties.hashes Shoot.hamming
     (Ties.core [Ties.first; Ties.second])).2
  = [ (Ties.raw, Ties.first, Finite 1) ] /\
  (find_pairs Ties.hashes Shoot.hamming
     (Ties.core [Ties.second; Ties.first])).2
  = [ (Ties.raw, Ties.second, Finite 1) ].
Proof. split; by vm_compute. Qed.

(** Scenario D: a target that is already on disk is left out of the plan. *)
Example shoot_crowded_plan :
  generate_rename_plan Shoot.crowded Shoot.paired
  = [ (Shoot.img3, Shoot.raw_dir ++ ["Wedding_042.NEF"]) ].
Proof. by vm_compute. Qed.

(** Scenario E: the second of three operations is refused; two renames
    are counted, three records are written, the second with the message. *)
Example shoot_partial_failure :
  let run := execute_rename (Shoot.guarded_rename [Shoot.img2]) Shoot.paired
               Shoot.disk Shoot.plan Shoot.stamp Shoot.iso in
  run.2 = Return (2, str Shoot.backup) /\
  exists doc,
    read_json run.1.2 Shoot.backup = Return doc /\
    operations doc
    = [ mkOperation "IMG_0003.NEF" "Wedding_042.NEF" Shoot.img3
                (Shoot.raw_dir ++ ["Wedding_042.NEF"]) SUCCESS None;
              mkOperation "IMG_0002.CR2" "Wedding_042.CR2" Shoot.img2
                (Shoot.raw_dir ++ ["Wedding_042.CR2"]) ERROR
                (Some "Permission denied: /photos/raw/IMG_0002.CR2");
              mkOperation "IMG_0001.CR2" "Wedding_042.CR2" Shoot.img1
                (Shoot.raw_dir ++ ["Wedding_042.CR2"]) SUCCESS None ].
Proof. split; [by vm_compute|]. eexists. split; by vm_compute. Qed.

(** ** The theorems at work on [Shoot] *)

Lemma find_pairs_threshold_monotone_shoot :
  (1 < 5)%Z /\
  (Shoot.img1, Shoot.wedding, Finite 1)
    ∈ (find_pairs Shoot.hashes Shoot.hamming
         (set_similarity_threshold 1 Shoot.scanned)).2 /\
  (Shoot.img1, Shoot.wedding, Finite 1)
    ∈ (find_pairs Shoot.hashes Shoot.hamming
         (set_similarity_threshold 5 Shoot.scanned)).2.
Proof.
  split; [lia|]. split; [vm_compute; repeat constructor|].
  apply (find_pairs_threshold_monotone Shoot.hashes Shoot.hamming
           Shoot.scanned 1 5); [lia|].
  vm_compute. repeat constructor.
Defined.

Lemma shoot_oracles_agree :
  forall f, f ∈ raw_files Shoot.scanned ++ jpg_files Shoot.scanned ->
            Shoot.hashes f = Shoot.hashes' f.
Proof.
  apply Forall_forall. vm_compute. repeat constructor.
Defined.

Lemma shoot_disks_agree :
  forall raw jpg,
    raw ∈ raw_files Shoot.scanned -> jpg ∈ jpg_files Shoot.scanned ->
    path_exists Shoot.disk (target_path raw jpg)
    = path_exists Shoot.disk' (target_path raw jpg).
Proof.
  intros raw jpg Hraw. revert jpg. apply Forall_forall.
  revert raw Hraw. apply Forall_forall. vm_compute. repeat constructor.
Defined.

Lemma pairing_and_planning_deterministic_shoot :
  find_pairs Shoot.hashes Shoot.hamming Shoot.scanned
  = find_pairs Shoot.hashes' Shoot.hamming Shoot.scanned /\
  generate_rename_plan Shoot.disk
    (find_pairs Shoot.hashes Shoot.hamming Shoot.scanned).1
  = generate_rename_plan Shoot.disk'
      (find_pairs Shoot.hashes' Shoot.hamming Shoot.scanned).1.
Proof.
  destruct (pairing_and_planning_deterministic Shoot.hamming
              Shoot.hashes Shoot.hashes' Shoot.disk Shoot.disk' Shoot.scanned
              shoot_oracles_agree shoot_disks_agree) as (Hpairs & Hplan & _).
  split; [exact Hpairs | exact Hplan].
Defined.

Lemma scan_files_missing_directory_shoot :
  raised (scan_files Shoot.disk Shoot.stale).2 = Some FileNotFoundError /\
  raw_files (scan_files Shoot.disk Shoot.stale).1 = [] /\
  pairs (scan_files Shoot.disk Shoot.stale).1 = pairs Shoot.stale.
Proof.
  assert (raised (scan_files Shoot.disk Shoot.stale).2
          = Some FileNotFoundError) as Hraised by (by vm_compute).
  split; [exact Hraised|].
  destruct (scan_files_missing_directory Shoot.disk Shoot.stale Hraised)
    as (_ & -> & _).
  split; reflexivity.
Defined.

Lemma shoot_safe_plan_disjoint :
  forall s t, s ∈ Shoot.safe_plan.*1 -> t ∈ Shoot.safe_plan.*2 -> s ≠ t.
Proof.
  intros s t Hs. revert t. apply Forall_forall.
  revert s Hs. apply Forall_forall. vm_compute. repeat constructor; discriminate.
Defined.

Lemma shoot_safe_plan_files :
  forall s, s ∈ Shoot.safe_plan.*1 -> Shoot.disk !! s ≠ Some Directory.
Proof. apply Forall_forall. vm_compute. repeat constructor; discriminate. Defined.

Lemma round_trip_shoot_safe_plan :
  NoDup Shoot.safe_plan.*2 /\
  (log_path Shoot.paired Shoot.stamp ∉ Shoot.safe_plan.*2) /\
  round_trip Shoot.paired Shoot.disk Shoot.safe_plan Shoot.stamp Shoot.iso.
Proof.
  assert (NoDup Shoot.safe_plan.*2) as Hnodup
    by (apply (bool_decide_unpack _); vm_compute; exact I).
  assert (log_path Shoot.paired Shoot.stamp ∉ Shoot.safe_plan.*2) as Hlog
    by (apply (bool_decide_unpack _); vm_compute; exact I).
  split; [exact Hnodup|]. split; [exact Hlog|].
  exact (round_trip_when_paths_distinct Shoot.paired Shoot.disk Shoot.safe_plan
           Shoot.stamp Shoot.iso Hnodup shoot_safe_plan_disjoint Hlog
           shoot_safe_plan_files).
Defined.





(** ** The engine end to end

    The plans the engine makes for itself meet most of what the round trip
    and the second restore ask for: the sources are regular files found by
    the scan, and no target exists when the plan is made. *)

Lemma scan_files_raws_are_files fs self p :
  p ∈ raw_files (scan_files fs self).1 -> is_file fs p = true.
Proof.
  assert (forall d, p ∈ classified fs RAW_EXTENSIONS (entries fs d) ->
                    is_file fs p = true) as Hclass.
  { intros d. unfold classified. rewrite list_elem_of_filter. tauto. }
  rewrite scan_files_cases.
  destruct (fs !! raw_folder_path self) as [[c|]|]; simpl;
    try (destruct (fs !! jpg_folder_path self) as [[c'|]|]; simpl);
    first [ apply Hclass | intros Hnil; by apply elem_of_nil in Hnil ].
Qed.

Lemma generate_rename_plan_paths fs self s t :
  (s, t) ∈ generate_rename_plan fs self ->
  (exists jpg sim, (s, jpg, sim) ∈ pairs self) /\ fs !! t = None.
Proof.
  rewrite generate_rename_plan_omap, list_elem_of_omap.
  intros ([[raw jpg] sim] & Hin & Hop).
  apply plan_entry_Some in Hop as (-> & -> & Hex & _). simpl in *.
  split; [by eauto|]. unfold path_exists in Hex.
  by destruct (fs !! target_path raw jpg).
Qed.

Section Engine.

Context {Fingerprint : Type}.
Variable calculate_image_hash : Path -> option Fingerprint.
Variable distance : Fingerprint -> Fingerprint -> Z.

Local Abbreviation engine_plan := (engine_plan calculate_image_hash distance).

Lemma engine_plan_sources fs self s :
  s ∈ (engine_plan fs self).*1 -> is_file fs s = true.
Proof.
  intros ([s' t] & -> & Hin)%list_elem_of_fmap. simpl.
  apply generate_rename_plan_paths in Hin as [(jpg & sim & Hpair) _].
  apply scan_files_raws_are_files with self.
  rewrite find_pairs_pairs in Hpair.
  apply find_pairs_listed in Hpair as [Hraw _]. exact Hraw.
Qed.

Lemma engine_plan_targets fs self t :
  t ∈ (engine_plan fs self).*2 -> fs !! t = None.
Proof.
  intros ([s t'] & -> & Hin)%list_elem_of_fmap. simpl.
  by apply generate_rename_plan_paths in Hin as [_ Hnone].
Qed.

Lemma engine_plan_disjoint fs self s t :
  s ∈ (engine_plan fs self).*1 -> t ∈ (engine_plan fs self).*2 -> s ≠ t.
Proof.
  intros Hs%engine_plan_sources Ht%engine_plan_targets ->.
  unfold is_file in Hs. by rewrite Ht in Hs.
Qed.

Lemma engine_plan_not_directories fs self s :
  s ∈ (engine_plan fs self).*1 -> fs !! s ≠ Some Directory.
Proof.
  intros Hs%engine_plan_sources Hdir. unfold is_file in Hs.
  by rewrite Hdir in Hs.
Qed.

(** On the engine's own plans the round trip only asks that no two
    operations share a target and that the log is not written over one. *)
Lemma engine_round_trip fs self stamp iso :
  let paired := (find_pairs calculate_image_hash distance
                   (scan_files fs self).1).1 in
  NoDup (engine_plan fs self).*2 ->
  log_path paired stamp ∉ (engine_plan fs self).*2 ->
  round_trip paired fs (engine_plan fs self) stamp iso.
Proof.
  intros paired Hnodup Hlog. apply round_trip_from_log. intros doc.
  apply restore_after_execute; try done.
  - apply engine_plan_disjoint.
  - apply engine_plan_not_directories.
Qed.

(** On the log of the engine's own plan a second restore changes nothing,
    as long as the log file is not one of the planned paths. *)
Lemma engine_second_restore_unchanged fs self stamp iso :
  let paired := (find_pairs calculate_image_hash distance
                   (scan_files fs self).1).1 in
  let log := log_path paired stamp in
  log ∉ (engine_plan fs self).*1 ->
  log ∉ (engine_plan fs self).*2 ->
  second_restore_unchanged
    (execute_rename posix_rename paired fs (engine_plan fs self) stamp iso).1.2
    log.
Proof.
  intros paired log Hlog1 Hlog2.
  destruct (execute_rename_cases posix_rename paired fs (engine_plan fs self)
              stamp iso) as [(-> & _)|(e & e' & -> & Hfails & _)];
    cbn [fst snd];
    [|assert (restore_backup posix_rename
                (foldl (rename_or_keep posix_rename) fs (engine_plan fs self))
                (Some log)
              = (foldl (rename_or_keep posix_rename) fs (engine_plan fs self),
                 [], Failed e')) as Hfailed
        by (unfold restore_backup, log; by rewrite Hfails);
      unfold second_restore_unchanged; cbv zeta; rewrite Hfailed; cbn [fst];
      by rewrite Hfailed].
  set (ops := records posix_rename fs (engine_plan fs self)).
  set (doc := mkBackupData _ _ _ ops).
  set (fs1 := written _ _ doc).
  assert (read_json fs1 log = Return doc) as Hread.
  { unfold read_json, fs1, written. by rewrite lookup_insert_eq. }
  assert (forall op, op ∈ ops -> fs1 !! new_path op ≠ Some Directory)
    as Hfiles.
  { intros op Hop Hdir. apply records_paths in Hop as [_ Hnew].
    unfold fs1, written in Hdir.
    destruct (decide (new_path op = log)) as [Heq|Hne].
    - rewrite Heq, lookup_insert_eq in Hdir. done.
    - rewrite lookup_insert_ne in Hdir by done.
      apply execute_directories in Hdir;
        [|apply engine_plan_not_directories].
      by rewrite (engine_plan_targets _ _ _ Hnew) in Hdir. }
  apply (second_restore_from_log fs1 log doc Hread).
  - unfold read_json. rewrite restore_frame; [exact Hread|].
    intros op Hop _. split; [|split; [|by apply Hfiles]].
    + apply records_paths in Hop as [_ Hnew]. intros Heq.
      rewrite Heq in Hnew. done.
    + apply records_paths in Hop as [Hold _]. intros Heq.
      rewrite Heq in Hold. done.
  - apply second_restore_operations.
    + intros op op' Hop Hop' _ _.
      apply records_paths in Hop as [Hold _].
      apply records_paths in Hop' as [_ Hnew].
      by apply engine_plan_disjoint with fs self.
    + intros op Hop _. by apply Hfiles.
Qed.

End Engine.

Lemma find_pairs_at_most_one_pair_per_raw_shoot :
  NoDup (raw_files Shoot.scanned) /\
  length (filter (fun p : MatchPair => p.1.1 = Shoot.img1)
            (find_pairs Shoot.hashes Shoot.hamming Shoot.scanned).2) <= 1.
Proof.
  assert (NoDup (raw_files Shoot.scanned)) as Hnodup
    by (apply (bool_decide_unpack _); vm_compute; exact I).
  split; [exact Hnodup|].
  exact (proj1 find_pairs_at_most_one_pair_per_raw _ Shoot.hashes
           Shoot.hamming Shoot.scanned Shoot.img1 Hnodup).
Defined.

(** * Further properties of the engine *)

(** ** Names, stems and suffixes *)

Lemma rfind_Some_split c s i :
  rfind c s = Some i ->
  exists pre rest,
    s = pre +:+ String c rest /\ String.length pre = i /\ rfind c rest = None.
Proof.
  revert i. induction s as [|a s IH]; intros i; simpl; [done|].
  destruct (rfind c s) as [j|] eqn:Hs.
  - intros [= <-]. destruct (IH j eq_refl) as (pre & rest & -> & <- & Hrest).
    by exists (String a pre), rest.
  - destruct (Ascii.eqb a c) eqn:Hac; [|done].
    intros [= <-]. apply Ascii.eqb_eq in Hac as ->. by exists "", s.
Qed.

Lemma rfind_app_last c pre rest :
  rfind c rest = None ->
  rfind c (pre +:+ String c rest) = Some (String.length pre).
Proof.
  intros Hrest. induction pre as [|a pre IH]; simpl.
  - by rewrite Hrest, Ascii.eqb_refl.
  - by rewrite IH.
Qed.

Lemma length_app_string pre x :
  String.length (pre +:+ x) = String.length pre + String.length x.
Proof. induction pre as [|a pre IH]; simpl; [done|]. by rewrite IH. Qed.

Lemma substring_all x : String.substring 0 (String.length x) x = x.
Proof. induction x as [|a x IH]; simpl; [done|]. by rewrite IH. Qed.

Lemma substring_app_l pre x :
  String.substring 0 (String.length pre) (pre +:+ x) = pre.
Proof.
  induction pre as [|a pre IH]; simpl; [by destruct x|]. by rewrite IH.
Qed.

Lemma substring_app_r pre x :
  String.substring (String.length pre) (String.length x) (pre +:+ x) = x.
Proof.
  induction pre as [|a pre IH]; simpl; [apply substring_all | done].
Qed.

(** A name whose last dot is neither its first nor its last character
    splits there into stem and suffix. *)
Lemma suffix_of_name p pre rest :
  name p = pre +:+ String "." rest ->
  pre ≠ "" -> rest ≠ "" -> rfind "." rest = None ->
  suffix p = String "." rest /\ stem p = pre.
Proof.
  intros Hname Hpre Hrest Hdot. unfold suffix, stem. rewrite Hname.
  rewrite (rfind_app_last _ _ _ Hdot), length_app_string. simpl.
  assert (0 < String.length pre) as Hlen by (destruct pre; [done | simpl; lia]).
  assert (0 < String.length rest) as Hlen' by (destruct rest; [done | simpl; lia]).
  replace (Nat.ltb 0 (String.length pre)) with true
    by (symmetry; apply Nat.ltb_lt; lia).
  replace (Nat.ltb (String.length pre)
             (String.length pre + S (String.length rest) - 1)) with true
    by (symmetry; apply Nat.ltb_lt; lia).
  simpl. split.
  - replace (String.length pre + S (String.length rest) - String.length pre)
      with (String.length (String "." rest)) by (simpl; lia).
    apply substring_app_r.
  - apply substring_app_l.
Qed.

Lemma name_split_at_dot p i :
  rfind "." (name p) = Some i ->
  Nat.ltb 0 i && Nat.ltb i (String.length (name p) - 1) = true ->
  exists pre rest,
    name p = pre +:+ String "." rest /\ pre ≠ "" /\ rest ≠ "" /\
    rfind "." rest = None.
Proof.
  intros Hdot Hin.
  destruct (rfind_Some_split _ _ _ Hdot) as (pre & rest & Hname & Hi & Hrest).
  apply andb_prop in Hin as [H0 H1].
  apply Nat.ltb_lt in H0. apply Nat.ltb_lt in H1.
  rewrite Hname, length_app_string in H1. simpl in H1.
  exists pre, rest. repeat split; [done| | |done].
  - intros ->. simpl in Hi. lia.
  - intros ->. simpl in H1. lia.
Qed.

(** What a non-empty suffix is: the last dot of the name and what follows
    it, with a non-empty stem before it. *)
Lemma suffix_nonempty p :
  suffix p ≠ "" ->
  exists pre rest,
    name p = pre +:+ String "." rest /\ pre ≠ "" /\ rest ≠ "" /\
    rfind "." rest = None /\ suffix p = String "." rest /\ stem p = pre.
Proof.
  intros Hsuffix.
  destruct (rfind "." (name p)) as [i|] eqn:Hdot;
    [|by unfold suffix in Hsuffix; rewrite Hdot in Hsuffix].
  destruct (Nat.ltb 0 i && Nat.ltb i (String.length (name p) - 1)) eqn:Hin;
    [|by unfold suffix in Hsuffix; rewrite Hdot, Hin in Hsuffix].
  destruct (name_split_at_dot p i Hdot Hin)
    as (pre & rest & Hname & Hpre & Hrest & Hlast).
  exists pre, rest. destruct (suffix_of_name p pre rest) as [Hs Ht]; done.
Qed.

Lemma stem_nonempty p : name p ≠ "" -> stem p ≠ "".
Proof.
  intros Hname.
  destruct (rfind "." (name p)) as [i|] eqn:Hdot;
    [|by unfold stem; rewrite Hdot].
  destruct (Nat.ltb 0 i && Nat.ltb i (String.length (name p) - 1)) eqn:Hin;
    [|by unfold stem; rewrite Hdot, Hin].
  destruct (name_split_at_dot p i Hdot Hin)
    as (pre & rest & Hsplit & Hpre & Hrest & Hlast).
  by destruct (suffix_of_name p pre rest) as [_ ->].
Qed.

Lemma suffix_needs_name p : suffix p ≠ "" -> name p ≠ "".
Proof. intros Hsuffix Hname. apply Hsuffix. unfold suffix. by rewrite Hname. Qed.

Lemma name_joinpath p s : s ≠ "" -> name (joinpath p s) = s.
Proof.
  intros Hs. unfold joinpath, name. rewrite decide_False by done.
  apply List.last_last.
Qed.

Lemma parent_joinpath p s : s ≠ "" -> parent (joinpath p s) = p.
Proof.
  intros Hs. unfold joinpath, parent. rewrite decide_False by done.
  apply List.removelast_last.
Qed.

(** [with_name] on a stem and a suffix: the target stays beside the RAW
    file, keeps its suffix and takes the stem of the JPG. *)
Lemma target_path_parts raw jpg :
  suffix raw ≠ "" -> name jpg ≠ "" ->
  parent (target_path raw jpg) = parent raw /\
  name (target_path raw jpg) = stem jpg +:+ suffix raw /\
  suffix (target_path raw jpg) = suffix raw /\
  stem (target_path raw jpg) = stem jpg.
Proof.
  intros Hsuffix Hname.
  destruct (suffix_nonempty raw Hsuffix)
    as (pre & rest & _ & _ & Hrest & Hlast & Hs & _).
  pose proof (stem_nonempty jpg Hname) as Hstem.
  assert (stem jpg +:+ suffix raw ≠ "") as Hnew
    by (rewrite Hs; destruct (stem jpg); done).
  unfold target_path. rewrite parent_joinpath, name_joinpath by done.
  split; [done|]. split; [done|]. rewrite Hs.
  apply suffix_of_name; [|done..].
  rewrite name_joinpath; [done|]. by rewrite <- Hs.
Qed.

(** ** What a scan lists *)

Lemma elem_of_entries fs d p :
  p ∈ entries fs d <-> p ≠ [] /\ parent p = d /\ is_Some (fs !! p).
Proof.
  unfold entries. rewrite list_elem_of_filter, list_elem_of_fmap. split.
  - intros [[Hp Hd] ([q n] & -> & Hin)]. apply elem_of_map_to_list in Hin.
    simpl in *. eauto.
  - intros (Hp & Hd & [n Hn]). split; [done|]. exists (p, n).
    split; [done|]. by apply elem_of_map_to_list.
Qed.

Lemma elem_of_classified fs extensions d p :
  p ∈ classified fs extensions (entries fs d) <->
  p ≠ [] /\ parent p = d /\ is_file fs p = true /\
  lower (suffix p) ∈ extensions.
Proof.
  unfold classified. rewrite list_elem_of_filter, elem_of_entries. split.
  - intros [[Hfile Hext] (Hp & Hd & _)]. done.
  - intros (Hp & Hd & Hfile & Hext). repeat split; try done.
    unfold is_file in Hfile. destruct (fs !! p); [by eauto | done].
Qed.

Lemma scan_files_raw_listed fs self p :
  p ∈ raw_files (scan_files fs self).1 ->
  p ≠ [] /\ parent p = raw_folder_path self /\ is_file fs p = true /\
  lower (suffix p) ∈ RAW_EXTENSIONS.
Proof.
  rewrite scan_files_cases.
  destruct (fs !! raw_folder_path self) as [[c|]|]; simpl;
    try (destruct (fs !! jpg_folder_path self) as [[c'|]|]; simpl);
    first [ apply elem_of_classified
          | intros Hnil; by apply elem_of_nil in Hnil ].
Qed.

Lemma scan_files_jpg_listed fs self p :
  p ∈ jpg_files (scan_files fs self).1 ->
  p ≠ [] /\ parent p = jpg_folder_path self /\ is_file fs p = true /\
  lower (suffix p) ∈ JPG_EXTENSIONS.
Proof.
  rewrite scan_files_cases.
  destruct (fs !! raw_folder_path self) as [[c|]|]; simpl;
    try (destruct (fs !! jpg_folder_path self) as [[c'|]|]; simpl);
    first [ apply elem_of_classified
          | intros Hnil; by apply elem_of_nil in Hnil ].
Qed.

Lemma scan_files_folders fs self :
  raw_folder_path (scan_files fs self).1 = raw_folder_path self /\
  jpg_folder_path (scan_files fs self).1 = jpg_folder_path self.
Proof.
  rewrite scan_files_cases.
  destruct (fs !! raw_folder_path self) as [[c|]|]; simpl;
    try (destruct (fs !! jpg_folder_path self) as [[c'|]|]; simpl); done.
Qed.

(** A scan lists RAW files only where the RAW folder is a directory, and
    returns only where both folders are. *)
Lemma scan_files_raw_folder fs self p :
  p ∈ raw_files (scan_files fs self).1 ->
  fs !! raw_folder_path self = Some Directory.
Proof.
  rewrite scan_files_cases.
  destruct (fs !! raw_folder_path self) as [[c|]|]; simpl;
    try (destruct (fs !! jpg_folder_path self) as [[c'|]|]; simpl);
    first [ done | intros Hnil; by apply elem_of_nil in Hnil ].
Qed.

Lemma scan_files_returned fs self counts :
  (scan_files fs self).2 = Return counts ->
  fs !! raw_folder_path self = Some Directory /\
  fs !! jpg_folder_path self = Some Directory.
Proof.
  rewrite scan_files_cases.
  destruct (fs !! raw_folder_path self) as [[c|]|]; simpl;
    try (destruct (fs !! jpg_folder_path self) as [[c'|]|]; simpl); done.
Qed.

Lemma raw_extension_is_not_jpg ext :
  ext ∈ RAW_EXTENSIONS -> ext ∉ JPG_EXTENSIONS.
Proof.
  revert ext. apply Forall_forall.
  apply (bool_decide_unpack _). vm_compute. exact I.
Qed.

Lemma extension_nonempty p (extensions : list string) :
  lower (suffix p) ∈ extensions -> "" ∉ extensions -> suffix p ≠ "".
Proof. intros Hext Hnot Hempty. apply Hnot. by rewrite Hempty in Hext. Qed.

Lemma raw_extension_nonempty p :
  lower (suffix p) ∈ RAW_EXTENSIONS -> suffix p ≠ "".
Proof.
  intros Hext. apply (extension_nonempty p _ Hext).
  apply (bool_decide_unpack _). vm_compute. exact I.
Qed.

Lemma jpg_extension_nonempty p :
  lower (suffix p) ∈ JPG_EXTENSIONS -> suffix p ≠ "".
Proof.
  intros Hext. apply (extension_nonempty p _ Hext).
  apply (bool_decide_unpack _). vm_compute. exact I.
Qed.

(** X1.  A scan is flat and sorts by extension alone: every path it lists
    sits directly in the folder scanned, is a regular file and carries, in
    lower case, an extension of its side; no path is listed twice, and none
    on both sides, even when the two folders are one.  When the scan
    succeeds nothing that qualifies is left out. *)
Theorem scan_files_buckets (fs : FS) (self : FileRenamerCore) :
  let scanned := (scan_files fs self).1 in
  Forall (fun p => parent p = raw_folder_path self /\ is_file fs p = true /\
                   lower (suffix p) ∈ RAW_EXTENSIONS /\
                   p ∉ jpg_files scanned) (raw_files scanned) /\
  Forall (fun p => parent p = jpg_folder_path self /\ is_file fs p = true /\
                   lower (suffix p) ∈ JPG_EXTENSIONS) (jpg_files scanned) /\
  NoDup (raw_files scanned) /\ NoDup (jpg_files scanned) /\
  forall counts, (scan_files fs self).2 = Return counts ->
    forall p, p ≠ [] -> is_file fs p = true ->
      (parent p = raw_folder_path self -> lower (suffix p) ∈ RAW_EXTENSIONS ->
       p ∈ raw_files scanned) /\
      (parent p = jpg_folder_path self -> lower (suffix p) ∈ JPG_EXTENSIONS ->
       p ∈ jpg_files scanned).
Proof.
  simpl. split; [|split; [|split; [|split]]].
  - apply Forall_forall. intros p Hp.
    destruct (scan_files_raw_listed fs self p Hp) as (_ & Hd & Hfile & Hext).
    repeat split; try done.
    intros (_ & _ & _ & Hjpg)%scan_files_jpg_listed.
    by apply (raw_extension_is_not_jpg _ Hext).
  - apply Forall_forall. intros p Hp.
    by destruct (scan_files_jpg_listed fs self p Hp) as (_ & Hd & Hfile & Hext).
  - apply scan_files_no_repeats.
  - apply scan_files_no_repeats.
  - intros counts. rewrite scan_files_cases.
    destruct (fs !! raw_folder_path self) as [[c|]|]; simpl; [| |done];
      (destruct (fs !! jpg_folder_path self) as [[c'|]|]; simpl; try done).
    intros _ p Hp Hfile. split; intros Hd Hext; by apply elem_of_classified.
Qed.

(** ** Plans that run without a failure *)

Lemma is_file_Some fs p :
  is_file fs p = true <-> exists c, fs !! p = Some (RegularFile c).
Proof.
  unfold is_file. destruct (fs !! p) as [[c|]|]; split;
    try done; try (intros [c' [=]]); eauto.
Qed.

Lemma old_paths_records rename plan :
  forall fs, old_path <$> records rename fs plan = plan.*1.
Proof.
  induction plan as [|[s t] plan IH]; intros fs; simpl; [done|].
  rewrite IH. unfold record_of. simpl. by destruct (rename fs s t).
Qed.

Lemma new_paths_records rename plan :
  forall fs, new_path <$> records rename fs plan = plan.*2.
Proof.
  induction plan as [|[s t] plan IH]; intros fs; simpl; [done|].
  rewrite IH. unfold record_of. simpl. by destruct (rename fs s t).
Qed.

(** Renames of regular files, each named once as a source and never as a
    target, onto paths that are not directories, all succeed. *)
Lemma records_all_success plan :
  forall fs,
    NoDup plan.*1 ->
    (forall s, s ∈ plan.*1 -> is_file fs s = true) ->
    (forall t, t ∈ plan.*2 -> fs !! t ≠ Some Directory) ->
    (forall s t, s ∈ plan.*1 -> t ∈ plan.*2 -> s ≠ t) ->
    Forall (fun op => status op = SUCCESS) (records posix_rename fs plan).
Proof.
  induction plan as [|[o n] plan IH]; intros fs Hnodup Hfiles Htargets Hapart;
    simpl; [constructor|].
  simpl in Hnodup. apply NoDup_cons in Hnodup as [Ho Hnodup].
  destruct (proj1 (is_file_Some fs o)) as [c Hc];
    [apply Hfiles; simpl; left|].
  assert (fs !! n ≠ Some Directory) as Hn by (apply Htargets; simpl; left).
  pose proof (posix_rename_file_ok fs o n c Hc Hn) as Hrename.
  constructor.
  - unfold record_of. simpl. by rewrite Hrename.
  - unfold rename_or_keep. simpl. rewrite Hrename. apply IH; [done| | |].
    + intros s Hs. apply is_file_Some.
      assert (s ≠ o) by (intros ->; done).
      assert (s ≠ n) by (apply Hapart; simpl; [by right | left]).
      rewrite lookup_insert_ne, lookup_delete_ne by done.
      apply is_file_Some, Hfiles. simpl. by right.
    + intros t Ht. destruct (decide (t = n)) as [->|Hne].
      * by rewrite lookup_insert_eq.
      * assert (o ≠ t) by (apply Hapart; simpl; [left | by right]).
        rewrite lookup_insert_ne, lookup_delete_ne by done.
        apply Htargets. simpl. by right.
    + intros s t Hs Ht. apply Hapart; simpl; by right.
Qed.

Lemma length_filter_all {A : Type} (P : A -> Prop) `{forall x, Decision (P x)}
    (l : list A) :
  Forall P l -> length (filter P l) = length l.
Proof.
  induction 1 as [|x l Hx Hl IH]; [done|].
  rewrite filter_cons, decide_True by done. simpl. by rewrite IH.
Qed.

Lemma clean_plan_apart fs plan s t :
  clean_plan fs plan -> s ∈ plan.*1 -> t ∈ plan.*2 -> s ≠ t.
Proof.
  intros (_ & _ & Hfiles & Hfree & _) Hs%Hfiles Ht%Hfree ->.
  unfold is_file in Hs. by rewrite Ht in Hs.
Qed.

Lemma clean_plan_not_directories fs plan s :
  clean_plan fs plan -> s ∈ plan.*1 -> fs !! s ≠ Some Directory.
Proof.
  intros (_ & _ & Hfiles & _) Hs%Hfiles Hdir. unfold is_file in Hs.
  by rewrite Hdir in Hs.
Qed.

Lemma clean_plan_all_success fs plan :
  clean_plan fs plan ->
  Forall (fun op => status op = SUCCESS) (records posix_rename fs plan).
Proof.
  intros Hclean. pose proof Hclean as (Hnodup & _ & Hfiles & Hfree & _).
  apply records_all_success; [done|done| |].
  - intros t Ht. by rewrite (Hfree t Ht).
  - intros s t. by apply (clean_plan_apart fs).
Qed.

(** The first rename of a clean plan, and the plan that is left. *)
Lemma clean_plan_cons fs o n plan :
  clean_plan fs ((o, n) :: plan) ->
  exists c,
    fs !! o = Some (RegularFile c) /\ fs !! n = None /\ o ≠ n /\
    (o ∉ plan.*1) /\ (o ∉ plan.*2) /\ (n ∉ plan.*1) /\ (n ∉ plan.*2) /\
    posix_rename fs o n = Return (<[n := RegularFile c]> (delete o fs)) /\
    clean_plan (<[n := RegularFile c]> (delete o fs)) plan.
Proof.
  intros Hclean.
  pose proof Hclean as (Hnodup & Hnodup' & Hfiles & Hfree & Hparents).
  simpl in Hnodup, Hnodup'.
  apply NoDup_cons in Hnodup as [Ho Hnodup].
  apply NoDup_cons in Hnodup' as [Hn Hnodup'].
  destruct (proj1 (is_file_Some fs o)) as [c Hc];
    [apply Hfiles; simpl; left|].
  assert (fs !! n = None) as Hnone by (apply Hfree; simpl; left).
  assert (o ∉ plan.*2) as Ho'.
  { intros Hin. apply (clean_plan_apart _ _ o o Hclean); simpl;
      [left | by right | done]. }
  assert (n ∉ plan.*1) as Hn'.
  { intros Hin. apply (clean_plan_apart _ _ n n Hclean); simpl;
      [by right | left | done]. }
  exists c. repeat split; try done.
  - intros ->. by rewrite Hc in Hnone.
  - apply posix_rename_file_ok; [done | by rewrite Hnone].
  - intros s Hs. apply is_file_Some.
    rewrite lookup_insert_ne, lookup_delete_ne by (intros ->; done).
    apply is_file_Some, Hfiles. simpl. by right.
  - intros t Ht.
    rewrite lookup_insert_ne, lookup_delete_ne by (intros ->; done).
    apply Hfree. simpl. by right.
  - intros p Hp.
    assert (fs !! parent p = Some Directory) as Hdir.
    { apply Hparents.
      change (p ∈ (o :: plan.*1) ++ (n :: plan.*2)).
      apply elem_of_app in Hp as [Hp|Hp]; apply elem_of_app;
        [left|right]; by right. }
    rewrite lookup_insert_ne, lookup_delete_ne; [done| |];
      intros Heq; rewrite Heq in *; congruence.
Qed.

(** Where a clean plan leaves each file. *)
Lemma execute_moves plan :
  forall fs,
    clean_plan fs plan ->
    forall s t, (s, t) ∈ plan ->
      foldl (rename_or_keep posix_rename) fs plan !! s = None /\
      foldl (rename_or_keep posix_rename) fs plan !! t = fs !! s.
Proof.
  induction plan as [|[o n] plan IH]; intros fs Hclean s t Hin;
    [by apply elem_of_nil in Hin|].
  destruct (clean_plan_cons _ _ _ _ Hclean)
    as (c & Hc & Hnone & Hon & Ho1 & Ho2 & Hn1 & Hn2 & Hrename & Hrest).
  simpl. unfold rename_or_keep at 2 4. simpl. rewrite Hrename.
  assert (forall q, q ∈ plan.*1 ->
            <[n := RegularFile c]> (delete o fs) !! q ≠ Some Directory)
    as Hdirs by (intros q; by apply clean_plan_not_directories).
  apply elem_of_cons in Hin as [[= -> ->]|Hin].
  - rewrite !execute_frame by done.
    rewrite lookup_insert_eq, lookup_insert_ne, lookup_delete_eq by done.
    done.
  - destruct (IH _ Hrest s t Hin) as [Hs Ht]. split; [done|].
    rewrite Ht.
    assert (s ∈ plan.*1) as Hs1
      by (apply list_elem_of_fmap; by exists (s, t)).
    rewrite lookup_insert_ne, lookup_delete_ne by (intros ->; done).
    done.
Qed.

(** The restore of a clean plan, run on a disk that agrees with the
    renamed one on the targets: every record is attempted and succeeds,
    every source is back, every target is free, nothing else moves. *)
Lemma restore_clean_plan plan :
  forall fs fsR attempted restored errors,
    clean_plan fs plan ->
    (forall t, t ∈ plan.*2 ->
       fsR !! t = foldl (rename_or_keep posix_rename) fs plan !! t) ->
    (forall s, s ∈ plan.*1 -> fsR !! s ≠ Some Directory) ->
    foldl (restore_step posix_rename) (fsR, attempted, restored, errors)
          (records posix_rename fs plan)
    = (restore_fs posix_rename fsR (records posix_rename fs plan),
       attempted ++ records posix_rename fs plan,
       restored + length plan, errors) /\
    forall p,
      restore_fs posix_rename fsR (records posix_rename fs plan) !! p
      = if decide (p ∈ plan.*1) then fs !! p
        else if decide (p ∈ plan.*2) then None else fsR !! p.
Proof.
  induction plan as [|[o n] plan IH];
    intros fs fsR attempted restored errors Hclean Htargets Hsources.
  { simpl. rewrite app_nil_r, Nat.add_0_r. split; [done|]. intros p.
    destruct (decide (p ∈ [])) as [Hp%elem_of_nil|_]; [done|].
    by destruct (decide (p ∈ [])) as [Hp%elem_of_nil|_]. }
  destruct (clean_plan_cons _ _ _ _ Hclean)
    as (c & Hc & Hnone & Hon & Ho1 & Ho2 & Hn1 & Hn2 & Hrename & Hrest).
  set (fs1 := <[n := RegularFile c]> (delete o fs)) in *.
  assert (forall q, q ∈ plan.*1 -> fs1 !! q ≠ Some Directory)
    as Hdirs by (intros q; by apply clean_plan_not_directories).
  assert (foldl (rename_or_keep posix_rename) fs ((o, n) :: plan)
          = foldl (rename_or_keep posix_rename) fs1 plan) as Hrun.
  { simpl. unfold rename_or_keep at 2. simpl. by rewrite Hrename. }
  assert (fsR !! n = Some (RegularFile c)) as HnR.
  { rewrite Htargets by (simpl; left). rewrite Hrun, execute_frame by done.
    unfold fs1. by rewrite lookup_insert_eq. }
  assert (fsR !! o ≠ Some Directory) as HoR by (apply Hsources; simpl; left).
  pose proof (posix_rename_file_ok fsR n o c HnR HoR) as Hback.
  set (fsR' := <[o := RegularFile c]> (delete n fsR)) in *.
  assert (records posix_rename fs ((o, n) :: plan)
          = mkOperation (name o) (name n) o n SUCCESS None
            :: records posix_rename fs1 plan) as Hrecords.
  { simpl. unfold record_of, rename_or_keep. simpl. by rewrite Hrename. }
  rewrite Hrecords.
  assert (restore_fs_step posix_rename fsR
            (mkOperation (name o) (name n) o n SUCCESS None) = fsR') as Hstep.
  { unfold restore_fs_step, path_exists, rename_or_keep. simpl.
    by rewrite HnR, Hback. }
  destruct (IH fs1 fsR' (attempted ++ [mkOperation (name o) (name n) o n
                                         SUCCESS None])
               (S restored) errors Hrest) as [Hloop Hlookup].
  { intros t Ht. unfold fsR'.
    rewrite lookup_insert_ne, lookup_delete_ne by (intros ->; done).
    rewrite <- Hrun. apply Htargets. simpl. by right. }
  { intros s Hs. unfold fsR'.
    assert (s ≠ o) by (intros ->; done).
    assert (s ≠ n) by (intros ->; done).
    rewrite lookup_insert_ne, lookup_delete_ne by done.
    apply Hsources. simpl. by right. }
  split.
  - cbn [foldl]. unfold restore_step at 2. cbn [is_success status new_path old_path].
    unfold path_exists. rewrite HnR. simpl. rewrite Hback.
    fold fsR'. rewrite Hloop. unfold restore_fs. cbn [foldl]. rewrite Hstep.
    rewrite <- app_assoc. simpl. by rewrite Nat.add_succ_r.
  - intros p. unfold restore_fs. cbn [foldl]. rewrite Hstep.
    fold (restore_fs posix_rename fsR' (records posix_rename fs1 plan)).
    rewrite Hlookup.
    change (((o, n) :: plan).*1) with (o :: plan.*1).
    change (((o, n) :: plan).*2) with (n :: plan.*2).
    destruct (decide (p ∈ plan.*1)) as [Hp1|Hp1].
    { destruct (decide (p ∈ o :: plan.*1)) as [_|Hnot];
        [|exfalso; apply Hnot; by right].
      unfold fs1.
      rewrite lookup_insert_ne, lookup_delete_ne by (intros ->; done). done. }
    destruct (decide (p = o)) as [->|Hpo].
    { destruct (decide (o ∈ o :: plan.*1)) as [_|Hnot];
        [|exfalso; apply Hnot; left].
      destruct (decide (o ∈ plan.*2)) as [?|_]; [done|].
      unfold fsR'. by rewrite lookup_insert_eq. }
    destruct (decide (p ∈ o :: plan.*1)) as [[?|?]%elem_of_cons|_];
      [done|done|].
    destruct (decide (p ∈ plan.*2)) as [Hp2|Hp2].
    { destruct (decide (p ∈ n :: plan.*2)) as [_|Hnot];
        [done | exfalso; apply Hnot; by right]. }
    destruct (decide (p = n)) as [->|Hpn].
    { destruct (decide (n ∈ n :: plan.*2)) as [_|Hnot];
        [|exfalso; apply Hnot; left].
      unfold fsR'. by rewrite lookup_insert_ne, lookup_delete_eq. }
    destruct (decide (p ∈ n :: plan.*2)) as [[?|?]%elem_of_cons|_];
      [done|done|].
    unfold fsR'. by rewrite lookup_insert_ne, lookup_delete_ne.
Qed.

(** A restore finds nothing to do where the target of every success
    record is free. *)
Lemma restore_nothing_to_do rename ops :
  forall fs attempted restored errors,
    (forall op, op ∈ ops -> status op = SUCCESS -> fs !! new_path op = None) ->
    foldl (restore_step rename) (fs, attempted, restored, errors) ops
    = (fs, attempted, restored, errors).
Proof.
  induction ops as [|op ops IH]; intros fs attempted restored errors Hfree;
    [done|].
  cbn [foldl]. assert (restore_step rename (fs, attempted, restored, errors) op
                       = (fs, attempted, restored, errors)) as ->.
  { unfold restore_step. destruct (is_success op) eqn:Hs; [|done].
    unfold path_exists. rewrite Hfree; [done|by left|].
    unfold is_success in Hs. by apply bool_decide_eq_true in Hs. }
  apply IH. intros op' Hop'. apply Hfree. by right.
Qed.

(** *** Renames that need the folder of their target

    path_rename is posix_rename where the directory of the destination is
    there, and raises where it is not. *)

Lemma path_rename_posix fs s t :
  fs !! parent t = Some Directory ->
  path_rename fs s t = posix_rename fs s t.
Proof.
  intros Hdir. unfold path_rename. rewrite Hdir.
  destruct (fs !! s) eqn:Hs; [done|]. unfold posix_rename. by rewrite Hs.
Qed.

Lemma path_rename_no_directory fs s t :
  fs !! parent t ≠ Some Directory -> exists e, path_rename fs s t = Raise e.
Proof.
  intros Hdir. unfold path_rename. destruct (fs !! s); [|eauto].
  destruct (fs !! parent t) as [[c|]|]; [eauto|done|eauto].
Qed.

(** A plan into a folder that is not there: the rename is refused and
    recorded, and nothing is counted. *)
Example execute_rename_into_missing_folder :
  let plan := [(Shoot.img1, Shoot.raw_dir ++ ["sub"; "Wedding_042.CR2"])] in
  let run := execute_rename path_rename Shoot.paired Shoot.disk plan
               Shoot.stamp Shoot.iso in
  run.2 = Return (0, str Shoot.backup) /\
  run.1.2 !! Shoot.img1 = Some (RegularFile (Image 1)) /\
  status <$> records path_rename Shoot.disk plan = [ERROR].
Proof. by vm_compute. Qed.

Lemma write_json_ok fs p doc :
  fs !! p ≠ Some Directory ->
  fs !! parent p = Some Directory ->
  write_json fs p doc = Return (written fs p doc).
Proof. unfold write_json. intros Hp ->. by destruct (fs !! p) as [[c|]|]. Qed.

Lemma log_path_parent self stamp :
  parent (log_path self stamp) = raw_folder_path self.
Proof. unfold log_path. cbv zeta. by rewrite parent_joinpath. Qed.

Lemma execute_loop_files plan :
  forall fs ops k,
    (forall s, s ∈ plan.*1 -> fs !! s ≠ Some Directory) ->
    (forall t, t ∈ plan.*2 -> fs !! parent t = Some Directory) ->
    foldl (execute_step path_rename) (fs, ops, k) plan
    = foldl (execute_step posix_rename) (fs, ops, k) plan.
Proof.
  induction plan as [|[o n] plan IH]; intros fs ops k Hfiles Hdirs; [done|].
  assert (fs !! o ≠ Some Directory) as Ho by (apply Hfiles; simpl; left).
  cbn [foldl].
  assert (execute_step path_rename (fs, ops, k) (o, n)
          = execute_step posix_rename (fs, ops, k) (o, n)) as ->.
  { simpl. rewrite path_rename_posix; [done|]. apply Hdirs. simpl. left. }
  rewrite execute_step_components. apply IH.
  - intros s Hs. rewrite rename_or_keep_directories by done.
    apply Hfiles. simpl. by right.
  - intros t Ht. apply rename_or_keep_directories; [done|].
    apply Hdirs. simpl. by right.
Qed.

(** A run in which every source is a regular file or missing and every
    target lies in a directory: the renames of rename(2), and then the
    write of the log. *)
Lemma execute_rename_files self fs plan stamp iso :
  (forall s, s ∈ plan.*1 -> fs !! s ≠ Some Directory) ->
  (forall t, t ∈ plan.*2 -> fs !! parent t = Some Directory) ->
  execute_rename path_rename self fs plan stamp iso
  = execute_rename posix_rename self fs plan stamp iso.
Proof.
  intros Hfiles Hdirs. unfold execute_rename.
  by rewrite execute_loop_files.
Qed.

Lemma restore_loop_files ops :
  forall fs attempted restored errors,
    (forall op, op ∈ ops -> status op = SUCCESS ->
       fs !! new_path op ≠ Some Directory /\
       fs !! parent (old_path op) = Some Directory) ->
    foldl (restore_step path_rename) (fs, attempted, restored, errors) ops
    = foldl (restore_step posix_rename) (fs, attempted, restored, errors) ops.
Proof.
  induction ops as [|op ops IH]; intros fs attempted restored errors Hops;
    [done|].
  cbn [foldl].
  assert (restore_step path_rename (fs, attempted, restored, errors) op
          = restore_step posix_rename (fs, attempted, restored, errors) op)
    as ->.
  { unfold restore_step. destruct (is_success op) eqn:Hok; [|done].
    destruct (path_exists fs (new_path op)); [|done].
    rewrite path_rename_posix; [done|]. apply Hops; [left|].
    unfold is_success in Hok. by apply bool_decide_eq_true in Hok. }
  destruct (restore_step_components posix_rename fs attempted restored
              errors op) as (more & restored' & errors' & -> & _).
  apply IH. intros op' Hin Hok'.
  assert (status op = SUCCESS -> fs !! new_path op ≠ Some Directory)
    as Hfile by (intros Hok; apply Hops; [left|done]).
  destruct (Hops op') as [Hnew Hold]; [by right|done|].
  split.
  - by rewrite restore_fs_step_directories.
  - by apply restore_fs_step_directories.
Qed.

(** The run of a clean plan, with the log at a path of its own in a RAW
    folder that is there. *)
Lemma execute_rename_clean self fs plan stamp iso :
  clean_plan fs plan ->
  log_path self stamp ∉ plan.*1 ->
  log_path self stamp ∉ plan.*2 ->
  fs !! raw_folder_path self = Some Directory ->
  fs !! log_path self stamp ≠ Some Directory ->
  let log := log_path self stamp in
  let doc := mkBackupData iso (str (raw_folder_path self))
                          (str (jpg_folder_path self))
                          (records posix_rename fs plan) in
  execute_rename path_rename self fs plan stamp iso
  = (set_log_file (Some log) self,
     written (foldl (rename_or_keep posix_rename) fs plan) log doc,
     Return (length plan, str log)).
Proof.
  intros Hclean Hlog1 Hlog2 Hraw Hlog. cbv zeta.
  assert (forall s, s ∈ plan.*1 -> fs !! s ≠ Some Directory) as Hfiles
    by (intros s; by apply clean_plan_not_directories).
  rewrite execute_rename_files; [|done|].
  2:{ intros t Ht. apply Hclean, elem_of_app. by right. }
  rewrite execute_rename_run. cbv zeta. rewrite write_json_ok.
  - by rewrite length_filter_all, length_records
      by (by apply clean_plan_all_success).
  - by rewrite execute_frame.
  - rewrite log_path_parent. by apply execute_directories.
Qed.

(** X2.  On a clean plan, with renames that need the folder of their
    target, execute_rename fails nowhere, provided the log file has a path
    of its own and can be written (the RAW folder is a directory and no
    directory sits at the path of the log): it returns the length of the
    plan, every file is at its target with the content it had at its
    source, the source paths are free, every other path but the log is as
    it was, and the log holds one success record per operation, in plan
    order. *)
Theorem execute_rename_moves_files
    (self : FileRenamerCore) (fs : FS) (plan : list (Path * Path))
    (stamp iso : string) :
  clean_plan fs plan ->
  log_path self stamp ∉ plan.*1 ->
  log_path self stamp ∉ plan.*2 ->
  fs !! raw_folder_path self = Some Directory ->
  fs !! log_path self stamp ≠ Some Directory ->
  let run := execute_rename path_rename self fs plan stamp iso in
  run.2 = Return (length plan, str (log_path self stamp)) /\
  (forall s t, (s, t) ∈ plan ->
     run.1.2 !! s = None /\ run.1.2 !! t = fs !! s) /\
  (forall p, p ∉ plan.*1 -> p ∉ plan.*2 -> p ≠ log_path self stamp ->
     run.1.2 !! p = fs !! p) /\
  exists doc,
    read_json run.1.2 (log_path self stamp) = Return doc /\
    Forall (fun op => status op = SUCCESS) (operations doc) /\
    (fun op => (old_path op, new_path op)) <$> operations doc = plan.
Proof.
  intros Hclean Hlog1 Hlog2 Hraw Hlog. cbv zeta.
  rewrite execute_rename_clean by done. simpl.
  pose proof (clean_plan_all_success fs plan Hclean) as Hall.
  split; [done|]. split; [|split].
  - intros s t Hin. unfold written.
    assert (s ∈ plan.*1) by (apply list_elem_of_fmap; by exists (s, t)).
    assert (t ∈ plan.*2) by (apply list_elem_of_fmap; by exists (s, t)).
    rewrite !lookup_insert_ne by (intros <-; done).
    by apply execute_moves.
  - intros p Hp1 Hp2 Hp. unfold written.
    rewrite lookup_insert_ne by done. apply execute_frame; [done|done|].
    intros s. by apply clean_plan_not_directories.
  - eexists. split; [|split].
    + unfold read_json, written. by rewrite lookup_insert_eq.
    + exact Hall.
    + simpl. clear. revert fs.
      induction plan as [|[s t] plan IH]; intros fs; simpl; [done|].
      rewrite IH. unfold record_of. simpl. by destruct (posix_rename fs s t).
Qed.

Lemma shoot_safe_plan_clean : clean_plan Shoot.disk Shoot.safe_plan.
Proof.
  split; [|split; [|split; [|split]]].
  - apply (bool_decide_unpack _). vm_compute. exact I.
  - apply (bool_decide_unpack _). vm_compute. exact I.
  - apply Forall_forall. vm_compute. repeat constructor.
  - apply Forall_forall. vm_compute. repeat constructor.
  - apply Forall_forall. vm_compute. repeat constructor.
Defined.

Lemma shoot_safe_plan_log :
  (log_path Shoot.paired Shoot.stamp ∉ Shoot.safe_plan.*1) /\
  (log_path Shoot.paired Shoot.stamp ∉ Shoot.safe_plan.*2).
Proof. split; apply (bool_decide_unpack _); vm_compute; exact I. Defined.

Lemma shoot_log_can_be_written :
  Shoot.disk !! raw_folder_path Shoot.paired = Some Directory /\
  Shoot.disk !! log_path Shoot.paired Shoot.stamp ≠ Some Directory.
Proof. split; [reflexivity|]. vm_compute. discriminate. Defined.

Lemma execute_rename_moves_files_shoot :
  clean_plan Shoot.disk Shoot.safe_plan /\
  (execute_rename path_rename Shoot.paired Shoot.disk Shoot.safe_plan
     Shoot.stamp Shoot.iso).2 = Return (2, str Shoot.backup) /\
  (execute_rename path_rename Shoot.paired Shoot.disk Shoot.safe_plan
     Shoot.stamp Shoot.iso).1.2 !! (Shoot.raw_dir ++ ["Wedding_042.CR2"])
  = Some (RegularFile (Image 2)).
Proof.
  split; [exact shoot_safe_plan_clean|].
  destruct (execute_rename_moves_files Shoot.paired Shoot.disk Shoot.safe_plan
              Shoot.stamp Shoot.iso shoot_safe_plan_clean
              (proj1 shoot_safe_plan_log) (proj2 shoot_safe_plan_log)
              (proj1 shoot_log_can_be_written)
              (proj2 shoot_log_can_be_written))
    as (Hcount & Hmoved & _).
  split; [exact Hcount|].
  refine (proj2 (Hmoved Shoot.img2 _ _)).
  apply (bool_decide_unpack _). vm_compute. exact I.
Defined.

(** The restore loop on the disk a clean plan left behind, with the log at
    a path of its own. *)
Lemma restore_operations_clean fs plan log doc :
  clean_plan fs plan ->
  log ∉ plan.*1 ->
  log ∉ plan.*2 ->
  restore_operations posix_rename
    (written (foldl (rename_or_keep posix_rename) fs plan) log doc)
    (records posix_rename fs plan)
  = (written fs log doc, records posix_rename fs plan, length plan, []).
Proof.
  intros Hclean Hlog1 Hlog2.
  set (fs1 := written _ log doc).
  destruct (restore_clean_plan plan fs fs1 [] 0 [] Hclean) as [Hloop Hlookup].
  { intros t Ht. unfold fs1, written.
    by rewrite lookup_insert_ne by (intros <-; done). }
  { intros s Hs. unfold fs1, written.
    rewrite lookup_insert_ne by (intros <-; done).
    intros Hdir%execute_directories.
    - by apply (clean_plan_not_directories fs plan s).
    - intros q. by apply clean_plan_not_directories. }
  unfold restore_operations. rewrite Hloop. simpl. f_equal. f_equal. f_equal.
  apply map_eq. intros p. rewrite Hlookup.
  destruct Hclean as (_ & _ & Hfiles & Hfree & _). unfold written.
  destruct (decide (p ∈ plan.*1)) as [Hp1|Hp1];
    [by rewrite lookup_insert_ne by (intros <-; done)|].
  destruct (decide (p ∈ plan.*2)) as [Hp2|Hp2].
  { rewrite lookup_insert_ne by (intros <-; done). by rewrite Hfree. }
  unfold fs1, written. destruct (decide (p = log)) as [->|Hp].
  - by rewrite !lookup_insert_eq.
  - rewrite !lookup_insert_ne by done. apply execute_frame; [done|done|].
    intros s Hs%Hfiles Hdir. unfold is_file in Hs. by rewrite Hdir in Hs.
Qed.

(** The same loop with renames that need the folder of their target. *)
Lemma restore_operations_clean_path fs plan log doc :
  clean_plan fs plan ->
  log ∉ plan.*1 ->
  log ∉ plan.*2 ->
  fs !! log ≠ Some Directory ->
  restore_operations path_rename
    (written (foldl (rename_or_keep posix_rename) fs plan) log doc)
    (records posix_rename fs plan)
  = (written fs log doc, records posix_rename fs plan, length plan, []).
Proof.
  intros Hclean Hlog1 Hlog2 Hlog.
  rewrite <- (restore_operations_clean fs plan log doc) by done.
  unfold restore_operations. apply restore_loop_files.
  intros op Hop Hok.
  destruct (records_paths _ _ _ _ Hop) as [Hold Hnew].
  assert (forall s, s ∈ plan.*1 -> fs !! s ≠ Some Directory) as Hfiles
    by (intros s; by apply clean_plan_not_directories).
  pose proof Hclean as (_ & _ & _ & Hfree & Hparents).
  assert (fs !! parent (old_path op) = Some Directory) as Hdir
    by (apply Hparents, elem_of_app; by left).
  unfold written. split.
  - rewrite lookup_insert_ne by (intros Heq; by rewrite Heq in Hlog2).
    rewrite execute_directories by done. by rewrite Hfree.
  - rewrite lookup_insert_ne by (intros Heq; by rewrite Heq in Hlog).
    by apply execute_directories.
Qed.

(** X3.  Undo is exact on a clean plan, with renames that need the folder
    of their target and a log file that has a path of its own and can be
    written: restore_backup, given the log that execute_rename wrote,
    attempts every record, reports as many restored files as the plan had
    operations and no error, and leaves the disk as it was before the
    renames, with the log file as the one addition. *)
Theorem restore_backup_undoes_execute_rename
    (self : FileRenamerCore) (fs : FS) (plan : list (Path * Path))
    (stamp iso : string) :
  clean_plan fs plan ->
  log_path self stamp ∉ plan.*1 ->
  log_path self stamp ∉ plan.*2 ->
  fs !! raw_folder_path self = Some Directory ->
  fs !! log_path self stamp ≠ Some Directory ->
  let log := log_path self stamp in
  let run := execute_rename path_rename self fs plan stamp iso in
  exists doc,
    run.2 = Return (length plan, str log) /\
    read_json run.1.2 log = Return doc /\
    restore_backup path_rename run.1.2 (Some log)
    = (written fs log doc, operations doc, Restored (length plan) []).
Proof.
  intros Hclean Hlog1 Hlog2 Hraw Hlog. cbv zeta.
  rewrite execute_rename_clean by done. simpl.
  set (log := log_path self stamp).
  set (doc := mkBackupData _ _ _ _).
  assert (read_json (written (foldl (rename_or_keep posix_rename) fs plan)
                       log doc) log = Return doc) as Hread
    by (unfold read_json, written; by rewrite lookup_insert_eq).
  exists doc. split; [done|]. split; [done|].
  unfold restore_backup. rewrite Hread.
  change (operations doc) with (records posix_rename fs plan).
  by rewrite restore_operations_clean_path.
Qed.

Lemma restore_backup_undoes_execute_rename_shoot :
  clean_plan Shoot.disk Shoot.safe_plan /\
  let run := execute_rename path_rename Shoot.paired Shoot.disk
               Shoot.safe_plan Shoot.stamp Shoot.iso in
  exists doc,
    run.2 = Return (2, str Shoot.backup) /\
    read_json run.1.2 Shoot.backup = Return doc /\
    restore_backup path_rename run.1.2 (Some Shoot.backup)
    = (written Shoot.disk Shoot.backup doc, operations doc, Restored 2 []).
Proof.
  split; [exact shoot_safe_plan_clean|].
  exact (restore_backup_undoes_execute_rename Shoot.paired Shoot.disk
           Shoot.safe_plan Shoot.stamp Shoot.iso shoot_safe_plan_clean
           (proj1 shoot_safe_plan_log) (proj2 shoot_safe_plan_log)
           (proj1 shoot_log_can_be_written)
           (proj2 shoot_log_can_be_written)).
Defined.

(** ** The log file *)

Lemma string_app_assoc (a b c : string) : (a +:+ b) +:+ c = a +:+ (b +:+ c).
Proof.
  induction a as [|x a IH]; [done|].
  change (String x ((a +:+ b) +:+ c) = String x (a +:+ b +:+ c)).
  by rewrite IH.
Qed.

Lemma log_path_parts self stamp :
  parent (log_path self stamp) = raw_folder_path self /\
  name (log_path self stamp) = "rename_backup_" +:+ stamp +:+ ".json" /\
  suffix (log_path self stamp) = ".json".
Proof.
  unfold log_path. cbv zeta.
  rewrite parent_joinpath, name_joinpath by done.
  split; [done|]. split; [done|].
  apply (suffix_of_name _ ("rename_backup_" +:+ stamp) "json"); try done.
  rewrite name_joinpath by done. by rewrite string_app_assoc.
Qed.

Lemma json_is_no_image :
  (lower ".json" ∉ RAW_EXTENSIONS) /\ (lower ".json" ∉ JPG_EXTENSIONS).
Proof. split; apply (bool_decide_unpack _); vm_compute; exact I. Qed.

(** X4.  The log of execute_rename is written into the RAW folder under a
    name that ends in .json, whatever the time stamp; a later scan of any
    two folders therefore lists it neither as a RAW nor as a JPG file. *)
Theorem log_path_is_never_scanned (self : FileRenamerCore) (stamp : string) :
  parent (log_path self stamp) = raw_folder_path self /\
  name (log_path self stamp) = "rename_backup_" +:+ stamp +:+ ".json" /\
  suffix (log_path self stamp) = ".json" /\
  forall fs other,
    (log_path self stamp ∉ raw_files (scan_files fs other).1) /\
    (log_path self stamp ∉ jpg_files (scan_files fs other).1).
Proof.
  destruct (log_path_parts self stamp) as (Hparent & Hname & Hsuffix).
  repeat split; try done.
  - intros (_ & _ & _ & Hext)%scan_files_raw_listed.
    rewrite Hsuffix in Hext. by apply (proj1 json_is_no_image).
  - intros (_ & _ & _ & Hext)%scan_files_jpg_listed.
    rewrite Hsuffix in Hext. by apply (proj2 json_is_no_image).
Qed.

(** ** The engine's own plans, from scan to undo *)

Lemma generate_rename_plan_entry fs self s t :
  (s, t) ∈ generate_rename_plan fs self ->
  exists jpg sim,
    (s, jpg, sim) ∈ pairs self /\ t = target_path s jpg /\ fs !! t = None.
Proof.
  rewrite generate_rename_plan_omap, list_elem_of_omap.
  intros ([[raw jpg] sim] & Hin & Hop).
  apply plan_entry_Some in Hop as (-> & -> & Hex & _). simpl in *.
  exists jpg, sim. split; [done|]. split; [done|].
  unfold path_exists in Hex. by destruct (fs !! target_path raw jpg).
Qed.

Lemma generate_rename_plan_sources fs self :
  (generate_rename_plan fs self).*1
  `sublist_of` (fun p : MatchPair => p.1.1) <$> pairs self.
Proof.
  rewrite generate_rename_plan_omap.
  destruct (omap_sublist (plan_entry fs)
              (fun pair : MatchPair =>
                 (pair.1.1, target_path pair.1.1 pair.1.2)) (pairs self))
    as (kept & Hkept & ->).
  - intros pair [src tgt] Hop.
    by apply plan_entry_Some in Hop as (-> & -> & _).
  - rewrite <- list_fmap_compose. by apply fmap_sublist.
Qed.

Section EngineRuns.

Context {Fingerprint : Type}.
Variable calculate_image_hash : Path -> option Fingerprint.
Variable distance : Fingerprint -> Fingerprint -> Z.

Local Abbreviation engine_plan := (engine_plan calculate_image_hash distance).
Local Abbreviation find_pairs := (find_pairs calculate_image_hash distance).

Lemma engine_plan_entry fs self s t :
  (s, t) ∈ engine_plan fs self ->
  s ∈ raw_files (scan_files fs self).1 /\
  fs !! t = None /\
  exists jpg, jpg ∈ jpg_files (scan_files fs self).1 /\ t = target_path s jpg.
Proof.
  intros Hin.
  apply generate_rename_plan_entry in Hin as (jpg & sim & Hin & -> & Hnone).
  rewrite find_pairs_pairs in Hin.
  apply find_pairs_listed in Hin as [Hraw Hjpg]. by eauto.
Qed.

Lemma engine_plan_sources_listed fs self :
  (engine_plan fs self).*1 `sublist_of` raw_files (scan_files fs self).1.
Proof.
  etrans; [apply generate_rename_plan_sources|].
  rewrite find_pairs_pairs. apply find_pairs_raws_sublist.
Qed.

Lemma engine_plan_sources_once fs self : NoDup (engine_plan fs self).*1.
Proof.
  eapply sublist_NoDup; [apply (proj1 (scan_files_no_repeats fs self))|].
  apply engine_plan_sources_listed.
Qed.

Lemma engine_plan_target_parts fs self s t :
  (s, t) ∈ engine_plan fs self ->
  parent t = raw_folder_path self /\ suffix t = suffix s /\
  lower (suffix t) ∈ RAW_EXTENSIONS /\
  exists jpg,
    jpg ∈ jpg_files (scan_files fs self).1 /\
    name t = stem jpg +:+ suffix s /\ stem t = stem jpg.
Proof.
  intros (Hraw & _ & jpg & Hjpg & ->)%engine_plan_entry.
  apply scan_files_raw_listed in Hraw as (_ & Hparent & _ & Hext).
  pose proof Hjpg as (_ & _ & _ & Hext')%scan_files_jpg_listed.
  destruct (target_path_parts s jpg) as (Hp & Hn & Hs & Ht).
  { by apply raw_extension_nonempty. }
  { by apply suffix_needs_name, jpg_extension_nonempty. }
  rewrite Hp, Hs. repeat split; try done. by exists jpg.
Qed.

Lemma engine_plan_clean fs self :
  NoDup (engine_plan fs self).*2 -> clean_plan fs (engine_plan fs self).
Proof.
  intros Hnodup. split; [apply engine_plan_sources_once|].
  split; [done|]. split; [|split].
  - apply engine_plan_sources.
  - apply engine_plan_targets.
  - intros p [Hp|Hp]%elem_of_app;
      apply list_elem_of_fmap in Hp as ([s t] & -> & Hin); simpl;
      pose proof Hin as (Hraw & _)%engine_plan_entry;
      pose proof (scan_files_raw_folder _ _ _ Hraw) as Hdir.
    + by apply scan_files_raw_listed in Hraw as (_ & -> & _).
    + by apply engine_plan_target_parts in Hin as (-> & _).
Qed.

Lemma engine_log_not_planned fs self other stamp :
  (log_path other stamp ∉ (engine_plan fs self).*1) /\
  (log_path other stamp ∉ (engine_plan fs self).*2).
Proof.
  destruct (log_path_parts other stamp) as (_ & _ & Hsuffix).
  split; intros ([s t] & Heq & Hin)%list_elem_of_fmap; simpl in Heq.
  - apply engine_plan_entry in Hin as (Hraw & _).
    apply scan_files_raw_listed in Hraw as (_ & _ & _ & Hext).
    rewrite <- Heq, Hsuffix in Hext. by apply (proj1 json_is_no_image).
  - apply engine_plan_target_parts in Hin as (_ & _ & Hext & _).
    rewrite <- Heq, Hsuffix in Hext. by apply (proj1 json_is_no_image).
Qed.

(** X5.  What the engine plans, from scan to plan on one disk: the
    sources are RAW files of the scan, in scan order, and none is renamed
    twice; every target lies in the RAW folder, is named by the stem of a
    scanned JPG followed by the suffix of its source, letter case kept, and
    so still counts as a RAW file. *)
Theorem engine_plan_renames_within_raw_folder
    (fs : FS) (self : FileRenamerCore) :
  let scanned := (scan_files fs self).1 in
  (engine_plan fs self).*1 `sublist_of` raw_files scanned /\
  NoDup (engine_plan fs self).*1 /\
  Forall (fun op : Path * Path =>
            parent op.1 = raw_folder_path self /\
            parent op.2 = raw_folder_path self /\
            suffix op.2 = suffix op.1 /\
            lower (suffix op.2) ∈ RAW_EXTENSIONS /\
            exists jpg,
              jpg ∈ jpg_files scanned /\
              name op.2 = stem jpg +:+ suffix op.1 /\ stem op.2 = stem jpg)
         (engine_plan fs self).
Proof.
  simpl. split; [apply engine_plan_sources_listed|].
  split; [apply engine_plan_sources_once|].
  apply Forall_forall. intros [s t] Hin. simpl.
  pose proof (engine_plan_entry _ _ _ _ Hin) as (Hraw & _).
  pose proof (scan_files_raw_listed _ _ _ Hraw) as (_ & Hparent & _).
  destruct (engine_plan_target_parts _ _ _ _ Hin)
    as (Hp & Hs & Hext & jpg & Hjpg & Hname & Hstem).
  repeat split; try done. by exists jpg.
Qed.

Lemma engine_paired_folders fs self :
  let paired := (find_pairs (scan_files fs self).1).1 in
  raw_folder_path paired = raw_folder_path self /\
  jpg_folder_path paired = jpg_folder_path self.
Proof.
  cbv zeta. rewrite find_pairs_spec. cbv zeta. cbn [fst set_pairs
    raw_folder_path jpg_folder_path]. apply scan_files_folders.
Qed.

Lemma engine_plan_parents fs self t :
  t ∈ (engine_plan fs self).*2 -> fs !! parent t = Some Directory.
Proof.
  intros ([s t'] & -> & Hin)%list_elem_of_fmap. simpl.
  pose proof Hin as (Hraw & _)%engine_plan_entry.
  apply engine_plan_target_parts in Hin as (-> & _).
  by apply scan_files_raw_folder in Hraw.
Qed.

(** The run of the engine's plan where the log can be written: the renames
    of rename(2), none refused for the folder of its target, and the log
    in the RAW folder. *)
Lemma engine_run fs self stamp iso :
  fs !! raw_folder_path self = Some Directory ->
  fs !! log_path self stamp ≠ Some Directory ->
  let paired := (find_pairs (scan_files fs self).1).1 in
  let log := log_path self stamp in
  let ops := records posix_rename fs (engine_plan fs self) in
  let doc := mkBackupData iso (str (raw_folder_path self))
                          (str (jpg_folder_path self)) ops in
  log_path paired stamp = log /\
  execute_rename path_rename paired fs (engine_plan fs self) stamp iso
  = (set_log_file (Some log) paired,
     written (foldl (rename_or_keep posix_rename) fs (engine_plan fs self))
             log doc,
     Return (length (filter (fun o => status o = SUCCESS) ops), str log)).
Proof.
  intros Hraw Hlog. cbv zeta.
  destruct (engine_paired_folders fs self) as [Hfolder Hfolder'].
  assert (log_path (find_pairs (scan_files fs self).1).1 stamp
          = log_path self stamp) as Hsame
    by (unfold log_path; cbv zeta; by rewrite Hfolder).
  split; [done|].
  destruct (engine_log_not_planned fs self self stamp) as [Hlog1 Hlog2].
  rewrite execute_rename_files;
    [|apply engine_plan_not_directories|apply engine_plan_parents].
  rewrite execute_rename_run. cbv zeta. rewrite Hsame, Hfolder, Hfolder'.
  rewrite write_json_ok; [done| |].
  - rewrite execute_frame; [done|done|done|].
    apply engine_plan_not_directories.
  - rewrite log_path_parent. apply execute_directories; [|done].
    apply engine_plan_not_directories.
Qed.

(** X6.  On the disk it was made for, the engine's plan runs without a
    failure under rename(2), the folder of each target included, provided
    the log can be written (the RAW folder is a directory and no directory
    sits at the path of the log): execute_rename returns the length of the
    plan and the log it writes holds one record per operation, each a
    success. *)
Theorem engine_plan_executes_fully
    (fs : FS) (self : FileRenamerCore) (stamp iso : string) :
  fs !! raw_folder_path self = Some Directory ->
  fs !! log_path self stamp ≠ Some Directory ->
  let paired := (find_pairs (scan_files fs self).1).1 in
  let run :=
    execute_rename path_rename paired fs (engine_plan fs self) stamp iso in
  run.2 = Return (length (engine_plan fs self), str (log_path paired stamp)) /\
  exists doc,
    read_json run.1.2 (log_path paired stamp) = Return doc /\
    length (operations doc) = length (engine_plan fs self) /\
    Forall (fun op => status op = SUCCESS /\ error op = None)
           (operations doc).
Proof.
  intros Hraw Hlog. cbv zeta.
  destruct (engine_run fs self stamp iso Hraw Hlog) as [-> ->].
  cbn [fst snd].
  assert (Forall (fun op => status op = SUCCESS)
            (records posix_rename fs (engine_plan fs self))) as Hall.
  { apply records_all_success.
    - apply engine_plan_sources_once.
    - apply engine_plan_sources.
    - intros t Ht. by rewrite (engine_plan_targets _ _ _ _ _ Ht).
    - apply engine_plan_disjoint. }
  split; [by rewrite length_filter_all, length_records|].
  eexists. split; [|split].
  - unfold read_json, written. by rewrite lookup_insert_eq.
  - simpl. apply length_records.
  - simpl. revert Hall. generalize (engine_plan fs self) as plan.
    intros plan. clear. revert fs.
    induction plan as [|[s t] plan IH]; intros fs;
      simpl; [constructor|].
    intros [Hop Hrest]%Forall_cons. constructor; [|by apply IH].
    split; [done|]. revert Hop. unfold record_of. simpl.
    by destruct (posix_rename fs s t).
Qed.

(** A path that the plan does not name, and that is not the log path, is
    the same before the run, after the run and after the undo. *)
Lemma engine_run_frame fs self (paired : FileRenamerCore) stamp iso p :
  p ∉ (engine_plan fs self).*1 ->
  p ∉ (engine_plan fs self).*2 ->
  p ≠ log_path paired stamp ->
  let run :=
    execute_rename posix_rename paired fs (engine_plan fs self) stamp iso in
  run.1.2 !! p = fs !! p /\
  (restore_backup posix_rename run.1.2 (Some (log_path paired stamp))).1.1 !! p
  = fs !! p.
Proof.
  intros Hp1 Hp2 Hne. cbv zeta.
  assert (foldl (rename_or_keep posix_rename) fs (engine_plan fs self) !! p
          = fs !! p) as Hframe
    by (apply execute_frame; [done|done|]; apply engine_plan_not_directories).
  destruct (execute_rename_cases posix_rename paired fs (engine_plan fs self)
              stamp iso) as [(-> & _)|(e & e' & -> & Hfails & _)];
    cbn [fst snd].
  2:{ split; [done|]. unfold restore_backup. by rewrite Hfails. }
  set (log := log_path paired stamp) in *.
  set (ops := records posix_rename fs (engine_plan fs self)).
  set (doc := mkBackupData _ _ _ ops).
  set (fs1 := written _ log doc).
  assert (fs1 !! p = fs !! p) as Hrun
    by (unfold fs1, written; by rewrite lookup_insert_ne by done).
  split; [done|].
  assert (read_json fs1 log = Return doc) as Hread
    by (unfold read_json, fs1, written; by rewrite lookup_insert_eq).
  rewrite (proj1 (restore_backup_run posix_rename fs1 log doc Hread)).
  rewrite restore_frame; [done|].
  intros op Hop _. apply records_paths in Hop as [Hold Hnew].
  destruct (engine_log_not_planned fs self paired stamp) as [Hlog1 Hlog2].
  split; [intros Heq; by rewrite Heq in Hnew|].
  split; [intros Heq; by rewrite Heq in Hold|].
  unfold fs1, written.
  rewrite lookup_insert_ne by (intros Heq; by rewrite <- Heq in Hnew).
  intros Hdir%execute_directories;
    [|apply engine_plan_not_directories].
  by rewrite (engine_plan_targets _ _ _ _ _ Hnew) in Hdir.
Qed.

(** X7.  A run touches nothing but its own sources.  Whatever was on the
    disk before execute_rename ran the engine's plan, and is neither a
    source of the plan nor at the path of the log, is there with the same
    content after the run, and again after restore_backup has read the log
    back; the JPG files of the scan are among these, so they are never
    renamed, replaced or removed. *)
Theorem engine_keeps_jpg_files
    (fs : FS) (self : FileRenamerCore) (stamp iso : string) :
  let scanned := (scan_files fs self).1 in
  let paired := (find_pairs scanned).1 in
  let run :=
    execute_rename posix_rename paired fs (engine_plan fs self) stamp iso in
  let undone :=
    restore_backup posix_rename run.1.2 (Some (log_path paired stamp)) in
  (forall p, is_Some (fs !! p) -> p ∉ (engine_plan fs self).*1 ->
             p ≠ log_path paired stamp ->
             run.1.2 !! p = fs !! p /\ undone.1.1 !! p = fs !! p) /\
  Forall (fun jpg => run.1.2 !! jpg = fs !! jpg /\
                     undone.1.1 !! jpg = fs !! jpg)
         (jpg_files scanned).
Proof.
  cbv zeta. generalize (find_pairs (scan_files fs self).1).1 as paired.
  intros paired. split.
  - intros p [node Hnode] Hp Hne. apply engine_run_frame; [done| |done].
    intros Hin%engine_plan_targets. by rewrite Hin in Hnode.
  - apply Forall_forall. intros jpg Hjpg.
    pose proof (scan_files_jpg_listed _ _ _ Hjpg) as (_ & _ & Hfile & Hext).
    apply engine_run_frame.
    + intros ([s t] & -> & Hin)%list_elem_of_fmap. simpl in *.
      apply engine_plan_entry in Hin as (Hraw & _).
      apply scan_files_raw_listed in Hraw as (_ & _ & _ & Hraw).
      by apply (raw_extension_is_not_jpg _ Hraw).
    + intros Hin%engine_plan_targets. unfold is_file in Hfile.
      by rewrite Hin in Hfile.
    + intros Heq. destruct (log_path_parts paired stamp) as (_ & _ & Hsuffix).
      rewrite Heq, Hsuffix in Hext. by apply (proj2 json_is_no_image).
Qed.

(** X8.  Where no two operations of the engine's plan share a target
    and the log can be written (the RAW folder is a directory and no
    directory sits at the path of the log) the undo is exact, with renames
    that need the folder of their target: execute_rename returns the
    length of the plan, restore_backup on the log of the run reports every
    operation restored and no error, and the disk is as it was before the
    run, with the log file as the one addition; a second restore from the
    same log then attempts nothing and reports no file restored. *)
Theorem engine_undo_is_exact
    (fs : FS) (self : FileRenamerCore) (stamp iso : string) :
  fs !! raw_folder_path self = Some Directory ->
  fs !! log_path self stamp ≠ Some Directory ->
  NoDup (engine_plan fs self).*2 ->
  let paired := (find_pairs (scan_files fs self).1).1 in
  let log := log_path paired stamp in
  let run :=
    execute_rename path_rename paired fs (engine_plan fs self) stamp iso in
  exists doc,
    run.2 = Return (length (engine_plan fs self), str log) /\
    read_json run.1.2 log = Return doc /\
    restore_backup path_rename run.1.2 (Some log)
    = (written fs log doc, operations doc,
       Restored (length (engine_plan fs self)) []) /\
    restore_backup path_rename (written fs log doc) (Some log)
    = (written fs log doc, [], Restored 0 []).
Proof.
  intros Hraw Hlog Hnodup%engine_plan_clean. cbv zeta.
  destruct (engine_run fs self stamp iso Hraw Hlog) as [-> ->].
  cbn [fst snd].
  set (log := log_path self stamp) in *.
  destruct (engine_log_not_planned fs self self stamp) as [Hlog1 Hlog2].
  set (ops := records posix_rename fs (engine_plan fs self)).
  set (doc := mkBackupData _ _ _ ops).
  exists doc. split; [|split; [|split]].
  - unfold ops. by rewrite length_filter_all, length_records
      by (by apply clean_plan_all_success).
  - unfold read_json, written. by rewrite lookup_insert_eq.
  - unfold restore_backup, read_json, written at 1.
    rewrite lookup_insert_eq. change (operations doc) with ops.
    unfold ops. by rewrite restore_operations_clean_path.
  - unfold restore_backup, read_json, written at 1.
    rewrite lookup_insert_eq. change (operations doc) with ops.
    unfold restore_operations. rewrite restore_nothing_to_do; [done|].
    intros op Hop _. apply records_paths in Hop as [_ Hnew].
    unfold written.
    rewrite lookup_insert_ne by (intros Heq; by rewrite <- Heq in Hnew).
    by apply (proj1 (proj2 (proj2 (proj2 Hnodup)))).
Qed.

(** X9.  On the log of the engine's own plan a second restore changes
    nothing on disk, whatever the time stamp of the log and whether or not
    operations of the plan share a target. *)
Theorem engine_second_restore_changes_nothing
    (fs : FS) (self : FileRenamerCore) (stamp iso : string) :
  let paired := (find_pairs (scan_files fs self).1).1 in
  second_restore_unchanged
    (execute_rename posix_rename paired fs (engine_plan fs self) stamp iso).1.2
    (log_path paired stamp).
Proof.
  cbv zeta.
  destruct (engine_log_not_planned fs self
              (find_pairs (scan_files fs self).1).1 stamp) as [Hlog1 Hlog2].
  by apply engine_second_restore_unchanged.
Qed.

End EngineRuns.

Lemma engine_undo_is_exact_shoot :
  let self := set_similarity_threshold 1 Shoot.core0 in
  let plan := engine_plan Shoot.hashes Shoot.hamming Shoot.disk self in
  let paired :=
    (find_pairs Shoot.hashes Shoot.hamming (scan_files Shoot.disk self).1).1 in
  let log := log_path paired Shoot.stamp in
  let run :=
    execute_rename path_rename paired Shoot.disk plan Shoot.stamp Shoot.iso in
  plan = [(Shoot.img1, Shoot.raw_dir ++ ["Wedding_042.CR2"])] /\
  NoDup plan.*2 /\
  exists doc,
    run.2 = Return (length plan, str log) /\
    read_json run.1.2 log = Return doc /\
    restore_backup path_rename run.1.2 (Some log)
    = (written Shoot.disk log doc, operations doc, Restored (length plan) []) /\
    restore_backup path_rename (written Shoot.disk log doc) (Some log)
    = (written Shoot.disk log doc, [], Restored 0 []).
Proof.
  intros self plan paired log run.
  assert (NoDup plan.*2) as Hnodup
    by (apply (bool_decide_unpack _); vm_compute; exact I).
  split; [by vm_compute|]. split; [exact Hnodup|].
  refine (engine_undo_is_exact Shoot.hashes Shoot.hamming Shoot.disk self
            Shoot.stamp Shoot.iso _ _ Hnodup); [reflexivity|].
  vm_compute. discriminate.
Defined.

Lemma engine_plan_executes_fully_shoot :
  let paired := (find_pairs Shoot.hashes Shoot.hamming Shoot.scanned).1 in
  let run :=
    execute_rename path_rename paired Shoot.disk
      (engine_plan Shoot.hashes Shoot.hamming Shoot.disk Shoot.core0)
      Shoot.stamp Shoot.iso in
  run.2 = Return (3, str Shoot.backup) /\
  exists doc,
    read_json run.1.2 Shoot.backup = Return doc /\
    length (operations doc) = 3 /\
    Forall (fun op => status op = SUCCESS /\ error op = None)
           (operations doc).
Proof.
  refine (engine_plan_executes_fully Shoot.hashes Shoot.hamming Shoot.disk
            Shoot.core0 Shoot.stamp Shoot.iso _ _); [reflexivity|].
  vm_compute. discriminate.
Defined.

(** ** What a restore reports *)

(** The invariant of the restore loop, for any rename primitive. *)
Lemma restore_operations_invariant rename fs ops :
  let out := restore_operations rename fs ops in
  out.1.2 + length out.2 = length out.1.1.2 /\
  (out.1.2 = 0 -> out.1.1.1 = fs).
Proof.
  unfold restore_operations.
  induction ops as [|op ops IH] using rev_ind; [done|].
  rewrite foldl_app. cbn [foldl].
  destruct (foldl (restore_step rename) (fs, [], 0, []) ops)
    as [[[fs' attempted] restored] errors].
  simpl in IH. destruct IH as [Hcount Hsame].
  unfold restore_step. destruct (is_success op); [|done].
  destruct (path_exists fs' (new_path op)); [|done].
  destruct (rename fs' (new_path op) (old_path op)) as [fs''|e]; simpl.
  - rewrite length_app. simpl. split; [lia | done].
  - rewrite !length_app. simpl. split; [lia | done].
Qed.

(** X10.  The report of restore_backup adds up, whatever makes a rename
    fail: the number of restored files and the number of error lines
    together are the number of renames attempted; a report of no restored
    file means the disk is as it was; a cancelled dialog or an unreadable
    log attempts nothing and leaves the disk as it was. *)
Theorem restore_backup_report_adds_up
    (rename : FS -> Path -> Path -> Outcome FS) (fs : FS)
    (backup_file : option Path) :
  let out := restore_backup rename fs backup_file in
  match out.2 with
  | Restored restored errors =>
      restored + length errors = length out.1.2 /\
      (restored = 0 -> out.1.1 = fs)
  | Cancelled => backup_file = None /\ out.1.1 = fs /\ out.1.2 = []
  | Failed e =>
      (exists f, backup_file = Some f /\ read_json fs f = Raise e) /\
      out.1.1 = fs /\ out.1.2 = []
  end.
Proof.
  unfold restore_backup. destruct backup_file as [f|]; [|done].
  destruct (read_json fs f) as [doc|e] eqn:Hread;
    [|simpl; split; [by exists f | done]].
  pose proof (restore_operations_invariant rename fs (operations doc)) as Hinv.
  destruct (restore_operations rename fs (operations doc))
    as [[[fs' attempted] restored] errors].
  exact Hinv.
Qed.

(** * The comparison window *)

Section ComparisonWindow.

Import ImageComparisonWindow.

Context {Photo : Type}.
Variable get_file_size : Path -> string.
Variable load_photo : Path -> Outcome Photo.
Variable original_size : Path -> Outcome (N * N).

Local Abbreviation update_display :=
  (update_display get_file_size load_photo original_size).
Local Abbreviation init := (init get_file_size load_photo original_size).
Local Abbreviation prev_image :=
  (prev_image get_file_size load_photo original_size).
Local Abbreviation next_image :=
  (next_image get_file_size load_photo original_size).
Local Abbreviation move := (move get_file_size load_photo original_size).
Local Abbreviation navigate :=
  (navigate get_file_size load_photo original_size).

Lemma getitem_in_range {A : Type} (seq : list A) (i : Z) :
  (0 <= i < Z.of_nat (length seq))%Z ->
  exists x, seq !! Z.to_nat i = Some x /\ getitem seq i = Some x.
Proof.
  intros Hi. destruct (lookup_lt_is_Some_2 seq (Z.to_nat i)) as [x Hx]; [lia|].
  exists x. split; [done|]. unfold getitem.
  by replace (0 <=? i)%Z with true by (symmetry; apply Z.leb_le; lia).
Qed.

(** Inside the list, what update_display draws depends on the list and
    the index alone. *)
Lemma update_display_in_range (self : @Window Photo) :
  (0 <= current_index self < Z.of_nat (length (pairs_data self)))%Z ->
  destroyed self = false ->
  exists shown,
    update_display self = Some shown /\
    init (pairs_data self) (current_index self) = Some shown /\
    pairs_data shown = pairs_data self /\
    current_index shown = current_index self /\
    destroyed shown = false.
Proof.
  intros Hi Hopen. unfold init, update_display. simpl.
  destruct (getitem_in_range (pairs_data self) (current_index self) Hi)
    as ([[[raw_path jpg_path] similarity] new_name] & _ & ->).
  assert (pairs_data self ≠ []) as Hne
    by (intros Hnil; rewrite Hnil in Hi; simpl in Hi; lia).
  rewrite bool_decide_eq_false_2 by done.
  replace (Z.of_nat (length (pairs_data self)) <=? current_index self)%Z
    with false by (symmetry; apply Z.leb_gt; lia).
  simpl. rewrite Hopen. eauto 10.
Qed.

Lemma init_in_range (data : list PairData) (i : Z) :
  (0 <= i < Z.of_nat (length data))%Z ->
  exists shown : @Window Photo,
    init data i = Some shown /\ pairs_data shown = data /\
    current_index shown = i /\ destroyed shown = false.
Proof.
  intros Hi.
  destruct (update_display_in_range (create_widgets data i))
    as (shown & _ & Hinit & Hdata & Hindex & Hopen); [done|done|].
  exists shown. by repeat split.
Qed.

(** What a window opened inside its list is titled with. *)
Lemma init_shows_entry (data : list PairData) (i : nat) raw_path jpg_path
    similarity new_name :
  data !! i = Some (raw_path, jpg_path, similarity, new_name) ->
  exists shown : @Window Photo,
    init data (Z.of_nat i) = Some shown /\
    current_index shown = Z.of_nat i /\
    raw_frame_text shown = "RAW: " +:+ name raw_path /\
    jpg_frame_text shown = "JPG: " +:+ name jpg_path /\
    info_frame shown
    = [Label (info_text get_file_size
                (raw_path, jpg_path, similarity, new_name))].
Proof.
  intros Hentry.
  assert (i < length data)%nat as Hi by (by eapply lookup_lt_Some).
  unfold init, update_display. simpl.
  destruct (getitem_in_range data (Z.of_nat i)) as (entry & Hentry' & ->);
    [lia|].
  rewrite Nat2Z.id in Hentry'.
  assert (Some entry = Some (raw_path, jpg_path, similarity, new_name))
    as [= ->] by (rewrite <- Hentry'; exact Hentry).
  assert (data ≠ []) as Hne by (by intros ->).
  rewrite bool_decide_eq_false_2 by done.
  replace (Z.of_nat (length data) <=? Z.of_nat i)%Z
    with false by (symmetry; apply Z.leb_gt; lia).
  simpl. by eexists.
Qed.

(** One move from a window that shows entry [i] of its list. *)
Lemma move_in_range (data : list PairData) (i : Z) (shown : @Window Photo)
    (m : Move) :
  (0 <= i < Z.of_nat (length data))%Z ->
  init data i = Some shown ->
  move shown m = init data (walk (Z.of_nat (length data)) i [m]) /\
  (0 <= walk (Z.of_nat (length data)) i [m] < Z.of_nat (length data))%Z.
Proof.
  intros Hi Hinit.
  destruct (init_in_range data i Hi) as (shown' & Hinit' & Hdata & Hindex & Hopen).
  rewrite Hinit in Hinit'. injection Hinit' as <-.
  unfold walk. cbn [foldl].
  destruct m; unfold move, prev_image, next_image; rewrite Hindex, ?Hdata.
  - destruct (0 <? i)%Z eqn:Hpos; [|done].
    apply Z.ltb_lt in Hpos. split; [|lia].
    destruct (update_display_in_range (set_current_index (i - 1) shown))
      as (next & Hnext & Hshown & _); simpl; rewrite ?Hdata; [lia|done|].
    simpl in Hshown. rewrite Hdata in Hshown. by rewrite Hnext, Hshown.
  - destruct (i <? Z.of_nat (length data) - 1)%Z eqn:Hlast; [|done].
    apply Z.ltb_lt in Hlast. split; [|lia].
    destruct (update_display_in_range (set_current_index (i + 1) shown))
      as (next & Hnext & Hshown & _); simpl; rewrite ?Hdata; [lia|done|].
    simpl in Hshown. rewrite Hdata in Hshown. by rewrite Hnext, Hshown.
Qed.

Lemma walk_snoc n i moves m :
  walk n i (moves ++ [m]) = walk n (walk n i moves) [m].
Proof. unfold walk. by rewrite foldl_app. Qed.

Lemma navigate_snoc (self : @Window Photo) moves m :
  navigate self (moves ++ [m])
  = navigate self moves ≫= fun shown => move shown m.
Proof. unfold navigate. by rewrite foldl_app. Qed.

(** X11.  The window never shows stale data: opened inside its list and
    taken through any run of Previous and Next, by button or by arrow
    key, it is in the very state a window freshly opened at the index
    reached would be in; that index moves by one per step and stops at the
    first and at the last entry, and no step raises. *)
Theorem navigate_shows_current_pair
    (data : list PairData) (i : Z) (moves : list Move) :
  (0 <= i < Z.of_nat (length data))%Z ->
  let n := Z.of_nat (length data) in
  (0 <= walk n i moves < n)%Z /\
  is_Some (init data (walk n i moves)) /\
  init data i ≫= (fun opened => navigate opened moves)
  = init data (walk n i moves).
Proof.
  intros Hi n. induction moves as [|m moves IH] using rev_ind.
  - simpl. split; [done|]. destruct (init_in_range data i Hi) as (w & Hw & _).
    rewrite Hw. split; [by eexists | done].
  - destruct IH as (Hwalk & [shown Hshown] & Hrun).
    destruct (move_in_range data _ shown m Hwalk Hshown) as [Hmove Hnext].
    rewrite walk_snoc. fold n in Hmove, Hnext. split; [done|].
    destruct (init_in_range data _ Hnext) as (w & Hw & _).
    split; [rewrite Hw; by eexists|].
    rewrite <- Hmove. destruct (init data i) as [opened|] eqn:Hopened;
      [|by rewrite Hshown in Hrun].
    change (navigate opened (moves ++ [m]) = move shown m).
    change (navigate opened moves = init data (walk n i moves)) in Hrun.
    by rewrite navigate_snoc, Hrun, Hshown.
Qed.

(** X12.  The two navigation buttons tell the truth about their
    handlers: in a window that shows entry [i] of its list the position
    label reads [i+1 / n], and Previous (Next) is disabled exactly at the
    first (last) entry, which is exactly when prev_image (next_image)
    leaves the window as it is; the frames are titled with the names of
    the two files of that entry. *)
Theorem buttons_agree_with_handlers
    (data : list PairData) (i : Z) (shown : @Window Photo) :
  (0 <= i < Z.of_nat (length data))%Z ->
  init data i = Some shown ->
  position_label shown
  = pretty (i + 1)%Z +:+ " / " +:+ pretty (length data) /\
  (prev_btn shown = DISABLED <-> i = 0%Z) /\
  (next_btn shown = DISABLED <-> i = (Z.of_nat (length data) - 1)%Z) /\
  (prev_btn shown = DISABLED <-> prev_image shown = Some shown) /\
  (next_btn shown = DISABLED <-> next_image shown = Some shown) /\
  exists raw_path jpg_path similarity new_name,
    data !! Z.to_nat i = Some (raw_path, jpg_path, similarity, new_name) /\
    raw_frame_text shown = "RAW: " +:+ name raw_path /\
    jpg_frame_text shown = "JPG: " +:+ name jpg_path /\
    info_frame shown
    = [Label (info_text get_file_size
                (raw_path, jpg_path, similarity, new_name))].
Proof.
  intros Hi Hinit.
  destruct (move_in_range data i shown Previous Hi Hinit) as [Hprev _].
  destruct (move_in_range data i shown Next Hi Hinit) as [Hnext _].
  unfold walk in Hprev, Hnext. cbn [foldl move] in Hprev, Hnext.
  assert (forall j, j ≠ i -> init data j ≠ Some shown) as Hother.
  { intros j Hj Hshown.
    destruct (init_in_range data i Hi) as (w & Hw & _ & Hindex & _).
    rewrite Hinit in Hw. injection Hw as <-.
    assert (current_index shown = j); [|congruence].
    revert Hshown. unfold init, update_display. simpl.
    destruct (_ || _); [by intros [= <-]|].
    destruct (getitem data j) as [[[[? ?] ?] ?]|]; [|done]. by intros [= <-]. }
  pose proof Hinit as Hopened.
  revert Hinit. unfold init, update_display. simpl.
  destruct (getitem_in_range data i Hi)
    as ([[[raw_path jpg_path] similarity] new_name] & Hentry & ->).
  assert (data ≠ []) as Hne
    by (intros Hnil; rewrite Hnil in Hi; simpl in Hi; lia).
  rewrite bool_decide_eq_false_2 by done.
  replace (Z.of_nat (length data) <=? i)%Z
    with false by (symmetry; apply Z.leb_gt; lia).
  simpl. intros [= Hshown].
  assert (prev_btn shown = DISABLED <-> i = 0%Z) as Hfirst.
  { rewrite <- Hshown. simpl. destruct (0 <? i)%Z eqn:Hpos.
    - apply Z.ltb_lt in Hpos. split; [done | lia].
    - apply Z.ltb_ge in Hpos. split; [lia | done]. }
  assert (next_btn shown = DISABLED <-> i = (Z.of_nat (length data) - 1)%Z)
    as Hlast.
  { rewrite <- Hshown. simpl.
    destruct (i <? Z.of_nat (length data) - 1)%Z eqn:Hpos.
    - apply Z.ltb_lt in Hpos. split; [done | lia].
    - apply Z.ltb_ge in Hpos. split; [lia | done]. }
  split; [by rewrite <- Hshown|]. split; [done|]. split; [done|].
  split; [|split].
  - rewrite Hfirst, Hprev. destruct (0 <? i)%Z eqn:Hpos.
    + apply Z.ltb_lt in Hpos. split; [lia|]. intros Hsame.
      exfalso. apply (Hother (i - 1)%Z); [lia | done].
    + apply Z.ltb_ge in Hpos. split; [|lia]. by intros _.
  - rewrite Hlast, Hnext.
    destruct (i <? Z.of_nat (length data) - 1)%Z eqn:Hpos.
    + apply Z.ltb_lt in Hpos. split; [lia|]. intros Hsame.
      exfalso. apply (Hother (i + 1)%Z); [lia | done].
    + apply Z.ltb_ge in Hpos. split; [|lia]. by intros _.
  - exists raw_path, jpg_path, similarity, new_name.
    rewrite <- Hshown. by repeat split.
Qed.

Lemma update_display_nonnegative (self : @Window Photo) :
  (0 <= current_index self)%Z ->
  exists shown,
    update_display self = Some shown /\
    pairs_data shown = pairs_data self /\
    current_index shown = current_index self.
Proof.
  intros Hi. unfold update_display.
  destruct (bool_decide (pairs_data self = [])
            || (Z.of_nat (length (pairs_data self)) <=? current_index self)%Z)
    eqn:Hout; [by exists self|].
  apply orb_false_iff in Hout as [_ Hin%Z.leb_gt].
  destruct (getitem_in_range (pairs_data self) (current_index self))
    as ([[[raw_path jpg_path] similarity] new_name] & _ & ->); [lia|].
  by eexists.
Qed.

Lemma move_nonnegative (self : @Window Photo) (m : Move) :
  (0 <= current_index self)%Z ->
  exists shown,
    move self m = Some shown /\
    pairs_data shown = pairs_data self /\
    (0 <= current_index shown)%Z.
Proof.
  intros Hi. destruct m; unfold move, prev_image, next_image.
  - destruct (0 <? current_index self)%Z eqn:Hpos; [|by exists self].
    apply Z.ltb_lt in Hpos.
    destruct (update_display_nonnegative
                (set_current_index (current_index self - 1) self))
      as (shown & -> & Hdata & Hindex); [simpl; lia|].
    exists shown. simpl in *. split; [done|]. split; [done | lia].
  - destruct (current_index self <? _)%Z; [|by exists self].
    destruct (update_display_nonnegative
                (set_current_index (current_index self + 1) self))
      as (shown & -> & Hdata & Hindex); [simpl; lia|].
    exists shown. simpl in *. split; [done|]. split; [done | lia].
Qed.

(** X13.  No IndexError from the handlers: a window whose index is not
    negative goes through any run of Previous and Next without an
    exception, also on an empty list and with an index past the end, and
    keeps its list and a non-negative index. *)
Theorem navigate_never_raises (self : @Window Photo) (moves : list Move) :
  (0 <= current_index self)%Z ->
  exists shown,
    navigate self moves = Some shown /\
    pairs_data shown = pairs_data self /\
    (0 <= current_index shown)%Z.
Proof.
  intros Hi. induction moves as [|m moves IH] using rev_ind.
  - by exists self.
  - destruct IH as (shown & Hrun & Hdata & Hindex).
    destruct (move_nonnegative shown m Hindex) as (next & Hnext & Hdata' & Hi').
    exists next. rewrite navigate_snoc, Hrun. simpl.
    split; [done|]. split; [congruence | done].
Qed.

(** X14.  The constructor at the edges.  It raises, with the IndexError
    of the subscript, exactly when the list is not empty and the index
    lies below minus its length; on an empty list, or with an index at or
    past the end, it draws nothing and leaves both buttons enabled and the
    position label empty; an index [-k] inside the list shows the k-th
    entry from the end under the position [1-k / n]. *)
Theorem init_at_the_edges (data : list PairData) (i : Z) :
  let n := Z.of_nat (length data) in
  (init data i = None <-> data ≠ [] /\ (i < - n)%Z) /\
  (data = [] \/ (n <= i)%Z -> init data i = Some (create_widgets data i)) /\
  ((- n <= i < 0)%Z ->
   exists entry shown,
     data !! Z.to_nat (i + n) = Some entry /\
     init data i = Some shown /\
     position_label shown = pretty (i + 1)%Z +:+ " / " +:+ pretty (length data) /\
     info_frame shown = [Label (info_text get_file_size entry)]).
Proof.
  simpl. unfold init, update_display. simpl.
  destruct (decide (data = [])) as [->|Hne].
  { simpl. split; [split; [done | by intros [? _]]|].
    split; [done | lia]. }
  rewrite bool_decide_eq_false_2 by done. simpl.
  destruct (Z.of_nat (length data) <=? i)%Z eqn:Hpast.
  { apply Z.leb_le in Hpast. split; [split; [done | lia]|].
    split; [done | lia]. }
  apply Z.leb_gt in Hpast. unfold getitem.
  destruct (0 <=? i)%Z eqn:Hpos.
  { apply Z.leb_le in Hpos.
    destruct (lookup_lt_is_Some_2 data (Z.to_nat i))
      as [[[[raw_path jpg_path] similarity] new_name] ->]; [lia|].
    split; [split; [done | lia]|]. split; [|lia].
    intros [?|?]; [done | lia]. }
  apply Z.leb_gt in Hpos.
  destruct (0 <=? i + Z.of_nat (length data))%Z eqn:Hwrap.
  - apply Z.leb_le in Hwrap.
    destruct (lookup_lt_is_Some_2 data (Z.to_nat (i + Z.of_nat (length data))))
      as [[[[raw_path jpg_path] similarity] new_name] Hentry]; [lia|].
    rewrite Hentry. split; [split; [done | lia]|].
    split; [intros [?|?]; [done | lia]|]. intros _.
    by eexists _, _.
  - apply Z.leb_gt in Hwrap. split; [split; [intros _; split; [done | lia] | done]|].
    split; [intros [?|?]; [done | lia] | lia].
Qed.

End ComparisonWindow.

Lemma navigate_shows_current_pair_album :
  (0 <= 0 < Z.of_nat (length Album.pairs_data))%Z /\
  ImageComparisonWindow.init Album.get_file_size Album.load_photo
    Album.original_size Album.pairs_data 0
  ≫= (fun opened =>
        ImageComparisonWindow.navigate Album.get_file_size Album.load_photo
          Album.original_size opened
          [ImageComparisonWindow.Next; ImageComparisonWindow.Next;
           ImageComparisonWindow.Previous])
  = ImageComparisonWindow.init Album.get_file_size Album.load_photo
      Album.original_size Album.pairs_data 0.
Proof.
  assert (0 <= 0 < Z.of_nat (length Album.pairs_data))%Z as Hi
    by (unfold Album.pairs_data; simpl; lia).
  split; [exact Hi|].
  exact (proj2 (proj2 (navigate_shows_current_pair Album.get_file_size
                         Album.load_photo Album.original_size
                         Album.pairs_data 0
                         [ImageComparisonWindow.Next;
                          ImageComparisonWindow.Next;
                          ImageComparisonWindow.Previous] Hi))).
Defined.

Lemma buttons_agree_with_handlers_album :
  exists shown,
    (0 <= 1 < Z.of_nat (length Album.pairs_data))%Z /\
    ImageComparisonWindow.init Album.get_file_size Album.load_photo
      Album.original_size Album.pairs_data 1 = Some shown /\
    ImageComparisonWindow.position_label shown = "2 / 2" /\
    (ImageComparisonWindow.next_btn shown = DISABLED <->
     ImageComparisonWindow.next_image Album.get_file_size Album.load_photo
       Album.original_size shown = Some shown).
Proof.
  assert (0 <= 1 < Z.of_nat (length Album.pairs_data))%Z as Hi
    by (unfold Album.pairs_data; simpl; lia).
  eexists. split; [exact Hi|]. split; [reflexivity|].
  destruct (buttons_agree_with_handlers Album.get_file_size Album.load_photo
              Album.original_size Album.pairs_data 1 _ Hi eq_refl)
    as (Hlabel & _ & _ & _ & Hnext & _).
  split; [exact Hlabel | exact Hnext].
Defined.

Lemma navigate_never_raises_album :
  let self :=
    ImageComparisonWindow.create_widgets (Photo := N) [] 3 in
  (0 <= ImageComparisonWindow.current_index self)%Z /\
  exists shown,
    ImageComparisonWindow.navigate Album.get_file_size Album.load_photo
      Album.original_size self
      [ImageComparisonWindow.Previous; ImageComparisonWindow.Next]
    = Some shown /\
    ImageComparisonWindow.pairs_data shown = [] /\
    (0 <= ImageComparisonWindow.current_index shown)%Z.
Proof.
  intros self.
  assert (0 <= ImageComparisonWindow.current_index self)%Z as Hi
    by (simpl; lia).
  split; [exact Hi|].
  exact (navigate_never_raises Album.get_file_size Album.load_photo
           Album.original_size self
           [ImageComparisonWindow.Previous; ImageComparisonWindow.Next] Hi).
Defined.

(** * The main window *)

Lemma pair_of_Some (pairs : list MatchPair) raw jpg sim :
  FileRenamerGUI.pair_of pairs raw = Some (jpg, sim) ->
  (raw, jpg, sim) ∈ pairs.
Proof.
  unfold FileRenamerGUI.pair_of.
  destruct (List.find _ pairs) as [[[r j] s]|] eqn:Hfind; [|done].
  apply List.find_some in Hfind as [Hin Hr]. simpl in *.
  apply bool_decide_eq_true in Hr as ->. intros [= -> ->].
  by apply list_elem_of_In.
Qed.

Lemma pair_of_listed (pairs : list MatchPair) raw jpg sim :
  (raw, jpg, sim) ∈ pairs -> is_Some (FileRenamerGUI.pair_of pairs raw).
Proof.
  intros Hin. unfold FileRenamerGUI.pair_of.
  destruct (List.find _ pairs) as [p|] eqn:Hfind; [by eexists|].
  apply list_elem_of_In in Hin.
  pose proof (List.find_none _ _ Hfind _ Hin) as Hnot. simpl in Hnot.
  by rewrite bool_decide_eq_true_2 in Hnot.
Qed.

Lemma NoDup_fmap_agree {A B : Type} (f : A -> B) (l : list A) x y :
  NoDup (f <$> l) -> x ∈ l -> y ∈ l -> f x = f y -> x = y.
Proof.
  induction l as [|z l IH]; intros Hnodup Hx Hy Hxy;
    [by apply elem_of_nil in Hx|].
  simpl in Hnodup. apply NoDup_cons in Hnodup as [Hz Hnodup].
  apply elem_of_cons in Hx as [->|Hx]; apply elem_of_cons in Hy as [->|Hy].
  - done.
  - exfalso. apply Hz. rewrite Hxy. by apply list_elem_of_fmap_2.
  - exfalso. apply Hz. rewrite <- Hxy. by apply list_elem_of_fmap_2.
  - by apply IH.
Qed.

(** Where no RAW file is paired twice, the pair of a RAW file is the one
    the loop of update_pairs_display finds. *)
Lemma pair_of_unique (pairs : list MatchPair) raw jpg sim :
  NoDup ((fun p : MatchPair => p.1.1) <$> pairs) ->
  (raw, jpg, sim) ∈ pairs ->
  FileRenamerGUI.pair_of pairs raw = Some (jpg, sim).
Proof.
  intros Hnodup Hin.
  destruct (pair_of_listed pairs raw jpg sim Hin) as [[j s] Hfound].
  pose proof (pair_of_Some _ _ _ _ Hfound) as Hin'.
  pose proof (NoDup_fmap_agree _ _ _ _ Hnodup Hin Hin' eq_refl) as Heq.
  by injection Heq as -> ->.
Qed.

(** A path is its parent and its name. *)
Lemma path_parent_name (p : Path) : p ≠ [] -> p = parent p ++ [name p].
Proof. intros Hp. unfold parent, name. by apply app_removelast_last. Qed.

Lemma same_folder_same_name (p q : Path) :
  p ≠ [] -> q ≠ [] -> parent p = parent q -> name p = name q -> p = q.
Proof.
  intros Hp Hq Hparent Hname.
  rewrite (path_parent_name p Hp), (path_parent_name q Hq). congruence.
Qed.

Section MainWindow.

Context {Fingerprint Photo : Type}.
Variable calculate_image_hash : Path -> option Fingerprint.
Variable distance : Fingerprint -> Fingerprint -> Z.
Variable rename : FS -> Path -> Path -> Outcome FS.
Variable load_column_thumbnail : Path -> option Photo.
Variable Path_of : string -> Path.

Local Abbreviation GUI := (@FileRenamerGUI.GUI Photo).
Local Abbreviation display_step :=
  (FileRenamerGUI.display_step load_column_thumbnail).
Local Abbreviation update_pairs_display :=
  (FileRenamerGUI.update_pairs_display load_column_thumbnail).
Local Abbreviation gui_scan_files :=
  (FileRenamerGUI.scan_files (Photo := Photo) Path_of).
Local Abbreviation Session := (@FileRenamerGUI.Session Photo).
Local Abbreviation find_pairs_thread :=
  (FileRenamerGUI.find_pairs_thread (Photo := Photo) calculate_image_hash
     distance).
Local Abbreviation run_callback :=
  (FileRenamerGUI.run_callback load_column_thumbnail).
Local Abbreviation orderly :=
  (FileRenamerGUI.orderly calculate_image_hash distance rename
     load_column_thumbnail Path_of).
Local Abbreviation rename_files :=
  (FileRenamerGUI.rename_files (Photo := Photo) rename).
Local Abbreviation handle :=
  (FileRenamerGUI.handle calculate_image_hash distance rename
     load_column_thumbnail Path_of).

(** The loop of update_pairs_display where every planned RAW file has a
    pair: one entry and one row per operation. *)
Lemma display_loop (pairs : list MatchPair) (plan : list (Path * Path)) :
  forall cache data rows,
    (forall op, op ∈ plan -> is_Some (FileRenamerGUI.pair_of pairs op.1)) ->
    exists cache' more_data more_rows,
      foldl (display_step pairs) (cache, data, rows) plan
      = (cache', data ++ more_data, rows ++ more_rows) /\
      length more_data = length plan /\
      length more_rows = length plan /\
      forall i op,
        plan !! i = Some op ->
        exists jpg sim raw_preview jpg_preview,
          FileRenamerGUI.pair_of pairs op.1 = Some (jpg, sim) /\
          more_data !! i = Some (op.1, jpg, sim, name op.2) /\
          more_rows !! i
          = Some [raw_preview; name op.1; jpg_preview; name jpg;
                  str_similarity sim; name op.2].
Proof.
  induction plan as [|[raw new] plan IH]; intros cache data rows Hpairs.
  { exists cache, [], []. rewrite !app_nil_r. by repeat split. }
  destruct (Hpairs (raw, new)) as [[jpg sim] Hpair]; [left|].
  cbn [foldl]. unfold FileRenamerGUI.display_step at 2. simpl in Hpair.
  rewrite Hpair.
  destruct (FileRenamerGUI.create_column_thumbnail load_column_thumbnail
              cache raw) as [cache1 raw_thumbnail].
  destruct (FileRenamerGUI.create_column_thumbnail load_column_thumbnail
              cache1 jpg) as [cache2 jpg_thumbnail].
  edestruct (IH cache2) as (cache' & more_data & more_rows & -> & Hd & Hr & Hrows).
  { intros op Hop. apply Hpairs. by right. }
  eexists cache', (_ :: more_data), (_ :: more_rows).
  rewrite <- !app_assoc. split; [reflexivity|]. simpl.
  split; [by rewrite Hd|]. split; [by rewrite Hr|].
  intros [|i] op Hop; simpl in Hop.
  - injection Hop as <-. simpl. by eexists jpg, sim, _, _.
  - by apply Hrows.
Qed.

Lemma update_pairs_display_fields (self : GUI) :
  FileRenamerGUI.rename_plan (update_pairs_display self)
  = FileRenamerGUI.rename_plan self /\
  FileRenamerGUI.pairs (update_pairs_display self)
  = FileRenamerGUI.pairs self /\
  FileRenamerGUI.renamer_core (update_pairs_display self)
  = FileRenamerGUI.renamer_core self /\
  (FileRenamerGUI.rename_plan self ≠ [] ->
   FileRenamerGUI.rename_button (update_pairs_display self) = NORMAL).
Proof.
  unfold FileRenamerGUI.update_pairs_display.
  destruct (foldl _ _ _) as [[cache data] rows]. simpl.
  repeat split. intros Hplan. by rewrite bool_decide_eq_true_2.
Qed.

Lemma reset_gui_after_display (self : GUI) value :
  FileRenamerGUI.reset_gui
    (FileRenamerGUI.set_progress value (update_pairs_display self))
  = FileRenamerGUI.reset_gui self.
Proof.
  unfold FileRenamerGUI.update_pairs_display.
  by destruct (foldl _ _ _) as [[cache data] rows].
Qed.

(** The table that update_pairs_display builds from a plan that was made
    from the pairs it is given. *)
Lemma update_pairs_display_table (self : GUI) :
  pairs_of_one_folder (FileRenamerGUI.pairs self) ->
  (forall op, op ∈ FileRenamerGUI.rename_plan self ->
     exists jpg sim,
       (op.1, jpg, sim) ∈ FileRenamerGUI.pairs self /\
       op.2 = target_path op.1 jpg) ->
  FileRenamerGUI.table_shows_plan (update_pairs_display self) /\
  FileRenamerGUI.rows_are_coherent (update_pairs_display self).
Proof.
  intros [Hnodup [folder Hfolder]] Hplan.
  destruct (display_loop (FileRenamerGUI.pairs self)
              (FileRenamerGUI.rename_plan self) ∅ [] [])
    as (cache & data & rows & Hloop & Hdata & Hrows & Hlookup).
  { intros op (jpg & sim & Hin & _)%Hplan. by eapply pair_of_listed. }
  unfold FileRenamerGUI.table_shows_plan, FileRenamerGUI.rows_are_coherent,
    FileRenamerGUI.update_pairs_display.
  rewrite Hloop. simpl. split; [|split; [done|split; [done|]]].
  - apply list_eq. intros i. rewrite !list_lookup_fmap.
    destruct (FileRenamerGUI.rename_plan self !! i) as [op|] eqn:Hop.
    + destruct (Hlookup i op Hop) as (jpg & sim & rp & jp & _ & _ & ->).
      done.
    + apply lookup_ge_None in Hop. rewrite <- Hrows in Hop.
      apply lookup_ge_None in Hop. by rewrite Hop.
  - intros i values [[[raw_path jpg_path] similarity] new_name] op
      Hvalues Hentry Hop.
    destruct (Hlookup i op Hop)
      as (jpg & sim & rp & jp & Hpair & Hentry' & Hvalues').
    rewrite Hentry in Hentry'. injection Hentry' as -> -> -> ->.
    rewrite Hvalues in Hvalues'. injection Hvalues' as ->.
    pose proof (pair_of_Some _ _ _ _ Hpair) as Hin.
    split; [done|]. split; [done|]. split; [done|]. split; [|by eauto].
    destruct (Hplan op) as (jpg' & sim' & Hin' & Htarget);
      [by eapply list_elem_of_lookup_2|].
    rewrite (pair_of_unique _ _ _ _ Hnodup Hin') in Hpair.
    injection Hpair as -> ->. rewrite Htarget.
    destruct (Hfolder _ Hin) as (_ & _ & Hsuffix & Hname). simpl in *.
    by destruct (target_path_parts op.1 jpg Hsuffix Hname) as (_ & -> & _).
Qed.
Lemma scanned_core_scan_files fs core :
  scanned_core (scan_files fs core).1.
Proof.
  split; [apply scan_files_no_repeats|]. split.
  - intros r (Hr & Hparent & _ & Hext)%scan_files_raw_listed.
    rewrite (proj1 (scan_files_folders fs core)).
    split; [done|]. split; [done|]. by apply raw_extension_nonempty.
  - intros j (_ & _ & _ & Hext)%scan_files_jpg_listed.
    by apply suffix_needs_name, jpg_extension_nonempty.
Qed.

Lemma scanned_core_find_pairs core :
  scanned_core core ->
  scanned_core (find_pairs calculate_image_hash distance core).1.
Proof. rewrite find_pairs_spec. by intros (Hnodup & Hraw & Hjpg). Qed.

Lemma find_pairs_of_one_folder core :
  scanned_core core ->
  pairs_of_one_folder (find_pairs calculate_image_hash distance core).2.
Proof.
  intros (Hnodup & Hraw & Hjpg). split.
  - eapply sublist_NoDup; [exact Hnodup|]. apply find_pairs_raws_sublist.
  - exists (raw_folder_path core). intros [[r j] s] Hin.
    apply find_pairs_listed in Hin as [Hr Hj]. simpl.
    destruct (Hraw r Hr) as (? & ? & ?). repeat split; try done.
    by apply Hjpg.
Qed.

Lemma init_consistent raw_folder jpg_folder threshold :
  gui_consistent
    (FileRenamerGUI.init (Photo := Photo) raw_folder jpg_folder threshold).
Proof.
  split; [done|]. split.
  { split; [done|]. split; [done|]. intros i values entry op Hvalues.
    simpl in Hvalues. by destruct i. }
  split; [done|]. split; [|done].
  split; [constructor|]. exists []. intros p Hp. by apply elem_of_nil in Hp.
Qed.

Lemma reset_gui_consistent (self : GUI) :
  gui_consistent (FileRenamerGUI.reset_gui self).
Proof. apply init_consistent. Qed.

Lemma gui_scan_files_consistent fs (self : GUI) :
  gui_consistent self -> gui_consistent (gui_scan_files fs self).1.
Proof.
  intros Hself. pose proof Hself as (Htable & Hrows & Hplan & Hpairs & Hcore).
  unfold FileRenamerGUI.scan_files.
  case_bool_decide; [done|]. case_bool_decide; [done|].
  pose proof (scanned_core_scan_files fs
                (new_core (Path_of (FileRenamerGUI.raw_folder_path self))
                   (Path_of (FileRenamerGUI.jpg_folder_path self))
                   (FileRenamerGUI.similarity_threshold self))) as Hscanned.
  destruct (scan_files fs _) as [core [[raw_count jpg_count]|e]];
    [destruct (Nat.ltb 0 raw_count && Nat.ltb 0 jpg_count)|]; simpl;
    (split; [done|]; split; [done|]; split;
     [intros Hne; split; [by eexists | by apply Hplan]|];
     split; [done|]; by intros core' [= <-]).
Qed.

Lemma rename_files_consistent fs (self : GUI) answer stamp iso :
  gui_consistent self ->
  gui_consistent (rename_files fs self answer stamp iso).1.1.
Proof.
  intros Hself. unfold FileRenamerGUI.rename_files.
  case_bool_decide; [done|]. destruct answer; [|done]. simpl.
  destruct (FileRenamerGUI.renamer_core self) as [core|] eqn:Hcore; [|done].
  unfold execute_rename.
  destruct (foldl _ _ _) as [[fs' ops] successful].
  destruct (write_json _ _ _) as [fs''|e]; [apply reset_gui_consistent|].
  destruct Hself as (Htable & Hrows & Hplan & Hpairs & Hscanned).
  split; [done|]. split; [done|]. split; [|split; [done|]].
  - intros Hne. split; [by eexists | by apply Hplan].
  - intros core' [= <-]. by apply (Hscanned core).
Qed.

Lemma on_tree_select_consistent (self : GUI) selection :
  gui_consistent self ->
  gui_consistent (FileRenamerGUI.on_tree_select self selection).
Proof.
  intros Hself. unfold FileRenamerGUI.on_tree_select.
  destruct selection as [item|]; [|done].
  destruct (FileRenamerGUI.tree self !! item) as [values|]; [|done].
  destruct (Nat.leb 4 (length values)); [|done].
  by destruct (List.find _ _).
Qed.

(** *** The worker thread *)

Lemma update_pairs_display_consistent (self : GUI) :
  ready_to_display self -> gui_consistent (update_pairs_display self).
Proof.
  intros (Hfolder & Hplan & core & Hcore & Hscanned).
  destruct (update_pairs_display_fields self)
    as (Hplan' & Hpairs & Hcore' & Hbutton).
  destruct (update_pairs_display_table self Hfolder Hplan) as [Htable Hrows].
  split; [done|]. split; [done|]. split; [|split].
  - rewrite Hplan', Hcore', Hcore. intros Hne. split; [by eexists|].
    by apply Hbutton.
  - by rewrite Hpairs.
  - rewrite Hcore', Hcore. by intros ? [= <-].
Qed.

Lemma progress_callback_engine core (self : GUI) :
  FileRenamerGUI.renamer_core (FileRenamerGUI.progress_callback core self)
  = FileRenamerGUI.renamer_core self.
Proof.
  unfold FileRenamerGUI.progress_callback.
  by destruct (last (FileRenamerGUI.progress_messages core)).
Qed.

(** One statement of the thread takes the window from one phase to the
    next. *)
Lemma find_pairs_thread_phase fs (self : GUI) worker after :
  in_phase self [worker] after ->
  in_phase (find_pairs_thread fs self worker).1.1
    (if FileRenamerGUI.is_finished (find_pairs_thread fs self worker).2
     then [] else [(find_pairs_thread fs self worker).2])
    (after ++ (find_pairs_thread fs self worker).1.2).
Proof.
  intros Hphase. inversion Hphase as
    [ | core Hcore Hscanned | found Hfound | Hfound | Hready | Hready
    | Hself | | ]; subst; unfold FileRenamerGUI.find_pairs_thread.
  - rewrite Hcore.
    pose proof (scanned_core_find_pairs core Hscanned) as Hscanned'.
    pose proof (find_pairs_of_one_folder core Hscanned) as Hfolder.
    pose proof (find_pairs_pairs calculate_image_hash distance core) as Hpairs.
    destruct (find_pairs calculate_image_hash distance core)
      as [core' found]. cbn [fst snd FileRenamerGUI.is_finished app] in *.
    apply thread_paired. split; [done|]. exists core'.
    by rewrite progress_callback_engine.
  - by apply thread_assigned.
  - destruct Hfound as (Hfolder & core & Hcore & Hscanned & Hpairs).
    rewrite Hcore. cbn [fst snd FileRenamerGUI.is_finished app].
    apply thread_planned.
    split; [done|]. split; [|by exists core].
    intros [s t] (jpg & sim & Hin & -> & _)%generate_rename_plan_entry.
    simpl. rewrite Hpairs in Hin. by eauto.
  - by apply thread_notified.
  - by apply thread_finished.
  - by apply table_displayed.
Qed.

(** A call of the queue takes the window to the phase after it. *)
Lemma run_callback_phase (self : GUI) running callback rest :
  in_phase self running (callback :: rest) ->
  in_phase (run_callback self callback) running rest.
Proof.
  intros Hphase. inversion Hphase as
    [ | | | | | Hready | | Hready | Hself ]; subst; simpl.
  - by apply thread_overtaken, update_pairs_display_consistent.
  - by apply table_displayed, update_pairs_display_consistent.
  - by apply at_rest.
Qed.

(** The two events that are not the user's, on a session with one
    thread. *)
Lemma thread_runs fs (self : GUI) worker after :
  handle (FileRenamerGUI.mkSession self fs [worker] after)
         (FileRenamerGUI.ThreadRuns 0)
  = FileRenamerGUI.mkSession (find_pairs_thread fs self worker).1.1 fs
      [(find_pairs_thread fs self worker).2]
      (after ++ (find_pairs_thread fs self worker).1.2).
Proof.
  cbn [FileRenamerGUI.handle FileRenamerGUI.threads FileRenamerGUI.window
         FileRenamerGUI.disk FileRenamerGUI.after lookup list_lookup].
  by destruct (find_pairs_thread fs self worker) as [[self' callbacks] worker'].
Qed.

Lemma main_loop_runs fs (self : GUI) threads callback rest :
  handle (FileRenamerGUI.mkSession self fs threads (callback :: rest))
         FileRenamerGUI.MainLoopRuns
  = FileRenamerGUI.mkSession (run_callback self callback) fs threads rest.
Proof. done. Qed.

Lemma progress_callback_reset core (self : GUI) :
  FileRenamerGUI.reset_gui (FileRenamerGUI.progress_callback core self)
  = FileRenamerGUI.reset_gui self.
Proof.
  unfold FileRenamerGUI.progress_callback.
  by destruct (last (FileRenamerGUI.progress_messages core)).
Qed.

Lemma start_consistent raw_folder jpg_folder threshold fs :
  session_consistent
    (FileRenamerGUI.start (Photo := Photo) raw_folder jpg_folder threshold fs).
Proof. exists 0, []. split; [done|]. apply at_rest, init_consistent. Qed.

(** Where no thread is at work and no call is waiting, the window is
    consistent. *)
Lemma quiet_consistent (st : Session) :
  session_consistent st ->
  FileRenamerGUI.quiet st = true ->
  gui_consistent (FileRenamerGUI.window st) /\
  FileRenamerGUI.after st = [] /\
  exists n, FileRenamerGUI.threads st = replicate n FileRenamerGUI.Finished.
Proof.
  intros (n & running & Hthreads & Hphase) Hquiet.
  unfold FileRenamerGUI.quiet in Hquiet.
  apply andb_prop in Hquiet as [Hfinished Hafter].
  rewrite Hthreads, forallb_app in Hfinished.
  apply andb_prop in Hfinished as [_ Hfinished].
  destruct Hphase; try discriminate.
  split; [done|]. split; [done|]. exists n. by rewrite Hthreads, app_nil_r.
Qed.

Lemma handle_consistent (st : Session) event :
  session_consistent st ->
  (FileRenamerGUI.user_event event = true -> FileRenamerGUI.quiet st = true) ->
  session_consistent (handle st event).
Proof.
  intros Hst Hquiet.
  assert (forall (self : GUI) fs,
            FileRenamerGUI.quiet st = true -> gui_consistent self ->
            session_consistent
              (FileRenamerGUI.mkSession self fs (FileRenamerGUI.threads st)
                 (FileRenamerGUI.after st))) as Hrest.
  { intros self fs Hq Hself.
    destruct (quiet_consistent st Hst Hq) as (_ & Hafter & n & Hthreads).
    exists n, []. simpl. rewrite Hthreads, Hafter, app_nil_r.
    split; [done|]. by apply at_rest. }
  destruct event; simpl.
  - destruct (quiet_consistent st Hst (Hquiet eq_refl)) as (Hself & _).
    apply Hrest; [by apply Hquiet|].
    unfold FileRenamerGUI.browse_raw_folder. by case_bool_decide.
  - destruct (quiet_consistent st Hst (Hquiet eq_refl)) as (Hself & _).
    apply Hrest; [by apply Hquiet|].
    unfold FileRenamerGUI.browse_jpg_folder. by case_bool_decide.
  - destruct (quiet_consistent st Hst (Hquiet eq_refl)) as (Hself & _).
    by apply Hrest; [apply Hquiet|].
  - destruct (quiet_consistent st Hst (Hquiet eq_refl)) as (Hself & _).
    apply Hrest; [by apply Hquiet|]. by apply gui_scan_files_consistent.
  - destruct (FileRenamerGUI.find_pairs_button (FileRenamerGUI.window st));
      [|done].
    destruct (quiet_consistent st Hst (Hquiet eq_refl))
      as (Hself & Hafter & n & Hthreads).
    unfold FileRenamerGUI.find_pairs.
    destruct (FileRenamerGUI.renamer_core (FileRenamerGUI.window st))
      as [core|] eqn:Hcore; [|done].
    exists n, [FileRenamerGUI.Spawned]. simpl. rewrite Hthreads, Hafter.
    split; [done|]. apply (thread_spawned _ core); [done|].
    by apply Hself.
  - destruct (FileRenamerGUI.rename_button (FileRenamerGUI.window st));
      [|done].
    destruct (quiet_consistent st Hst (Hquiet eq_refl)) as (Hself & _).
    pose proof (rename_files_consistent (FileRenamerGUI.disk st)
                  (FileRenamerGUI.window st) answer stamp iso Hself) as Hnext.
    destruct (rename_files _ _ answer stamp iso) as [[self fs] dialogs].
    apply Hrest; [by apply Hquiet | done].
  - destruct (quiet_consistent st Hst (Hquiet eq_refl)) as (Hself & _).
    by apply Hrest; [apply Hquiet|].
  - destruct (quiet_consistent st Hst (Hquiet eq_refl)) as (Hself & _).
    apply Hrest; [by apply Hquiet|]. by apply on_tree_select_consistent.
  - destruct Hst as (n & running & Hthreads & Hphase). by exists n, running.
  - destruct (FileRenamerGUI.threads st !! thread) as [worker|] eqn:Hlookup;
      [|done].
    destruct Hst as (n & running & Hthreads & Hphase).
    rewrite Hthreads in Hlookup.
    apply lookup_app_Some in Hlookup as [Hlookup|[Hge Hlookup]].
    + apply lookup_replicate in Hlookup as [-> Hlt]. simpl.
      exists n, running. simpl. rewrite app_nil_r. split; [|done].
      rewrite list_insert_id; [done|]. rewrite Hthreads.
      rewrite lookup_app_l by (by rewrite length_replicate).
      by apply lookup_replicate.
    + rewrite length_replicate in Hge, Hlookup.
      assert (running = [worker] /\ thread = n) as [-> ->].
      { destruct running as [|w [|w' running]]; [done| |by inversion Hphase].
        destruct (thread - n) as [|k] eqn:Hk; [|done].
        injection Hlookup as ->. split; [done|lia]. }
      pose proof (find_pairs_thread_phase (FileRenamerGUI.disk st) _ _ _
                    Hphase) as Hnext.
      destruct (find_pairs_thread (FileRenamerGUI.disk st)
                  (FileRenamerGUI.window st) worker)
        as [[self callbacks] worker'].
      simpl in Hnext.
      assert (<[n := worker']> (FileRenamerGUI.threads st)
              = replicate n FileRenamerGUI.Finished ++ [worker']) as Hinsert.
      { rewrite Hthreads, insert_app_r_alt by (by rewrite length_replicate).
        by rewrite length_replicate, Nat.sub_diag. }
      destruct worker'; simpl in Hnext;
        first [ by inversion Hnext
              | exists (S n), [];
                cbn [FileRenamerGUI.threads FileRenamerGUI.after
                       FileRenamerGUI.window];
                rewrite Hinsert;
                split; [by rewrite replicate_S_end, app_nil_r | exact Hnext]
              | exists n; eexists; simpl; rewrite Hinsert;
                split; [reflexivity | exact Hnext] ].
  - destruct (FileRenamerGUI.after st) as [|callback rest] eqn:Hafter;
      [done|].
    destruct Hst as (n & running & Hthreads & Hphase).
    exists n, running. simpl. split; [done|].
    rewrite Hafter in Hphase. by apply run_callback_phase.
Qed.

(** Every state of a run in which the user waits, whatever happens to the
    disk in between. *)
Lemma orderly_consistent events :
  forall st : Session,
    session_consistent st ->
    orderly st events = true ->
    session_consistent (foldl handle st events).
Proof.
  induction events as [|event events IH]; intros st Hst Horderly; [done|].
  simpl in Horderly. apply andb_prop in Horderly as [Hevent Horderly].
  simpl. apply IH; [|done]. apply handle_consistent; [done|].
  intros Huser. by rewrite Huser in Hevent.
Qed.

Lemma orderly_quiet_consistent raw_folder jpg_folder threshold fs events :
  let start := FileRenamerGUI.start raw_folder jpg_folder threshold fs in
  orderly start events = true ->
  FileRenamerGUI.quiet (foldl handle start events) = true ->
  gui_consistent (FileRenamerGUI.window (foldl handle start events)).
Proof.
  intros start Horderly Hquiet.
  apply quiet_consistent; [|done].
  apply orderly_consistent; [apply start_consistent | done].
Qed.

(** X15.  What the table shows is what Rename will do, as long as the
    user waits for the thread of find_pairs.  Take any run of browsing,
    scanning, pairing, renaming, restoring and selecting, with the worker
    threads and the main loop running in between and whatever happens to
    the disk, in which every event of the user finds no thread at work
    and no call waiting in the main loop.  In every state of that run
    with no thread at work and no call waiting, the table has one row per
    operation of the plan, in plan order, with the names of its source
    and target; row by row the table, the data of the comparison window
    and the plan are about the same RAW file, and the new name shown is
    the stem of the JPG shown followed by the suffix of the RAW file; and
    a plan that is not empty comes with an engine to run it and an
    enabled Rename button. *)
Theorem table_always_shows_the_plan
    (raw_folder jpg_folder : string) (threshold : Z) (fs : FS)
    (events : list (@FileRenamerGUI.Event)) :
  let start := FileRenamerGUI.start raw_folder jpg_folder threshold fs in
  orderly start events = true ->
  FileRenamerGUI.quiet (foldl handle start events) = true ->
  let self := FileRenamerGUI.window (foldl handle start events) in
  FileRenamerGUI.table_shows_plan self /\
  FileRenamerGUI.rows_are_coherent self /\
  (FileRenamerGUI.rename_plan self ≠ [] ->
   is_Some (FileRenamerGUI.renamer_core self) /\
   FileRenamerGUI.rename_button self = NORMAL).
Proof.
  intros start Horderly Hquiet self.
  destruct (orderly_quiet_consistent raw_folder jpg_folder threshold fs events
              Horderly Hquiet) as (Htable & Hrows & Hplan & _).
  split; [exact Htable|]. split; [exact Hrows | exact Hplan].
Qed.

(** The loop of on_tree_select, on the names of a pair of the window. *)
Lemma find_by_names (pairs : list MatchPair) raw jpg sim :
  pairs_of_one_folder pairs ->
  (raw, jpg, sim) ∈ pairs ->
  List.find (fun p : MatchPair =>
               bool_decide (name p.1.1 = name raw) &&
               bool_decide (name p.1.2 = name jpg)) pairs
  = Some (raw, jpg, sim).
Proof.
  intros [Hnodup [folder Hfolder]] Hin.
  destruct (List.find _ pairs) as [p|] eqn:Hfind.
  - apply List.find_some in Hfind as [Hp Hnames].
    apply list_elem_of_In in Hp.
    apply andb_prop in Hnames as [Hraw%bool_decide_eq_true _].
    destruct (Hfolder _ Hp) as (Hne & Hparent & _).
    destruct (Hfolder _ Hin) as (Hne' & Hparent' & _). simpl in *.
    f_equal. apply (NoDup_fmap_agree _ _ _ _ Hnodup Hp Hin). simpl.
    apply same_folder_same_name; congruence.
  - apply list_elem_of_In in Hin.
    pose proof (List.find_none _ _ Hfind _ Hin) as Hnot. simpl in Hnot.
    by rewrite !bool_decide_eq_true_2 in Hnot.
Qed.

Lemma consistent_row (self : GUI) (i : nat) (values : list string) :
  gui_consistent self ->
  FileRenamerGUI.tree self !! i = Some values ->
  exists raw jpg sim new_name raw_preview jpg_preview,
    FileRenamerGUI.pairs_data self !! i = Some (raw, jpg, sim, new_name) /\
    (raw, jpg, sim) ∈ FileRenamerGUI.pairs self /\
    values = [raw_preview; name raw; jpg_preview; name jpg;
              str_similarity sim; new_name].
Proof.
  intros (_ & (Hrows & Hdata & Hcoherent) & _) Hvalues.
  pose proof (lookup_lt_Some _ _ _ Hvalues) as Hi.
  destruct (lookup_lt_is_Some_2 (FileRenamerGUI.pairs_data self) i)
    as [[[[raw jpg] sim] new_name] Hentry]; [lia|].
  destruct (lookup_lt_is_Some_2 (FileRenamerGUI.rename_plan self) i)
    as [op Hop]; [lia|].
  destruct (Hcoherent i values _ op Hvalues Hentry Hop)
    as (_ & Hin & _ & _ & rp & jp & ->).
  by exists raw, jpg, sim, new_name, rp, jp.
Qed.

(** X16.  A click shows the row that was clicked, as long as the user
    waits for the thread of find_pairs.  In every state of a run in which
    each event of the user finds no thread at work and no call waiting in
    the main loop, and in which none is at work or waiting now, selecting
    a row of the table previews the RAW and the JPG file whose names the
    row shows, although on_tree_select looks them up by name alone, and a
    double click opens the comparison window on the same two files,
    without an IndexError. *)
Theorem selection_shows_its_row
    (raw_folder jpg_folder : string) (threshold : Z) (fs : FS)
    (events : list (@FileRenamerGUI.Event)) (i : nat) (values : list string)
    (get_file_size : Path -> string) (load_photo : Path -> Outcome Photo)
    (original_size : Path -> Outcome (N * N)) :
  let start := FileRenamerGUI.start raw_folder jpg_folder threshold fs in
  orderly start events = true ->
  FileRenamerGUI.quiet (foldl handle start events) = true ->
  let self := FileRenamerGUI.window (foldl handle start events) in
  FileRenamerGUI.tree self !! i = Some values ->
  exists raw jpg sim new_name shown,
    FileRenamerGUI.pairs_data self !! i = Some (raw, jpg, sim, new_name) /\
    nth 1 values "" = name raw /\ nth 3 values "" = name jpg /\
    FileRenamerGUI.on_tree_select self (Some i)
    = FileRenamerGUI.set_preview_frame (Some (raw, jpg)) self /\
    FileRenamerGUI.show_image_details self (Some i)
    = Some (FileRenamerGUI.pairs_data self, Z.of_nat i) /\
    ImageComparisonWindow.init get_file_size load_photo original_size
      (FileRenamerGUI.pairs_data self) (Z.of_nat i) = Some shown /\
    ImageComparisonWindow.raw_frame_text shown = "RAW: " +:+ name raw /\
    ImageComparisonWindow.jpg_frame_text shown = "JPG: " +:+ name jpg.
Proof.
  intros start Horderly Hquiet self Hvalues.
  pose proof (orderly_quiet_consistent raw_folder jpg_folder threshold fs
                events Horderly Hquiet) as Hself.
  fold start in Hself. fold self in Hself.
  destruct (consistent_row self i values Hself Hvalues)
    as (raw & jpg & sim & new_name & rp & jp & Hentry & Hin & ->).
  destruct (init_shows_entry get_file_size load_photo original_size
              _ _ _ _ _ _ Hentry)
    as (shown & Hshown & _ & Hraw & Hjpg & _).
  exists raw, jpg, sim, new_name, shown.
  split; [done|]. split; [done|]. split; [done|]. split; [|by repeat split].
  unfold FileRenamerGUI.on_tree_select. rewrite Hvalues. simpl.
  rewrite find_by_names with (sim := sim); [done| |done].
  by destruct Hself as (_ & _ & _ & Hfolder & _).
Qed.

End MainWindow.

Lemma album_run_is_orderly :
  Album.orderly
    (FileRenamerGUI.start "/photos/raw" "/photos/jpg" 5 Shoot.disk)
    Album.scan_and_find_pairs = true /\
  FileRenamerGUI.quiet Album.main_session = true.
Proof. split; vm_compute; reflexivity. Defined.

Lemma table_always_shows_the_plan_album :
  Album.orderly
    (FileRenamerGUI.start "/photos/raw" "/photos/jpg" 5 Shoot.disk)
    Album.scan_and_find_pairs = true /\
  FileRenamerGUI.quiet Album.main_session = true /\
  length (FileRenamerGUI.rename_plan Album.main_window) = 3 /\
  FileRenamerGUI.table_shows_plan Album.main_window /\
  FileRenamerGUI.rows_are_coherent Album.main_window /\
  (FileRenamerGUI.rename_plan Album.main_window ≠ [] ->
   is_Some (FileRenamerGUI.renamer_core Album.main_window) /\
   FileRenamerGUI.rename_button Album.main_window = NORMAL).
Proof.
  split; [exact (proj1 album_run_is_orderly)|].
  split; [exact (proj2 album_run_is_orderly)|].
  split; [vm_compute; reflexivity|].
  exact (table_always_shows_the_plan Shoot.hashes Shoot.hamming path_rename
           Album.load_column_thumbnail Album.Path_of
           "/photos/raw" "/photos/jpg" 5 Shoot.disk Album.scan_and_find_pairs
           (proj1 album_run_is_orderly) (proj2 album_run_is_orderly)).
Defined.

(** A run in which the user does not wait leaves a table that is not the
    plan: one row for a plan of three operations, with no thread at work,
    no call waiting and Rename enabled. *)
Example impatient_run_shows_another_table :
  Album.orderly
    (FileRenamerGUI.start "/photos/raw" "/photos/jpg" 1 Shoot.disk)
    Album.impatient = false /\
  FileRenamerGUI.quiet Album.impatient_session = true /\
  length (FileRenamerGUI.tree (FileRenamerGUI.window Album.impatient_session))
  = 1 /\
  length (FileRenamerGUI.rename_plan
            (FileRenamerGUI.window Album.impatient_session)) = 3 /\
  FileRenamerGUI.rename_button (FileRenamerGUI.window Album.impatient_session)
  = NORMAL /\
  ~ FileRenamerGUI.table_shows_plan
      (FileRenamerGUI.window Album.impatient_session).
Proof.
  assert (length (FileRenamerGUI.tree
                    (FileRenamerGUI.window Album.impatient_session)) = 1)
    as Htree by (vm_compute; reflexivity).
  assert (length (FileRenamerGUI.rename_plan
                    (FileRenamerGUI.window Album.impatient_session)) = 3)
    as Hplan by (vm_compute; reflexivity).
  split; [vm_compute; reflexivity|]. split; [vm_compute; reflexivity|].
  split; [exact Htree|]. split; [exact Hplan|].
  split; [vm_compute; reflexivity|].
  intros Htable. apply (f_equal length) in Htable.
  rewrite !length_fmap, Htree, Hplan in Htable. discriminate.
Qed.

Lemma selection_shows_its_row_album :
  FileRenamerGUI.tree Album.main_window !! 1
  = Some ["🖼️"; "IMG_0002.CR2"; "🖼️"; "Wedding_042.jpg"; "2";
          "Wedding_042.CR2"] /\
  exists raw jpg sim new_name shown,
    FileRenamerGUI.pairs_data Album.main_window !! 1
    = Some (raw, jpg, sim, new_name) /\
    nth 1 ["🖼️"; "IMG_0002.CR2"; "🖼️"; "Wedding_042.jpg"; "2";
           "Wedding_042.CR2"] "" = name raw /\
    nth 3 ["🖼️"; "IMG_0002.CR2"; "🖼️"; "Wedding_042.jpg"; "2";
           "Wedding_042.CR2"] "" = name jpg /\
    FileRenamerGUI.on_tree_select Album.main_window (Some 1)
    = FileRenamerGUI.set_preview_frame (Some (raw, jpg)) Album.main_window /\
    FileRenamerGUI.show_image_details Album.main_window (Some 1)
    = Some (FileRenamerGUI.pairs_data Album.main_window, Z.of_nat 1) /\
    ImageComparisonWindow.init Album.get_file_size Album.load_photo
      Album.original_size (FileRenamerGUI.pairs_data Album.main_window)
      (Z.of_nat 1) = Some shown /\
    ImageComparisonWindow.raw_frame_text shown = "RAW: " +:+ name raw /\
    ImageComparisonWindow.jpg_frame_text shown = "JPG: " +:+ name jpg.
Proof.
  assert (FileRenamerGUI.tree Album.main_window !! 1
          = Some ["🖼️"; "IMG_0002.CR2"; "🖼️"; "Wedding_042.jpg"; "2";
                  "Wedding_042.CR2"]) as Hrow by (vm_compute; reflexivity).
  split; [exact Hrow|].
  exact (selection_shows_its_row Shoot.hashes Shoot.hamming path_rename
           Album.load_column_thumbnail Album.Path_of
           "/photos/raw" "/photos/jpg" 5 Shoot.disk Album.scan_and_find_pairs
           1 _ Album.get_file_size Album.load_photo Album.original_size
           (proj1 album_run_is_orderly) (proj2 album_run_is_orderly) Hrow).
Defined.

(** ** One session: Scan, Find pairs, Rename *)

Lemma string_app_empty_r (a : string) : a +:+ "" = a.
Proof.
  induction a as [|x a IH]; [done|].
  change (String x (a +:+ "") = String x a). by rewrite IH.
Qed.

Lemma concat_cons (x : string) (l : list string) :
  String.concat "" (x :: l) = x +:+ String.concat "" l.
Proof. destruct l; simpl; [by rewrite string_app_empty_r | done]. Qed.

Lemma concat_app (l k : list string) :
  String.concat "" (l ++ k) = String.concat "" l +:+ String.concat "" k.
Proof.
  induction l as [|x l IH]; [done|].
  change ((x :: l) ++ k) with (x :: (l ++ k)).
  by rewrite !concat_cons, IH, string_app_assoc.
Qed.

(** [str] of a path below a folder that is not the root. *)
Lemma str_joinpath (p : Path) (c : string) :
  p ≠ [] -> c ≠ "" -> str (joinpath p c) = str p +:+ "/" +:+ c.
Proof.
  intros Hp Hc. unfold joinpath. rewrite decide_False by done.
  assert (forall q : Path, q ≠ [] ->
            str q = String.concat "" (List.map (fun c => "/" +:+ c) q))
    as Hstr by (by intros [|a q]).
  rewrite !Hstr by (try done; by destruct p).
  by rewrite map_app, concat_app.
Qed.

Section Session.

Context {Fingerprint Photo : Type}.
Variable calculate_image_hash : Path -> option Fingerprint.
Variable distance : Fingerprint -> Fingerprint -> Z.
Variable load_column_thumbnail : Path -> option Photo.
Variable Path_of : string -> Path.

Local Abbreviation handle :=
  (FileRenamerGUI.handle calculate_image_hash distance path_rename
     load_column_thumbnail Path_of).

(** Scan, Find pairs, the thread from its first statement to its last and
    the two calls it left with the main loop, on a disk that stays as it
    is. *)
Lemma scan_and_find_pairs_run
    (raw_folder jpg_folder : string) (threshold : Z) (fs : FS)
    (counts : nat * nat) :
  let core := new_core (Path_of raw_folder) (Path_of jpg_folder) threshold in
  let paired :=
    (find_pairs calculate_image_hash distance (scan_files fs core).1).1 in
  let plan := engine_plan calculate_image_hash distance fs core in
  raw_folder ≠ "" -> jpg_folder ≠ "" ->
  (scan_files fs core).2 = Return counts ->
  0 < counts.1 -> 0 < counts.2 ->
  exists self : @FileRenamerGUI.GUI Photo,
    foldl handle (FileRenamerGUI.start raw_folder jpg_folder threshold fs)
      ([FileRenamerGUI.ClickScan; FileRenamerGUI.ClickFindPairs] ++
       replicate 5 (FileRenamerGUI.ThreadRuns 0) ++
       replicate 2 FileRenamerGUI.MainLoopRuns)
    = FileRenamerGUI.mkSession self fs [FileRenamerGUI.Finished] [] /\
    FileRenamerGUI.rename_plan self = plan /\
    FileRenamerGUI.renamer_core self = Some paired /\
    (plan ≠ [] -> FileRenamerGUI.rename_button self = NORMAL) /\
    FileRenamerGUI.reset_gui self
    = FileRenamerGUI.init raw_folder jpg_folder threshold.
Proof.
  intros core paired plan Hraw Hjpg Hscan Hraws Hjpgs.
  cbn [app replicate foldl].
  assert (handle (FileRenamerGUI.start raw_folder jpg_folder threshold fs)
            FileRenamerGUI.ClickScan
          = FileRenamerGUI.mkSession
              (FileRenamerGUI.set_find_pairs_button NORMAL
                 (FileRenamerGUI.set_status_label
                    ("Nalezeno " +:+ pretty counts.1 +:+
                     " RAW souborů a " +:+ pretty counts.2 +:+
                     " JPG souborů")
                    (FileRenamerGUI.set_renamer_core
                       (Some (scan_files fs core).1)
                       (FileRenamerGUI.init raw_folder jpg_folder
                          threshold))))
              fs [] []) as ->.
  { cbn [FileRenamerGUI.handle FileRenamerGUI.start FileRenamerGUI.window
           FileRenamerGUI.disk].
    unfold FileRenamerGUI.scan_files. cbn [FileRenamerGUI.init
      FileRenamerGUI.raw_folder_path FileRenamerGUI.jpg_folder_path
      FileRenamerGUI.similarity_threshold].
    rewrite !bool_decide_eq_false_2 by done. fold core.
    destruct (scan_files fs core) as [scanned outcome] eqn:Hrun.
    simpl in Hscan. subst outcome. destruct counts as [raw_count jpg_count].
    simpl in Hraws, Hjpgs.
    replace (Nat.ltb 0 raw_count) with true by (symmetry; apply Nat.ltb_lt; lia).
    replace (Nat.ltb 0 jpg_count) with true by (symmetry; apply Nat.ltb_lt; lia).
    done. }
  set (scanned := FileRenamerGUI.set_find_pairs_button NORMAL _).
  assert (FileRenamerGUI.renamer_core scanned = Some (scan_files fs core).1)
    as Hcore by done.
  assert (handle (FileRenamerGUI.mkSession scanned fs [] [])
            FileRenamerGUI.ClickFindPairs
          = FileRenamerGUI.mkSession scanned fs [FileRenamerGUI.Spawned] [])
    as -> by done.
  rewrite thread_runs.
  assert (FileRenamerGUI.find_pairs_thread calculate_image_hash distance fs
            scanned FileRenamerGUI.Spawned
          = (FileRenamerGUI.progress_callback (scan_files fs core).1
               (FileRenamerGUI.set_renamer_core (Some paired) scanned), [],
             FileRenamerGUI.Paired
               (find_pairs calculate_image_hash distance
                  (scan_files fs core).1).2)) as ->.
  { unfold FileRenamerGUI.find_pairs_thread. rewrite Hcore. unfold paired.
    by destruct (find_pairs calculate_image_hash distance _). }
  cbn [fst snd app].
  set (called := FileRenamerGUI.progress_callback _ _).
  assert (FileRenamerGUI.renamer_core called = Some paired) as Hcalled
    by (unfold called; by rewrite progress_callback_engine).
  rewrite thread_runs. cbn [FileRenamerGUI.find_pairs_thread fst snd app].
  rewrite thread_runs.
  assert (FileRenamerGUI.find_pairs_thread calculate_image_hash distance fs
            (FileRenamerGUI.set_pairs
               (find_pairs calculate_image_hash distance
                  (scan_files fs core).1).2 called)
            FileRenamerGUI.Assigned
          = (FileRenamerGUI.set_rename_plan plan
               (FileRenamerGUI.set_pairs
                  (find_pairs calculate_image_hash distance
                     (scan_files fs core).1).2 called), [],
             FileRenamerGUI.Planned)) as ->.
  { unfold FileRenamerGUI.find_pairs_thread.
    cbn [FileRenamerGUI.set_pairs FileRenamerGUI.renamer_core].
    by rewrite Hcalled. }
  cbn [fst snd app].
  rewrite thread_runs. cbn [FileRenamerGUI.find_pairs_thread fst snd app].
  rewrite thread_runs. cbn [FileRenamerGUI.find_pairs_thread fst snd app].
  rewrite !main_loop_runs. cbn [FileRenamerGUI.run_callback].
  eexists. split; [reflexivity|].
  set (ready := FileRenamerGUI.set_rename_plan plan _).
  destruct (update_pairs_display_fields load_column_thumbnail ready)
    as (Hplan & _ & Hcore' & Hbutton).
  split; [exact Hplan|]. split; [by rewrite <- Hcalled|].
  split; [exact Hbutton|].
  rewrite reset_gui_after_display.
  change (FileRenamerGUI.reset_gui ready)
    with (FileRenamerGUI.reset_gui called).
  unfold called. by rewrite progress_callback_reset.
Qed.

(** X17.  A session on a disk that stays as it is, with renames that need
    the folder of their target.  With both folders chosen and given by
    their absolute paths, a scan that finds files on both sides, a plan
    that is not empty and no directory at the path of the log: Scan, Find
    pairs, the worker thread run to its end and the two calls it left
    with the main loop leave the engine's plan in the window, the Rename
    button enabled, no thread at work and no call waiting; a confirmed
    Rename then runs that plan on the disk, reports every operation of it
    as renamed, names the log file by its path below the RAW folder, and
    puts the window back into its initial state, so that a second click
    on Rename does nothing. *)
Theorem session_renames_every_planned_file
    (raw_folder jpg_folder : string) (threshold : Z) (fs : FS)
    (stamp iso : string) (counts : nat * nat) :
  let core := new_core (Path_of raw_folder) (Path_of jpg_folder) threshold in
  let paired :=
    (find_pairs calculate_image_hash distance (scan_files fs core).1).1 in
  let plan := engine_plan calculate_image_hash distance fs core in
  let session :=
    foldl handle (FileRenamerGUI.start raw_folder jpg_folder threshold fs)
      ([FileRenamerGUI.ClickScan; FileRenamerGUI.ClickFindPairs] ++
       replicate 5 (FileRenamerGUI.ThreadRuns 0) ++
       replicate 2 FileRenamerGUI.MainLoopRuns) in
  raw_folder ≠ "" -> jpg_folder ≠ "" ->
  str (Path_of raw_folder) = raw_folder ->
  str (Path_of jpg_folder) = jpg_folder ->
  (scan_files fs core).2 = Return counts ->
  0 < counts.1 -> 0 < counts.2 ->
  plan ≠ [] ->
  fs !! log_path core stamp ≠ Some Directory ->
  FileRenamerGUI.disk session = fs /\
  FileRenamerGUI.quiet session = true /\
  FileRenamerGUI.rename_plan (FileRenamerGUI.window session) = plan /\
  FileRenamerGUI.rename_button (FileRenamerGUI.window session) = NORMAL /\
  FileRenamerGUI.rename_files (Photo := Photo) path_rename fs
    (FileRenamerGUI.window session) true stamp iso
  = (FileRenamerGUI.init raw_folder jpg_folder threshold,
     (execute_rename path_rename paired fs plan stamp iso).1.2,
     [FileRenamerGUI.askyesno "Potvrzení"
        ("Opravdu chcete přejmenovat " +:+ pretty (length plan) +:+
         " souborů?" +:+ newline +:+ newline +:+
         "Bude vytvořen záložní log pro možnost obnovy.");
      FileRenamerGUI.showinfo "Dokončeno"
        ("Přejmenování dokončeno!" +:+ newline +:+ newline +:+
         "Úspěšně přejmenováno: " +:+ pretty (length plan) +:+ "/" +:+
         pretty (length plan) +:+ " souborů" +:+ newline +:+
         "Záložní log: " +:+ str (log_path paired stamp))]) /\
  (Path_of raw_folder ≠ [] ->
   str (log_path paired stamp)
   = raw_folder +:+ "/" +:+ "rename_backup_" +:+ stamp +:+ ".json") /\
  handle (handle session (FileRenamerGUI.ClickRename true stamp iso))
         (FileRenamerGUI.ClickRename true stamp iso)
  = handle session (FileRenamerGUI.ClickRename true stamp iso).
Proof.
  intros core paired plan session Hraw Hjpg Hraw_abs Hjpg_abs Hscan Hraws
    Hjpgs Hplan Hlog.
  destruct (scan_and_find_pairs_run raw_folder jpg_folder threshold fs counts
              Hraw Hjpg Hscan Hraws Hjpgs)
    as (self & Hsession & Hplan' & Hcore & Hbutton & Hreset).
  fold core in Hplan', Hcore, Hbutton. fold plan in Hplan', Hbutton.
  fold paired in Hcore. specialize (Hbutton Hplan).
  unfold session. rewrite Hsession.
  cbn [FileRenamerGUI.disk FileRenamerGUI.window].
  destruct (scan_files_returned fs core counts Hscan) as [Hfolder _].
  destruct (engine_run calculate_image_hash distance fs core stamp iso
              Hfolder Hlog) as [Hsame Hrun].
  fold paired in Hsame, Hrun. fold plan in Hrun.
  assert (Forall (fun op => status op = SUCCESS)
            (records posix_rename fs plan)) as Hall.
  { apply records_all_success.
    - apply engine_plan_sources_once.
    - apply engine_plan_sources.
    - intros t Ht. by rewrite (engine_plan_targets _ _ _ _ _ Ht).
    - apply engine_plan_disjoint. }
  rewrite length_filter_all, length_records in Hrun by done.
  assert (FileRenamerGUI.rename_files (Photo := Photo) path_rename fs self
            true stamp iso
          = (FileRenamerGUI.init raw_folder jpg_folder threshold,
             (execute_rename path_rename paired fs plan stamp iso).1.2,
             [FileRenamerGUI.askyesno "Potvrzení"
                ("Opravdu chcete přejmenovat " +:+ pretty (length plan) +:+
                 " souborů?" +:+ newline +:+ newline +:+
                 "Bude vytvořen záložní log pro možnost obnovy.");
              FileRenamerGUI.showinfo "Dokončeno"
                ("Přejmenování dokončeno!" +:+ newline +:+ newline +:+
                 "Úspěšně přejmenováno: " +:+ pretty (length plan) +:+ "/"
                 +:+ pretty (length plan) +:+ " souborů" +:+ newline +:+
                 "Záložní log: " +:+ str (log_path paired stamp))]))
    as Hrename.
  { unfold FileRenamerGUI.rename_files.
    rewrite Hplan', Hcore. rewrite bool_decide_eq_false_2 by done.
    cbn [negb]. rewrite Hrun. cbn [fst snd]. by rewrite Hreset, Hsame. }
  split; [done|]. split; [done|]. split; [done|]. split; [done|].
  split; [exact Hrename|]. split.
  - intros Hroot. rewrite Hsame. unfold log_path. cbv zeta.
    rewrite str_joinpath; [|done|done].
    change (raw_folder_path core) with (Path_of raw_folder).
    by rewrite Hraw_abs.
  - cbn [FileRenamerGUI.handle FileRenamerGUI.window FileRenamerGUI.disk
           FileRenamerGUI.threads FileRenamerGUI.after].
    rewrite Hbutton, Hrename. by cbn.
Qed.

End Session.

Lemma session_renames_every_planned_file_album :
  let core := new_core (Album.Path_of "/photos/raw")
                       (Album.Path_of "/photos/jpg") 5 in
  (scan_files Shoot.disk core).2 = Return (3, 3) /\
  engine_plan Shoot.hashes Shoot.hamming Shoot.disk core ≠ [] /\
  FileRenamerGUI.rename_button Album.main_window = NORMAL /\
  (FileRenamerGUI.rename_files path_rename Shoot.disk Album.main_window true
     Shoot.stamp Shoot.iso).1.1
  = FileRenamerGUI.init "/photos/raw" "/photos/jpg" 5 /\
  str (log_path
         (find_pairs Shoot.hashes Shoot.hamming (scan_files Shoot.disk core).1).1
         Shoot.stamp)
  = "/photos/raw/rename_backup_20240101_120000.json".
Proof.
  intros core.
  assert ((scan_files Shoot.disk core).2 = Return (3, 3)) as Hscan
    by (vm_compute; reflexivity).
  assert (engine_plan Shoot.hashes Shoot.hamming Shoot.disk core ≠ [])
    as Hplan by (vm_compute; discriminate).
  assert (Shoot.disk !! log_path core Shoot.stamp ≠ Some Directory) as Hlog
    by (vm_compute; discriminate).
  destruct (session_renames_every_planned_file Shoot.hashes Shoot.hamming
              Album.load_column_thumbnail Album.Path_of
              "/photos/raw" "/photos/jpg" 5 Shoot.disk Shoot.stamp Shoot.iso
              (3, 3))
    as (_ & _ & _ & Hbutton & Hrename & Htext & _);
    [discriminate | discriminate | vm_compute; reflexivity
    | vm_compute; reflexivity | exact Hscan | simpl; lia | simpl; lia
    | exact Hplan | exact Hlog |].
  split; [exact Hscan|]. split; [exact Hplan|]. split; [exact Hbutton|].
  split; [unfold Album.scan_and_find_pairs; by rewrite Hrename|].
  etrans; [apply Htext; vm_compute; discriminate | reflexivity].
Defined.

(** * Doing it again *)

Lemma scan_files_ext fs (self other : FileRenamerCore) :
  raw_folder_path self = raw_folder_path other ->
  jpg_folder_path self = jpg_folder_path other ->
  similarity_threshold self = similarity_threshold other ->
  pairs self = pairs other ->
  log_file self = log_file other ->
  scan_files fs self = scan_files fs other.
Proof.
  destruct self, other. simpl. by intros -> -> -> -> ->.
Qed.

Lemma scan_files_keeps fs self :
  raw_folder_path (scan_files fs self).1 = raw_folder_path self /\
  jpg_folder_path (scan_files fs self).1 = jpg_folder_path self /\
  similarity_threshold (scan_files fs self).1 = similarity_threshold self /\
  pairs (scan_files fs self).1 = pairs self /\
  log_file (scan_files fs self).1 = log_file self.
Proof.
  rewrite scan_files_cases.
  destruct (fs !! raw_folder_path self) as [[c|]|]; simpl;
    try (destruct (fs !! jpg_folder_path self) as [[c'|]|]; simpl); done.
Qed.

Section Again.

Context {Fingerprint : Type}.
Variable calculate_image_hash : Path -> option Fingerprint.
Variable distance : Fingerprint -> Fingerprint -> Z.

Local Abbreviation find_pairs := (find_pairs calculate_image_hash distance).

(** X18.  Scanning and pairing start afresh each time: a second scan of
    the same disk, or a second pairing of the same lists, gives the engine
    and the result of the first, however many files or pairs the engine
    held before; nothing accumulates, and a scan leaves the pairs and the
    log path of the engine alone. *)
Theorem scan_and_pairing_start_afresh (fs : FS) (self : FileRenamerCore) :
  scan_files fs (scan_files fs self).1 = scan_files fs self /\
  find_pairs (find_pairs self).1 = find_pairs self /\
  (forall stale_raws stale_jpgs,
     scan_files fs (set_jpg_files stale_jpgs (set_raw_files stale_raws self))
     = scan_files fs self) /\
  (forall stale, find_pairs (set_pairs stale self)
                 = find_pairs (set_pairs [] self)) /\
  pairs (scan_files fs self).1 = pairs self /\
  log_file (scan_files fs self).1 = log_file self.
Proof.
  destruct (scan_files_keeps fs self) as (Hraw & Hjpg & Hthreshold & Hpairs & Hlog).
  split; [by apply scan_files_ext|].
  split; [|split; [|split; [|done]]].
  - rewrite !find_pairs_spec. by destruct self.
  - intros stale_raws stale_jpgs. apply scan_files_ext; by destruct self.
  - intros stale. rewrite !find_pairs_spec. by destruct self.
Qed.

End Again.

(** * The two versions of the table *)

Lemma v2_display_loop (pairs : list MatchPair) (plan : list (Path * Path)) :
  forall tree,
    foldl (FileRenamerGUI_V2.display_step pairs) tree plan
    = tree ++
      ((fun op : Path * Path =>
          match FileRenamerGUI.pair_of pairs op.1 with
          | Some (jpg, sim) =>
              [name op.1; name jpg; str_similarity sim; name op.2]
          | None => [name op.1; "N/A"; "N/A"; name op.2]
          end) <$> plan).
Proof.
  induction plan as [|[raw new] plan IH]; intros tree; simpl.
  - by rewrite app_nil_r.
  - rewrite IH. destruct (FileRenamerGUI.pair_of pairs raw) as [[jpg sim]|];
      by rewrite <- app_assoc.
Qed.

Section TwoTables.

Context {Fingerprint Photo : Type}.
Variable calculate_image_hash : Path -> option Fingerprint.
Variable distance : Fingerprint -> Fingerprint -> Z.
Variable rename : FS -> Path -> Path -> Outcome FS.
Variable load_column_thumbnail : Path -> option Photo.
Variable Path_of : string -> Path.

Local Abbreviation handle :=
  (FileRenamerGUI.handle calculate_image_hash distance rename
     load_column_thumbnail Path_of).
Local Abbreviation orderly :=
  (FileRenamerGUI.orderly calculate_image_hash distance rename
     load_column_thumbnail Path_of).

(** X19.  The two versions show the same table, as long as the user
    waits for the thread of find_pairs.  On the pairs and the plan of any
    state of a run in which each event of the user finds no thread at
    work and no call waiting in the main loop, and in which none is at
    work or waiting now, the table that update_pairs_display of
    renamerV2_gui.py builds is the table of renamerV4.py without its two
    preview columns; the N/A cells of the older version are not
    written. *)
Theorem v2_table_is_v4_table_without_previews
    (raw_folder jpg_folder : string) (threshold : Z) (fs : FS)
    (events : list (@FileRenamerGUI.Event)) (button : ButtonState) :
  let start := FileRenamerGUI.start raw_folder jpg_folder threshold fs in
  orderly start events = true ->
  FileRenamerGUI.quiet (foldl handle start events) = true ->
  let self := FileRenamerGUI.window (foldl handle start events) in
  let v2 :=
    FileRenamerGUI_V2.update_pairs_display (FileRenamerGUI.pairs self)
      (FileRenamerGUI.rename_plan self) button in
  v2.1.1
  = (fun values => [nth 1 values ""; nth 3 values ""; nth 4 values "";
                    nth 5 values ""]) <$> FileRenamerGUI.tree self /\
  length v2.1.1 = length (FileRenamerGUI.rename_plan self) /\
  Forall (fun op =>
            is_Some (FileRenamerGUI.pair_of (FileRenamerGUI.pairs self) op.1))
         (FileRenamerGUI.rename_plan self).
Proof.
  intros start Horderly Hquiet self v2.
  pose proof (orderly_quiet_consistent calculate_image_hash distance rename
                load_column_thumbnail Path_of raw_folder jpg_folder threshold
                fs events Horderly Hquiet) as Hself.
  fold start in Hself. fold self in Hself.
  pose proof Hself as (_ & (Hrows & Hdata & Hcoherent) & _ & [Hnodup _] & _).
  assert (forall i op,
            FileRenamerGUI.rename_plan self !! i = Some op ->
            exists values jpg sim,
              FileRenamerGUI.tree self !! i = Some values /\
              FileRenamerGUI.pair_of (FileRenamerGUI.pairs self) op.1
              = Some (jpg, sim) /\
              [nth 1 values ""; nth 3 values ""; nth 4 values "";
               nth 5 values ""]
              = [name op.1; name jpg; str_similarity sim; name op.2])
    as Hrow.
  { intros i op Hop. pose proof (lookup_lt_Some _ _ _ Hop) as Hi.
    destruct (lookup_lt_is_Some_2 (FileRenamerGUI.tree self) i)
      as [values Hvalues]; [lia|].
    destruct (lookup_lt_is_Some_2 (FileRenamerGUI.pairs_data self) i)
      as [[[[raw jpg] sim] new_name] Hentry]; [lia|].
    destruct (Hcoherent i values _ op Hvalues Hentry Hop)
      as (-> & Hin & -> & _ & rp & jp & ->).
    exists [rp; name op.1; jp; name jpg; str_similarity sim; name op.2],
      jpg, sim.
    split; [done|]. split; [by apply pair_of_unique | done]. }
  assert (v2.1.1
          = (fun op : Path * Path =>
               match FileRenamerGUI.pair_of (FileRenamerGUI.pairs self) op.1
               with
               | Some (jpg, sim) =>
                   [name op.1; name jpg; str_similarity sim; name op.2]
               | None => [name op.1; "N/A"; "N/A"; name op.2]
               end) <$> FileRenamerGUI.rename_plan self) as Hv2.
  { unfold v2, FileRenamerGUI_V2.update_pairs_display. cbn [fst].
    by rewrite v2_display_loop. }
  split; [|split].
  - rewrite Hv2. apply list_eq. intros i. rewrite !list_lookup_fmap.
    destruct (FileRenamerGUI.rename_plan self !! i) as [op|] eqn:Hop.
    + destruct (Hrow i op Hop) as (values & jpg & sim & -> & Hpair & Hcells).
      simpl. by rewrite Hpair, Hcells.
    + apply lookup_ge_None in Hop. rewrite <- Hrows in Hop.
      apply lookup_ge_None in Hop. by rewrite Hop.
  - rewrite Hv2. by rewrite length_fmap.
  - apply Forall_forall. intros op Hop.
    apply list_elem_of_lookup in Hop as [i Hop].
    destruct (Hrow i op Hop) as (values & jpg & sim & _ & -> & _).
    by eexists.
Qed.

End TwoTables.

Lemma v2_table_is_v4_table_without_previews_album :
  let v2 :=
    FileRenamerGUI_V2.update_pairs_display
      (FileRenamerGUI.pairs Album.main_window)
      (FileRenamerGUI.rename_plan Album.main_window) DISABLED in
  Album.orderly
    (FileRenamerGUI.start "/photos/raw" "/photos/jpg" 5 Shoot.disk)
    Album.scan_and_find_pairs = true /\
  FileRenamerGUI.quiet Album.main_session = true /\
  v2.1.1 !! 1
  = Some ["IMG_0002.CR2"; "Wedding_042.jpg"; "2"; "Wedding_042.CR2"] /\
  v2.1.1
  = (fun values => [nth 1 values ""; nth 3 values ""; nth 4 values "";
                    nth 5 values ""])
      <$> FileRenamerGUI.tree Album.main_window /\
  length v2.1.1 = length (FileRenamerGUI.rename_plan Album.main_window) /\
  Forall (fun op =>
            is_Some (FileRenamerGUI.pair_of
                       (FileRenamerGUI.pairs Album.main_window) op.1))
         (FileRenamerGUI.rename_plan Album.main_window).
Proof.
  intros v2.
  split; [exact (proj1 album_run_is_orderly)|].
  split; [exact (proj2 album_run_is_orderly)|].
  split; [vm_compute; reflexivity|].
  exact (v2_table_is_v4_table_without_previews Shoot.hashes Shoot.hamming
           path_rename Album.load_column_thumbnail Album.Path_of
           "/photos/raw" "/photos/jpg" 5 Shoot.disk Album.scan_and_find_pairs
           DISABLED (proj1 album_run_is_orderly) (proj2 album_run_is_orderly)).
Defined.
